(** * neumorphic-peripheral: component lifecycle and validation engine

    A shallow embedding of the TypeScript sources of the library
    (validators, validation manager, theme store, base component and the
    Card, Input, Textarea, Password, Button and Toggle widgets) together
    with the properties its specification states about them.

    Conventions of the embedding.
    - A JavaScript string is the list of its UTF-16 code units
      ([jsstring]); [length] is the JavaScript [.length].
    - [string | null] results are [option jsstring]; the JavaScript
      truthiness test [if (error)] is [truthy]: [null] and the empty
      string are both falsy.
    - Objects that the code mutates in place (DOM elements, the theme
      store, the validation manager, component instances) live in explicit
      stores that every operation receives and returns.
    - Custom events dispatched with [emit] are recorded in a log, the way
      an external listener would observe them.
    - A call that can throw ends in an [Outcome]: it returned, or an
      exception left it; the mutations made before the exception stay. *)

From Stdlib Require Import ZArith NArith List Bool Ascii String DecimalString Lia QArith Qround.
From stdpp Require Import base option list gmap strings.

Import ListNotations.
Local Open Scope string_scope.
Local Open Scope Z_scope.
Local Open Scope list_scope.

(* ================================================================== *)
(** * Part I: definitions                                              *)
(* ================================================================== *)

(** ** JavaScript strings *)

Module Js.

(** UTF-16 code unit. *)
Definition code_unit := N.
Definition jsstring := list code_unit.

(** A string literal of the source (all literals used here are ASCII). *)
Definition lit (s : string) : jsstring :=
  map N_of_ascii (list_ascii_of_string s).

Definition is_empty (s : jsstring) : bool :=
  match s with [] => true | _ :: _ => false end.

(** Truthiness of a [string] value: only the empty string is falsy. *)
Definition truthy_str (s : jsstring) : bool := negb (is_empty s).

(** Truthiness of a [string | null] value. *)
Definition truthy (o : option jsstring) : bool :=
  match o with
  | Some s => truthy_str s
  | None => false
  end.

(** Truthiness of an optional boolean property ([undefined] is falsy). *)
Definition truthy_flag (o : option bool) : bool :=
  match o with Some b => b | None => false end.

Definition between (lo hi c : N) : bool := ((lo <=? c) && (c <=? hi))%N.

(** ECMAScript WhiteSpace and LineTerminator code points: the set that
    [String.prototype.trim] strips and that [\s] matches. *)
Definition is_space (c : code_unit) : bool :=
  between 9 13 c || (c =? 32)%N || (c =? 160)%N || (c =? 5760)%N
  || between 8192 8202 c || (c =? 8232)%N || (c =? 8233)%N
  || (c =? 8239)%N || (c =? 8287)%N || (c =? 12288)%N || (c =? 65279)%N.

Fixpoint trim_start (s : jsstring) : jsstring :=
  match s with
  | c :: r => if is_space c then trim_start r else s
  | [] => []
  end.

(** [value.trim()] *)
Definition trim (s : jsstring) : jsstring :=
  rev (trim_start (rev (trim_start s))).

(** [`${n}`] for an integer-valued number (plain decimal notation, which
    is what JavaScript prints for integers below 10^21). *)
Definition number_to_string (n : Z) : jsstring :=
  lit (NilZero.string_of_int (Z.to_int n)).

Definition is_upper (c : code_unit) : bool := between 65 90 c.
Definition is_lower (c : code_unit) : bool := between 97 122 c.
Definition is_digit (c : code_unit) : bool := between 48 57 c.

(** A regular expression is represented by its [test] function (a
    regular expression without the [g] or [y] flag, whose [test] does
    not depend on [lastIndex]). *)
Record RegExp := { test : jsstring -> bool }.

(** [/[A-Z]/], [/[a-z]/], [/[0-9]/], [/[^A-Za-z0-9]/] *)
Definition re_upper : RegExp := {| test := existsb is_upper |}.
Definition re_lower : RegExp := {| test := existsb is_lower |}.
Definition re_digit : RegExp := {| test := existsb is_digit |}.
Definition re_special : RegExp :=
  {| test := existsb (fun c => negb (is_upper c || is_lower c || is_digit c)) |}.

(** The exceptions of the code below: [Error] is what the constructors
    throw themselves, [TypeError] the read of a property of [undefined],
    [SyntaxError] and [InvalidCharacterError] the two [DOMException]s of
    [DOMTokenList]. *)
Inductive Exception := Error | TypeError | SyntaxError | InvalidCharacterError.

(** How a call ends.  [s] is the state the call leaves: an exception
    undoes nothing of what was done before it. *)
Inductive Outcome (S : Type) :=
| Done (s : S)
| Thrown (e : Exception) (s : S).
Arguments Done {S} s.
Arguments Thrown {S} e s.

Definition state {S : Type} (o : Outcome S) : S :=
  match o with Done s => s | Thrown _ s => s end.

(** The exception that left the call, if one did. *)
Definition thrown {S : Type} (o : Outcome S) : option Exception :=
  match o with Done _ => None | Thrown e _ => Some e end.

End Js.

Import Js.

(** ** src/utils: isValidEmail *)

Module Utils.

Definition at_sign : code_unit := 64%N.
Definition dot : code_unit := 46%N.

(** The class [[^\s@]]. *)
Definition email_atom (c : code_unit) : bool :=
  negb (is_space c) && negb (c =? at_sign)%N.

(** Longest prefix matched by [[^\s@]+], and the rest. *)
Fixpoint span_atoms (s : jsstring) : jsstring * jsstring :=
  match s with
  | c :: r =>
      if email_atom c
      then let '(a, rest) := span_atoms r in (c :: a, rest)
      else ([], s)
  | [] => ([], [])
  end.

(** Does [d] read [b ++ "." ++ c] with [b] and [c] non-empty? *)
Fixpoint inner_dot (d : jsstring) : bool :=
  match d with
  | _ :: ((y :: t) as r) => ((y =? dot)%N && negb (is_empty t)) || inner_dot r
  | _ => false
  end.

(** [/^[^\s@]+@[^\s@]+\.[^\s@]+$/.test(email)] *)
Definition isValidEmail (email : jsstring) : bool :=
  let '(loc, rest) := span_atoms email in
  negb (is_empty loc) &&
  match rest with
  | c :: d => (c =? at_sign)%N && forallb email_atom d && inner_dot d
  | [] => false
  end.

(** What the regular expression of [isValidEmail] says: a non-empty
    local part, ["@"], a non-empty domain, ["."], a non-empty rest, none
    of the three parts holding white space or ["@"]. *)
Definition matches_email (email : jsstring) : Prop :=
  exists a b c,
    email = a ++ [at_sign] ++ b ++ [dot] ++ c
    /\ a <> [] /\ b <> [] /\ c <> []
    /\ forallb email_atom a = true
    /\ forallb email_atom b = true
    /\ forallb email_atom c = true.

Inductive Size := sm | md | lg.

#[export] Instance Size_eq_dec : EqDecision Size.
Proof. solve_decision. Defined.

Inductive SizeKind := size_padding | size_height | size_fontSize.

(** [getSizeValue(size, type)] *)
Definition getSizeValue (size : Size) (kind : SizeKind) : string :=
  match kind, size with
  | size_padding, sm => "8px 12px"
  | size_padding, md => "12px 16px"
  | size_padding, lg => "16px 24px"
  | size_height, sm => "32px"
  | size_height, md => "40px"
  | size_height, lg => "48px"
  | size_fontSize, sm => "14px"
  | size_fontSize, md => "16px"
  | size_fontSize, lg => "18px"
  end.

Definition size_name (size : Size) : string :=
  match size with sm => "sm" | md => "md" | lg => "lg" end.

End Utils.

(** ** src/validators *)

Module Validators.

Import Utils.

(** [ValidationFunction = (value: string) => string | null] *)
Definition ValidationFunction := jsstring -> option jsstring.

(** [ValidationConfig]: every property is optional.  The two lengths are
    JavaScript numbers; they are taken to be integers. *)
Record ValidationConfig := {
  required : option bool;
  email : option bool;
  minLength : option Z;
  maxLength : option Z;
  pattern : option RegExp;
  custom : option (list ValidationFunction)
}.

(** [ValidationConfig | ValidationFunction] *)
Inductive RuleSet :=
| RuleFn (f : ValidationFunction)
| RuleCfg (c : ValidationConfig).

Record ValidationResult := {
  isValid : bool;
  errors : list jsstring
}.

Definition msg_required : jsstring := lit "This field is required".
Definition msg_email : jsstring := lit "Please enter a valid email address".
Definition msg_invalid_format : jsstring := lit "Invalid format".
Definition msg_minLength (min : Z) : jsstring :=
  lit "Must be at least " ++ number_to_string min ++ lit " characters".
Definition msg_maxLength (max : Z) : jsstring :=
  lit "Must be no more than " ++ number_to_string max ++ lit " characters".

(** The built-in validators of the [validators] object that
    [validateValue] uses.  (The numeric ones, [number], [integer], [min]
    and [max], are not used by it and are left out.) *)

Definition validators_required (value : jsstring) : option jsstring :=
  if is_empty (trim value) then Some msg_required else None.

Definition validators_email (value : jsstring) : option jsstring :=
  if truthy_str value && negb (isValidEmail value) then Some msg_email else None.

Definition validators_minLength (min : Z) (value : jsstring) : option jsstring :=
  if truthy_str value && (Z.of_nat (length value) <? min)
  then Some (msg_minLength min) else None.

Definition validators_maxLength (max : Z) (value : jsstring) : option jsstring :=
  if truthy_str value && (Z.of_nat (length value) >? max)
  then Some (msg_maxLength max) else None.

(** [pattern: (regex, message = 'Invalid format') => value => ...] *)
Definition validators_pattern (regex : RegExp) (message : option jsstring)
    (value : jsstring) : option jsstring :=
  let message := default msg_invalid_format message in
  if truthy_str value && negb (test regex value) then Some message else None.

(** *** validatePasswordStrength *)

Inductive Strength := weak | fair | good | strong.

Record PasswordStrength := {
  score : Z;
  feedback : list jsstring;
  strength : Strength
}.

Definition fb_length : jsstring := lit "Use at least 8 characters".
Definition fb_upper : jsstring := lit "Add uppercase letters".
Definition fb_lower : jsstring := lit "Add lowercase letters".
Definition fb_digit : jsstring := lit "Add numbers".
Definition fb_special : jsstring := lit "Add special characters".

(** The two local variables of the function. *)
Record Tally := { t_score : Z; t_feedback : list jsstring }.

(** [if (cond) { score += 1 } else { feedback.push(hint) }] *)
Definition criterion (cond : bool) (hint : jsstring) (t : Tally) : Tally :=
  if cond
  then {| t_score := t_score t + 1; t_feedback := t_feedback t |}
  else {| t_score := t_score t; t_feedback := t_feedback t ++ [hint] |}.

Definition validatePasswordStrength (password : jsstring) : PasswordStrength :=
  let t := {| t_score := 0; t_feedback := [] |} in
  let t := criterion (8 <=? Z.of_nat (length password)) fb_length t in
  let t := criterion (test re_upper password) fb_upper t in
  let t := criterion (test re_lower password) fb_lower t in
  let t := criterion (test re_digit password) fb_digit t in
  let t := criterion (test re_special password) fb_special t in
  let strength :=
    if t_score t <=? 2 then weak
    else if t_score t =? 3 then fair
    else if t_score t =? 4 then good
    else strong in
  {| score := t_score t; feedback := t_feedback t; strength := strength |}.

(** *** validateValue

    The function pushes onto a local [errors] array and may return from
    the middle of its body.  It is written here in a small monad with
    the array as state and an early exit.  The state also carries a
    ghost log of the validators that were called, which the source does
    not have; it only serves to state which rules were evaluated. *)

Inductive Rule :=
| RFunction | RRequired | REmail | RMinLength | RMaxLength | RPattern
| RCustom (i : nat).

Record Acc := { acc_errors : list jsstring; acc_called : list Rule }.

Inductive Step (A : Type) :=
| Returned (r : ValidationResult) (s : Acc)
| Next (a : A) (s : Acc).
Arguments Returned {A} r s.
Arguments Next {A} a s.

Definition V (A : Type) := Acc -> Step A.

#[export] Instance V_ret : MRet V := fun A a s => Next a s.

#[export] Instance V_bind : MBind V := fun A B k m s =>
  match m s with
  | Returned r s' => Returned r s'
  | Next a s' => k a s'
  end.

(** [const error = validator(value)] *)
Definition call (r : Rule) (result : option jsstring) : V (option jsstring) :=
  fun s => Next result
    {| acc_errors := acc_errors s; acc_called := acc_called s ++ [r] |}.

(** [errors.push(error)] *)
Definition push (error : option jsstring) : V unit :=
  fun s => Next tt
    {| acc_errors := acc_errors s ++ [default [] error];
       acc_called := acc_called s |}.

(** [return { isValid: b, errors }] with the current array *)
Definition return_with_errors (b : bool) : V unit :=
  fun s => Returned {| isValid := b; errors := acc_errors s |} s.

(** [return r] *)
Definition return_result (r : ValidationResult) : V unit :=
  fun s => Returned r s.

Definition when (b : bool) (m : V unit) : V unit :=
  if b then m else mret tt.

(** [const error = validator(value); if (error) errors.push(error)] *)
Definition check (r : Rule) (result : option jsstring) : V unit :=
  error ← call r result;
  when (truthy error) (push error).

(** [config.custom.forEach(validator => ...)] *)
Fixpoint forEach_custom (i : nat) (fs : list ValidationFunction)
    (value : jsstring) : V unit :=
  match fs with
  | [] => mret tt
  | validator :: rest =>
      check (RCustom i) (validator value) ;;
      forEach_custom (S i) rest value
  end.

Definition validateValue_body (value : jsstring) (config : RuleSet) : V unit :=
  match config with
  | RuleFn f =>
      check RFunction (f value)
  | RuleCfg config =>
      when (truthy_flag (required config))
        (error ← call RRequired (validators_required value);
         when (truthy error)
           (push error ;;
            when (is_empty (trim value)) (return_with_errors false))) ;;
      when (is_empty (trim value))
        (return_result {| isValid := true; errors := [] |}) ;;
      when (truthy_flag (email config))
        (check REmail (validators_email value)) ;;
      match minLength config with
      | Some min => check RMinLength (validators_minLength min value)
      | None => mret tt
      end ;;
      match maxLength config with
      | Some max => check RMaxLength (validators_maxLength max value)
      | None => mret tt
      end ;;
      match pattern config with
      | Some regex => check RPattern (validators_pattern regex None value)
      | None => mret tt
      end ;;
      match custom config with
      | Some fs => forEach_custom 0 fs value
      | None => mret tt
      end
  end.

(** Runs the body; falling off its end is the final
    [return { isValid: errors.length === 0, errors }]. *)
Definition validateValue_run (value : jsstring) (config : RuleSet)
    : ValidationResult * list Rule :=
  match validateValue_body value config {| acc_errors := []; acc_called := [] |} with
  | Returned r s => (r, acc_called s)
  | Next _ s =>
      ({| isValid := (length (acc_errors s) =? 0)%nat; errors := acc_errors s |},
       acc_called s)
  end.

Definition validateValue (value : jsstring) (config : RuleSet) : ValidationResult :=
  fst (validateValue_run value config).

(** The validators that a call of [validateValue] evaluated, in order. *)
Definition rules_evaluated (value : jsstring) (config : RuleSet) : list Rule :=
  snd (validateValue_run value config).

(** *** Statement of the evaluation order *)

(** The outcome of every configured rule on a value whose trimmed form
    is not empty, in the order email, minLength, maxLength, pattern,
    custom functions.  [Some m] is a failure with message [m]. *)
Definition rule_outcomes (c : ValidationConfig) (value : jsstring)
    : list (Rule * option jsstring) :=
  (if truthy_flag (email c)
   then [(REmail, if isValidEmail value then None else Some msg_email)]
   else []) ++
  match minLength c with
  | Some min => [(RMinLength,
                  if Z.of_nat (length value) <? min
                  then Some (msg_minLength min) else None)]
  | None => []
  end ++
  match maxLength c with
  | Some max => [(RMaxLength,
                  if max <? Z.of_nat (length value)
                  then Some (msg_maxLength max) else None)]
  | None => []
  end ++
  match pattern c with
  | Some regex => [(RPattern,
                    if test regex value then None else Some msg_invalid_format)]
  | None => []
  end ++
  match custom c with
  | Some fs => imap (fun k f => (RCustom k, f value)) fs
  | None => []
  end.

(** A rule failed when its validator returned a non-empty message. *)
Definition failure (o : Rule * option jsstring) : option jsstring :=
  if truthy (snd o) then snd o else None.

(** Effect of a straight-line run of rule checks on the accumulator. *)
Definition extend (s : Acc) (l : list (Rule * option jsstring)) : Acc :=
  {| acc_errors := acc_errors s ++ omap failure l;
     acc_called := acc_called s ++ l.*1 |}.

End Validators.

(** ** src/themes *)

Module Themes.

Record ShadowColors := { light : string; dark : string }.

Record Colors := {
  surface : string;
  shadow : ShadowColors;
  text : string;
  textSecondary : string;
  accent : string;
  error : string;
  success : string
}.

Record Animation := { duration : string; easing : string }.

(** [shadowIntensity] is a JavaScript number; it is kept as the rational
    it denotes (0.15 is 3/20). *)
Record NeumorphicTheme := {
  colors : Colors;
  borderRadius : string;
  spacing : string;
  shadowIntensity : Q;
  animation : Animation
}.

Inductive ThemePreset := preset_light | preset_dark.

(** [NeumorphicTheme | 'light' | 'dark'].  A theme object has an
    identity: [obj] tells apart two objects that have the same
    contents. *)
Inductive ThemeRef :=
| Preset (name : ThemePreset)
| Custom (obj : nat) (theme : NeumorphicTheme).

#[export] Instance Q_eq_dec : EqDecision Q.
Proof. solve_decision. Defined.
#[export] Instance ShadowColors_eq_dec : EqDecision ShadowColors.
Proof. solve_decision. Defined.
#[export] Instance Colors_eq_dec : EqDecision Colors.
Proof. solve_decision. Defined.
#[export] Instance Animation_eq_dec : EqDecision Animation.
Proof. solve_decision. Defined.
#[export] Instance NeumorphicTheme_eq_dec : EqDecision NeumorphicTheme.
Proof. solve_decision. Defined.
#[export] Instance ThemePreset_eq_dec : EqDecision ThemePreset.
Proof. solve_decision. Defined.
#[export] Instance ThemeRef_eq_dec : EqDecision ThemeRef.
Proof. solve_decision. Defined.

(** [a === b] on the [theme] entry of two configurations ([None] is
    [undefined]): names are compared as strings, objects by identity. *)
Definition same_theme_value (a b : option ThemeRef) : bool :=
  match a, b with
  | None, None => true
  | Some (Preset x), Some (Preset y) => bool_decide (x = y)
  | Some (Custom i _), Some (Custom j _) => (i =? j)%nat
  | _, _ => false
  end.

Definition lightTheme : NeumorphicTheme := {|
  colors := {|
    surface := "#f0f0f3";
    shadow := {| light := "#ffffff"; dark := "#d1d9e6" |};
    text := "#333333";
    textSecondary := "#666666";
    accent := "#6c5ce7";
    error := "#e74c3c";
    success := "#27ae60" |};
  borderRadius := "12px";
  spacing := "16px";
  shadowIntensity := 3 # 20;
  animation := {| duration := "0.2s"; easing := "cubic-bezier(0.4, 0, 0.2, 1)" |}
|}.

Definition darkTheme : NeumorphicTheme := {|
  colors := {|
    surface := "#2d3748";
    shadow := {| light := "#4a5568"; dark := "#1a202c" |};
    text := "#f7fafc";
    textSecondary := "#cbd5e0";
    accent := "#805ad5";
    error := "#fc8181";
    success := "#68d391" |};
  borderRadius := "12px";
  spacing := "16px";
  shadowIntensity := 1 # 5;
  animation := {| duration := "0.2s"; easing := "cubic-bezier(0.4, 0, 0.2, 1)" |}
|}.

(** [themes: Record<ThemePreset, NeumorphicTheme>] *)
Definition themes (name : ThemePreset) : NeumorphicTheme :=
  match name with
  | preset_light => lightTheme
  | preset_dark => darkTheme
  end.

End Themes.

(** ** The document: elements, listeners, events

    Elements are objects with identity; they live in a store indexed by
    element identifiers, and components refer to them by identifier, so
    that two references to one element see the same state. *)

Module Dom.

Definition eid := nat.

Record Element := {
  tagName : string;
  (** [classList], in insertion order and without duplicates *)
  classList : list string;
  (** content attributes, [disabled], [type], [name] and the ARIA ones
      among them *)
  attributes : gmap string string;
  (** the declarations of the inline [style] *)
  style : gmap string string;
  (** [.value] of a form control *)
  value : jsstring;
  (** [.checked] of a checkbox or radio input *)
  checked : bool;
  (** the serialised children *)
  innerHTML : jsstring;
  (** the text of the children; the relation between this view and
      [innerHTML] is not modelled *)
  textContent : jsstring
}.

Definition set_classList (l : list string) (el : Element) : Element :=
  {| tagName := tagName el; classList := l; attributes := attributes el;
     style := style el; value := value el; checked := checked el;
     innerHTML := innerHTML el; textContent := textContent el |}.

Definition set_attributes (a : gmap string string) (el : Element) : Element :=
  {| tagName := tagName el; classList := classList el; attributes := a;
     style := style el; value := value el; checked := checked el;
     innerHTML := innerHTML el; textContent := textContent el |}.

Definition set_style (st : gmap string string) (el : Element) : Element :=
  {| tagName := tagName el; classList := classList el;
     attributes := attributes el; style := st; value := value el;
     checked := checked el; innerHTML := innerHTML el;
     textContent := textContent el |}.

Definition set_value (v : jsstring) (el : Element) : Element :=
  {| tagName := tagName el; classList := classList el;
     attributes := attributes el; style := style el; value := v;
     checked := checked el; innerHTML := innerHTML el;
     textContent := textContent el |}.

Definition set_checked_flag (b : bool) (el : Element) : Element :=
  {| tagName := tagName el; classList := classList el;
     attributes := attributes el; style := style el; value := value el;
     checked := b; innerHTML := innerHTML el; textContent := textContent el |}.

Definition set_innerHTML (h : jsstring) (el : Element) : Element :=
  {| tagName := tagName el; classList := classList el;
     attributes := attributes el; style := style el; value := value el;
     checked := checked el; innerHTML := h; textContent := textContent el |}.

(** [DOMTokenList.add(token)] and [DOMTokenList.remove(token)] validate
    the token before they touch the list: the empty string is a
    [SyntaxError], a token that contains ASCII white space (tab, line
    feed, form feed, carriage return, space) an
    [InvalidCharacterError]. *)
Definition is_ascii_whitespace (a : ascii) : bool :=
  bool_decide (nat_of_ascii a ∈ [9; 10; 12; 13; 32]%nat).

Definition validate_token (token : string) : option Exception :=
  if bool_decide (token = "") then Some SyntaxError
  else if existsb is_ascii_whitespace (list_ascii_of_string token)
       then Some InvalidCharacterError
       else None.

(** What [el.classList.add(cls)] does to the list, for a token that
    passed the validation (the tokens the source writes out itself,
    [np-component] and the like, all pass; where the token comes from a
    configuration, the call is [Page.classList_call]). *)
Definition classList_add (cls : string) (el : Element) : Element :=
  if bool_decide (cls ∈ classList el) then el
  else set_classList (classList el ++ [cls]) el.

(** What [el.classList.remove(cls)] does to the list, for a token that
    passed the validation. *)
Definition classList_remove (cls : string) (el : Element) : Element :=
  set_classList (filter (fun x => x ≠ cls) (classList el)) el.

(** [el.setAttribute(name, v)] and [el.removeAttribute(name)] *)
Definition setAttribute (name v : string) (el : Element) : Element :=
  set_attributes (<[name := v]> (attributes el)) el.
Definition removeAttribute (name : string) (el : Element) : Element :=
  set_attributes (delete name (attributes el)) el.

(** [el.style.setProperty(prop, v)], also the effect of [el.style.x = v] *)
Definition setProperty (prop v : string) (el : Element) : Element :=
  set_style (<[prop := v]> (style el)) el.

(** The [disabled] property of a button or input reflects the content
    attribute of that name. *)
Definition get_disabled (el : Element) : bool :=
  bool_decide (is_Some (attributes el !! "disabled")).
Definition set_disabled (b : bool) (el : Element) : Element :=
  if b then setAttribute "disabled" "" el else removeAttribute "disabled" el.

(** [el.style.prop = v]; assigning the empty string removes the
    declaration. *)
Definition assign_style (prop v : string) (el : Element) : Element :=
  if bool_decide (v = "") then set_style (delete prop (style el)) el
  else setProperty prop v el.

(** The store of elements.  Every identifier denotes an element; the
    ones no component or listener refers to play no part. *)
Definition Store := eid -> Element.

Definition update (e : eid) (f : Element -> Element) (d : Store) : Store :=
  fun k => if decide (k = e) then f (d k) else d k.

(** [src/utils]: [addClassName] prefixes the class with [np-]. *)
Definition addClassName (className : string) (el : Element) : Element :=
  classList_add ("np-" +:+ className) el.

(** [instanceof HTMLInputElement | HTMLTextAreaElement | HTMLSelectElement] *)
Definition is_form_control (el : Element) : bool :=
  bool_decide (tagName el ∈ ["input"; "textarea"; "select"]).

(** [src/utils]: [getElementValue], also the private method of the same
    name of the validation manager *)
Definition getElementValue (el : Element) : jsstring :=
  if is_form_control el then value el else textContent el.

End Dom.

(** ** The page: element store, theme store, listeners, event log *)

Module Page.

Import Themes Dom.

(** A registered listener.  Handlers are closures over the component
    that registered them; a closure is represented by the identifier of
    that component (its index in the instance heap) and by what it does.
    [id] distinguishes two registrations of the same code.
    - [ThemeListener]: the handler of [np:theme-change] that
      [BaseComponent.bindEvents] registers on [window].
    - [NodeListener]: a handler registered on an element, for the event
      [type]; [label] names the handler in the source. *)
Inductive Listener :=
| ThemeListener (id owner : nat)
| NodeListener (id owner : nat) (node : eid) (type : string) (label : string).

#[export] Instance Listener_eq_dec : EqDecision Listener.
Proof. solve_decision. Defined.

(** The component whose code a listener runs. *)
Definition listener_owner (l : Listener) : nat :=
  match l with
  | ThemeListener _ owner => owner
  | NodeListener _ owner _ _ _ => owner
  end.

Inductive Target := Window | Node (e : eid).

(** The [detail] of a custom event (the [instance] entry, which is the
    emitting component itself, is left out). *)
Inductive Detail :=
| NoDetail
| ThemeDetail (theme : NeumorphicTheme)
| ValueDetail (v : jsstring)
| ValidationDetail (result : Validators.ValidationResult) (v : jsstring)
| LoadingDetail (loading : bool)
| ChangeDetail (isChecked : bool) (v : jsstring).

(** What an observer outside the library can see happen: events, console
    warnings, and calls made on the observer's behalf.  [Unlisten]
    records a call of [removeEventListener]. *)
Inductive Effect :=
| Dispatch (target : Target) (type : string) (detail : Detail)
| Warn (message : string)
| Unlisten (l : Listener)
| Callback (owner : nat) (name : string) (arg : bool).

(** The error node that the validation manager creates for an element.
    The manager reaches it through its map [errorElements]; its place in
    the tree (it is inserted after the element, into the parent of the
    element) and what the serialised content of that parent shows of it
    are not modelled. *)
Record ErrorElement := {
  error_textContent : jsstring;
  error_display : string
}.

(** The two maps of [ValidationManager]. *)
Record ValidationManager := {
  validationState : gmap eid Validators.ValidationResult;
  errorElements : gmap eid ErrorElement
}.

Record Page := {
  dom : Store;
  (** [currentTheme] of [src/themes] *)
  currentTheme : NeumorphicTheme;
  (** the custom properties of the document root, represented by the
      theme [applyCSSProperties] computed them from *)
  root_css : NeumorphicTheme;
  (** every registered listener, in registration order *)
  listeners : list Listener;
  next_listener : nat;
  (** [globalValidationManager] *)
  manager : ValidationManager;
  (** identifiers of the style sheets injected into [document.head] *)
  head_styles : list string;
  log : list Effect
}.

Definition set_dom (d : Store) (p : Page) : Page :=
  {| dom := d; currentTheme := currentTheme p; root_css := root_css p;
     listeners := listeners p; next_listener := next_listener p;
     manager := manager p; head_styles := head_styles p; log := log p |}.

Definition set_theme_store (t : NeumorphicTheme) (p : Page) : Page :=
  {| dom := dom p; currentTheme := t; root_css := t;
     listeners := listeners p; next_listener := next_listener p;
     manager := manager p; head_styles := head_styles p; log := log p |}.

Definition set_listeners (ls : list Listener) (n : nat) (p : Page) : Page :=
  {| dom := dom p; currentTheme := currentTheme p; root_css := root_css p;
     listeners := ls; next_listener := n;
     manager := manager p; head_styles := head_styles p; log := log p |}.

Definition set_manager (m : ValidationManager) (p : Page) : Page :=
  {| dom := dom p; currentTheme := currentTheme p; root_css := root_css p;
     listeners := listeners p; next_listener := next_listener p;
     manager := m; head_styles := head_styles p; log := log p |}.

Definition set_head_styles (hs : list string) (p : Page) : Page :=
  {| dom := dom p; currentTheme := currentTheme p; root_css := root_css p;
     listeners := listeners p; next_listener := next_listener p;
     manager := manager p; head_styles := hs; log := log p |}.

Definition record (e : Effect) (p : Page) : Page :=
  {| dom := dom p; currentTheme := currentTheme p; root_css := root_css p;
     listeners := listeners p; next_listener := next_listener p;
     manager := manager p; head_styles := head_styles p;
     log := log p ++ [e] |}.

(** A mutation of one element of the page. *)
Definition on_element (e : eid) (f : Element -> Element) (p : Page) : Page :=
  set_dom (update e f (dom p)) p.

(** [el.classList.add(token)] or [el.classList.remove(token)] with a
    token taken from a configuration: [change] is [classList_add] or
    [classList_remove]. *)
Definition classList_call (change : string -> Element -> Element) (e : eid)
    (token : string) (p : Page) : Outcome Page :=
  match validate_token token with
  | Some exception => Thrown exception p
  | None => Done (on_element e (change token) p)
  end.

(** [getCurrentTheme()] *)
Definition getCurrentTheme (p : Page) : NeumorphicTheme := currentTheme p.

(** [target.removeEventListener(type, handler)] *)
Definition removeEventListener (l : Listener) (p : Page) : Page :=
  record (Unlisten l)
    (set_listeners (filter (fun x => x ≠ l) (listeners p)) (next_listener p) p).

(** Adds a style sheet to the head unless one with this id exists. *)
Definition ensure_head_style (id : string) (p : Page) : Page :=
  if bool_decide (id ∈ head_styles p) then p
  else set_head_styles (head_styles p ++ [id]) p.

End Page.

(** ** src/validators: the validation manager *)

Module ValidationManager.

Import Dom Page Validators.

Definition set_validationState (m : gmap eid ValidationResult)
    (vm : Page.ValidationManager) : Page.ValidationManager :=
  {| validationState := m; errorElements := errorElements vm |}.

Definition set_errorElements (m : gmap eid ErrorElement)
    (vm : Page.ValidationManager) : Page.ValidationManager :=
  {| validationState := validationState vm; errorElements := m |}.

(** [removeErrorDisplay]: hides and empties the error node, if any. *)
Definition removeErrorDisplay (element : eid) (p : Page) : Page :=
  match errorElements (manager p) !! element with
  | Some _ =>
      set_manager
        (set_errorElements
           (<[element := {| error_textContent := []; error_display := "none" |}]>
              (errorElements (manager p)))
           (manager p)) p
  | None => p
  end.

(** [showErrorDisplay]: creates the error node on first use, then sets
    its text and shows it. *)
Definition showErrorDisplay (element : eid) (errorMessage : jsstring)
    (p : Page) : Page :=
  set_manager
    (set_errorElements
       (<[element := {| error_textContent := errorMessage;
                        error_display := "block" |}]>
          (errorElements (manager p)))
       (manager p)) p.

Definition updateErrorDisplay (element : eid) (result : ValidationResult)
    (p : Page) : Page :=
  if isValid result
  then on_element element (classList_remove "np-error")
         (removeErrorDisplay element p)
  else on_element element (classList_add "np-error")
         (showErrorDisplay element (default [] (errors result !! 0%nat)) p).

(** [validate(element, config)] *)
Definition validate (element : eid) (config : RuleSet) (p : Page)
    : ValidationResult * Page :=
  let value := getElementValue (dom p element) in
  let result := validateValue value config in
  let p := set_manager
             (set_validationState
                (<[element := result]> (validationState (manager p)))
                (manager p)) p in
  (result, updateErrorDisplay element result p).

(** [clearValidation(element)] *)
Definition clearValidation (element : eid) (p : Page) : Page :=
  let p := set_manager
             (set_validationState
                (delete element (validationState (manager p)))
                (manager p)) p in
  removeErrorDisplay element p.

(** [getValidationState(element)] *)
Definition getValidationState (element : eid) (p : Page)
    : option ValidationResult :=
  validationState (manager p) !! element.

(** [isValid(element)]: an element that was never validated counts as
    valid. *)
Definition isValid (element : eid) (p : Page) : bool :=
  match validationState (manager p) !! element with
  | Some state => Validators.isValid state
  | None => true
  end.

(** [destroy()]: the error nodes are taken out of the document and both
    maps are cleared. *)
Definition destroy (p : Page) : Page :=
  set_manager {| validationState := ∅; errorElements := ∅ |} p.

End ValidationManager.

(** ** src/components/base: BaseComponent *)

Module Base.

Import Themes Dom Page.

(** [BaseComponentConfig]; an absent key and [undefined] are both [None]. *)
Record BaseComponentConfig := {
  theme : option ThemeRef;
  className : option string;
  disabled : option bool
}.

Definition no_config : BaseComponentConfig :=
  {| theme := None; className := None; disabled := None |}.

(** [{ ...old, ...new }] on the keys of the base configuration *)
Definition merge_config (old new : BaseComponentConfig) : BaseComponentConfig :=
  {| theme := match theme new with Some t => Some t | None => theme old end;
     className := match className new with Some x => Some x | None => className old end;
     disabled := match disabled new with Some b => Some b | None => disabled old end |}.

(** The fields of [BaseComponent], with the fields a subclass adds in
    [widget]. *)
Record Component (W : Type) := {
  _element : eid;
  _config : BaseComponentConfig;
  _theme : NeumorphicTheme;
  _listeners : list Listener;
  _destroyed : bool;
  widget : W
}.
Arguments _element {W} c.
Arguments _config {W} c.
Arguments _theme {W} c.
Arguments _listeners {W} c.
Arguments _destroyed {W} c.
Arguments widget {W} c.

Inductive Variant := raised | inset | flat.

#[export] Instance Variant_eq_dec : EqDecision Variant.
Proof. solve_decision. Defined.

Section Methods.

Context {W : Type}.

Definition set_config (cfg : BaseComponentConfig) (c : Component W) : Component W :=
  {| _element := _element c; _config := cfg; _theme := _theme c;
     _listeners := _listeners c; _destroyed := _destroyed c; widget := widget c |}.

Definition set_theme (t : NeumorphicTheme) (c : Component W) : Component W :=
  {| _element := _element c; _config := _config c; _theme := t;
     _listeners := _listeners c; _destroyed := _destroyed c; widget := widget c |}.

Definition set_own_listeners (ls : list Listener) (c : Component W) : Component W :=
  {| _element := _element c; _config := _config c; _theme := _theme c;
     _listeners := ls; _destroyed := _destroyed c; widget := widget c |}.

Definition set_destroyed (b : bool) (c : Component W) : Component W :=
  {| _element := _element c; _config := _config c; _theme := _theme c;
     _listeners := _listeners c; _destroyed := b; widget := widget c |}.

Definition set_widget (w : W) (c : Component W) : Component W :=
  {| _element := _element c; _config := _config c; _theme := _theme c;
     _listeners := _listeners c; _destroyed := _destroyed c; widget := w |}.

(** [typeof this._config.theme === 'string'] *)
Definition theme_is_preset (cfg : BaseComponentConfig) : bool :=
  match theme cfg with
  | Some (Preset _) => true
  | _ => false
  end.

(** Truthiness of [this._config.className]. *)
Definition truthy_className (cfg : BaseComponentConfig) : option string :=
  match className cfg with
  | Some "" => None
  | o => o
  end.

(** [this.addEventListener(target, type, handler)]: registers on the
    target and remembers the registration in [_listeners]. *)
Definition addThemeListener (self : nat) (c : Component W) (p : Page)
    : Component W * Page :=
  let l := ThemeListener (next_listener p) self in
  (set_own_listeners (_listeners c ++ [l]) c,
   set_listeners (listeners p ++ [l]) (S (next_listener p)) p).

Definition addNodeListener (self : nat) (node : eid) (type label : string)
    (c : Component W) (p : Page) : Component W * Page :=
  let l := NodeListener (next_listener p) self node type label in
  (set_own_listeners (_listeners c ++ [l]) c,
   set_listeners (listeners p ++ [l]) (S (next_listener p)) p).

(** [applyNeumorphicStyles(element, styles, theme)] as
    [applyBaseStyles] calls it: the entries of [styles] repeat the base
    entries computed from the same theme. *)
Definition applyNeumorphicStyles (t : NeumorphicTheme) (el : Element) : Element :=
  let transition :=
    "all " +:+ duration (animation t) +:+ " " +:+ easing (animation t) in
  setProperty "outline" "none"
    (setProperty "transition" transition
       (setProperty "border-radius" (borderRadius t)
          (setProperty "border" "none"
             (setProperty "color" (text (colors t))
                (setProperty "background-color" (surface (colors t)) el))))).

(** [applyBaseStyles()]: when the configured class name is not a valid
    token, [classList.add] throws after [np-component] was added and
    before any style is written. *)
Definition applyBaseStyles (c : Component W) (p : Page) : Outcome Page :=
  let p := on_element (_element c) (addClassName "component") p in
  let added := match truthy_className (_config c) with
               | Some cls => classList_call classList_add (_element c) cls p
               | None => Done p
               end in
  match added with
  | Done p => Done (on_element (_element c) (applyNeumorphicStyles (_theme c)) p)
  | Thrown e p => Thrown e p
  end.

(** [onThemeChange()]; no widget overrides it. *)
Definition onThemeChange (c : Component W) (p : Page) : Outcome Page :=
  applyBaseStyles c p.

(** A method that changes the page only, as a method on the instance and
    the page. *)
Definition with_instance (c : Component W) (o : Outcome Page)
    : Outcome (Component W * Page) :=
  match o with
  | Done p => Done (c, p)
  | Thrown e p => Thrown e (c, p)
  end.

(** [setDisabled(disabled)] *)
Definition setDisabled (b : bool) (c : Component W) (p : Page)
    : Component W * Page :=
  let c := set_config {| theme := theme (_config c);
                         className := className (_config c);
                         disabled := Some b |} c in
  (c,
   on_element (_element c)
     (fun el =>
        if b
        then addClassName "disabled"
               (setAttribute "aria-disabled" "true" (setAttribute "disabled" "" el))
        else classList_remove "np-disabled"
               (removeAttribute "aria-disabled" (removeAttribute "disabled" el))) p).

(** [emit(eventName, detail)]: a bubbling custom event on the element *)
Definition emit (eventName : string) (detail : Detail) (c : Component W)
    (p : Page) : Page :=
  record (Dispatch (Node (_element c)) ("np:" +:+ eventName) detail) p.

(** [BaseComponent.bindEvents()] *)
Definition base_bindEvents (self : nat) (c : Component W) (p : Page)
    : Component W * Page :=
  let '(c, p) := addThemeListener self c p in
  if truthy_flag (disabled (_config c)) then setDisabled true c p else (c, p).

(** The handler of [np:theme-change] registered by [bindEvents]. *)
Definition theme_change_handler (c : Component W) (p : Page)
    : Outcome (Component W * Page) :=
  if theme_is_preset (_config c)
  then let c := set_theme (getCurrentTheme p) c in
       with_instance c (onThemeChange c p)
  else Done (c, p).

(** [Math.round] on a rational: the nearest integer, ties upwards. *)
Definition Math_round (x : Q) : Z := Qfloor (x + (1 # 2)).

Definition px (n : Z) : string := NilZero.string_of_int (Z.to_int n) +:+ "px".

Definition shadow_pair (ins : bool) (offset blur spread : Z) (t : NeumorphicTheme)
    : string :=
  let pre := if ins then "inset " else "" in
  pre +:+ px offset +:+ " " +:+ px offset +:+ " " +:+ px blur +:+ " "
      +:+ px spread +:+ " " +:+ dark (shadow (colors t)) +:+ ", "
  +:+ pre +:+ "-" +:+ px offset +:+ " -" +:+ px offset +:+ " " +:+ px blur
      +:+ " " +:+ px spread +:+ " " +:+ light (shadow (colors t)).

(** [createShadowStyle(variant)] *)
Definition createShadowStyle (variant : Variant) (c : Component W) : string :=
  let intensity := shadowIntensity (_theme c) in
  let offset := Math_round (8 * intensity) in
  let blur := Math_round (16 * intensity) in
  let spread := Math_round (-2 * intensity) in
  match variant with
  | raised => shadow_pair false offset blur spread (_theme c)
  | inset => shadow_pair true offset blur spread (_theme c)
  | flat => "none"
  end.

End Methods.

(** What a subclass adds to the methods below: the two hooks [onUpdate]
    and [onDestroy] ([BaseComponent] defines both with an empty body).
    [Config] is the configuration type of the subclass, which extends
    the base configuration.  The cleanup hooks of the widgets work on
    the instance, on elements and on the validation manager only, which
    is what the type of [onDestroy] gives them. *)
Class Widget (W : Type) := {
  Config : Type;
  base_of : Config -> BaseComponentConfig;
  onUpdate : nat -> Config -> Component W -> Page -> Component W * Page;
  onDestroy : Component W -> Store -> ValidationManager
              -> Component W * Store * ValidationManager
}.

(** The instances and the page they live in. *)
Record World (W : Type) := {
  heap : list (Component W);
  page : Page
}.
Arguments heap {W} w.
Arguments page {W} w.

(** The instance with the fields of the subclass assigned. *)
Definition with_fields {V W : Type} (fields : W) (c : Component V) : Component W :=
  {| _element := _element c; _config := _config c; _theme := _theme c;
     _listeners := _listeners c; _destroyed := _destroyed c; widget := fields |}.

(** [new Subclass(element, config)], from [super(element, config)] on.
    The constructor of [BaseComponent] assigns the base fields and calls
    [this.init()] and [this.bindEvents()]; only after it has returned
    does the constructor of the subclass assign the fields of its own.
    So [init] and [bindEvents], the two methods as the subclass defines
    them, run on an instance that has the base fields only
    ([Component unit]): a field of the subclass reads [undefined] there.
    [fields] is what the constructor of the subclass assigns after
    [super(...)].  When [init] or [bindEvents] throws, the exception
    leaves the constructor and the caller gets no instance; what was
    done to the page stays.  The new instance is the last of the heap. *)
Definition construct {W : Type}
    (init bindEvents : nat -> Component unit -> Page
                       -> Outcome (Component unit * Page))
    (fields : Component unit -> Page -> W)
    (element : eid) (config : BaseComponentConfig) (w : World W)
    : Outcome (World W) :=
  let self := length (heap w) in
  let c := {| _element := element;
              _config := config;
              _theme := match theme config with
                        | Some (Custom _ t) => t
                        | _ => getCurrentTheme (page w)
                        end;
              _listeners := [];
              _destroyed := false;
              widget := tt |} in
  match init self c (page w) with
  | Thrown e (_, p) => Thrown e {| heap := heap w; page := p |}
  | Done (c, p) =>
      match bindEvents self c p with
      | Thrown e (_, p) => Thrown e {| heap := heap w; page := p |}
      | Done (c, p) =>
          Done {| heap := heap w ++ [with_fields (fields c p) c]; page := p |}
      end
  end.

Section Lifecycle.

Context {W : Type} `{Widget W}.

(** Runs a method that cannot throw on the instance [self]. *)
Definition call (self : nat)
    (m : Component W -> Page -> Component W * Page) (w : World W) : World W :=
  match heap w !! self with
  | Some c =>
      let '(c', p') := m c (page w) in
      {| heap := <[self := c']> (heap w); page := p' |}
  | None => w
  end.

(** Runs a method on the instance [self]. *)
Definition invoke (self : nat)
    (m : Component W -> Page -> Outcome (Component W * Page)) (w : World W)
    : Outcome (World W) :=
  match heap w !! self with
  | Some c =>
      match m c (page w) with
      | Done (c', p') => Done {| heap := <[self := c']> (heap w); page := p' |}
      | Thrown e (c', p') =>
          Thrown e {| heap := <[self := c']> (heap w); page := p' |}
      end
  | None => Done w
  end.

(** [update(newConfig)] *)
Definition update_method (self : nat) (newConfig : Config) (c : Component W)
    (p : Page) : Outcome (Component W * Page) :=
  if _destroyed c
  then Done (c, record (Warn "Cannot update destroyed component") p)
  else
    let new := base_of newConfig in
    let oldConfig := _config c in
    let c := set_config (merge_config oldConfig new) c in
    (* Update theme if changed *)
    let themed :=
      match theme new with
      | Some t =>
          if negb (same_theme_value (Some t) (theme oldConfig))
          then let c := set_theme match t with
                                  | Preset _ => getCurrentTheme p
                                  | Custom _ t' => t'
                                  end c in
               with_instance c (onThemeChange c p)
          else Done (c, p)
      | None => Done (c, p)
      end in
    match themed with
    | Thrown e s => Thrown e s
    | Done (c, p) =>
        (* Update disabled state if changed *)
        let '(c, p) :=
          match disabled new with
          | Some b =>
              if bool_decide (Some b ≠ disabled oldConfig)
              then setDisabled b c p else (c, p)
          | None => (c, p)
          end in
        (* Update className if changed *)
        let classed :=
          if bool_decide (className new ≠ className oldConfig)
          then
            let removed :=
              match truthy_className oldConfig with
              | Some cls => classList_call classList_remove (_element c) cls p
              | None => Done p
              end in
            match removed with
            | Thrown e p => Thrown e p
            | Done p =>
                match truthy_className new with
                | Some cls => classList_call classList_add (_element c) cls p
                | None => Done p
                end
            end
          else Done p in
        match classed with
        | Thrown e p => Thrown e (c, p)
        | Done p => Done (onUpdate self newConfig c p)
        end
    end.

Definition update (self : nat) (newConfig : Config) (w : World W)
    : Outcome (World W) :=
  invoke self (update_method self newConfig) w.

(** [destroy()] *)
Definition destroy_method (c : Component W) (p : Page)
    : Outcome (Component W * Page) :=
  if _destroyed c then Done (c, p)
  else
    (* Remove all event listeners *)
    let p := foldl (fun p l => removeEventListener l p) p (_listeners c) in
    let c := set_own_listeners [] c in
    (* Remove classes *)
    let p := on_element (_element c) (classList_remove "np-component") p in
    let removed :=
      match truthy_className (_config c) with
      | Some cls => classList_call classList_remove (_element c) cls p
      | None => Done p
      end in
    match removed with
    | Thrown e p => Thrown e (c, p)
    | Done p =>
        (* Emit destroy event *)
        let p := emit "destroy" NoDetail c p in
        (* Perform component-specific cleanup *)
        let '(c, d, m) := onDestroy c (dom p) (manager p) in
        Done (set_destroyed true c, set_manager m (set_dom d p))
    end.

Definition destroy (self : nat) (w : World W) : Outcome (World W) :=
  invoke self destroy_method w.

(** Delivery of [np:theme-change] to one listener registered on
    [window].  An exception thrown by a listener does not leave
    [dispatchEvent]: it is reported, and the next listener runs. *)
Definition deliver_theme_change (l : Listener) (w : World W) : World W :=
  match l with
  | ThemeListener _ owner => state (invoke owner theme_change_handler w)
  | NodeListener _ _ _ _ _ => w
  end.

(** [setTheme(theme)]: replaces the current theme, rewrites the custom
    properties of the root, and dispatches [np:theme-change] on
    [window]; the listeners registered at that moment run in
    registration order before [setTheme] returns. *)
Definition setTheme (t : ThemeRef) (w : World W) : World W :=
  let current := match t with
                 | Preset name => themes name
                 | Custom _ t' => t'
                 end in
  let p := set_theme_store current (page w) in
  let p := record (Dispatch Window "np:theme-change" (ThemeDetail current)) p in
  foldl (fun w l => deliver_theme_change l w)
    {| heap := heap w; page := p |} (listeners p).

(** The instance [self] has its handler of [np:theme-change] registered
    on [window]. *)
Definition subscribed (self : nat) (w : World W) : Prop :=
  exists id, ThemeListener id self ∈ listeners (page w).

(** A live instance: constructed, which subscribed it, and not
    destroyed. *)
Definition live (self : nat) (c : Component W) (w : World W) : Prop :=
  heap w !! self = Some c /\ _destroyed c = false /\ subscribed self w.

(** The inline background colour of an element. *)
Definition backgroundColor (e : eid) (w : World W) : option string :=
  style (dom (page w) e) !! "background-color".

(** The configured class name is one that [classList] takes: none, the
    empty string (which the code skips), or a valid token. *)
Definition className_passes (cfg : BaseComponentConfig) : bool :=
  match truthy_className cfg with
  | Some cls => bool_decide (validate_token cls = None)
  | None => true
  end.

End Lifecycle.


(** A blank element and the page as it is when the library has loaded:
    the light theme is current and nothing is registered. *)
Definition blank (tag : string) : Element :=
  {| tagName := tag; classList := []; attributes := ∅; style := ∅;
     value := []; checked := false; innerHTML := []; textContent := [] |}.

Definition initial_page (d : Store) : Page :=
  {| dom := d; currentTheme := lightTheme; root_css := lightTheme;
     listeners := []; next_listener := 0%nat;
     manager := {| validationState := ∅; errorElements := ∅ |};
     head_styles := []; log := [] |}.

End Base.

(** ** A subclass without fields of its own

    [BaseComponent] is abstract and the package exports it: a program
    that uses it writes a subclass and supplies [init()].  [Plain] is

      class Plain extends BaseComponent {
        protected init(): void { this.applyBaseStyles() }
      }

    It starts as every widget of the library starts, inherits
    [bindEvents], [onUpdate] and [onDestroy], and reads no field of its
    own inside [super(...)]. *)

Module Plain.

Import Themes Dom Page Base.

Definition plain_init (self : nat) (c : Component unit) (p : Page)
    : Outcome (Component unit * Page) :=
  with_instance c (applyBaseStyles c p).

Definition plain_bindEvents (self : nat) (c : Component unit) (p : Page)
    : Outcome (Component unit * Page) :=
  Done (base_bindEvents self c p).

#[export] Instance Plain_widget : Widget unit := {|
  Config := BaseComponentConfig;
  base_of := fun config => config;
  onUpdate := fun _ _ c p => (c, p);
  onDestroy := fun c d m => (c, d, m)
|}.

(** [new Plain(element, config)] *)
Definition new_plain (element : eid) (config : BaseComponentConfig)
    (w : World unit) : Outcome (World unit) :=
  construct plain_init plain_bindEvents (fun _ _ => tt) element config w.

End Plain.

(** ** src/components/card: CardComponent *)

Module Card.

Import Themes Dom Page Base Utils.

(** [CardConfig] *)
Record CardConfig := {
  card_base : BaseComponentConfig;
  variant : option Variant;
  size : option Size;
  padding : option string
}.

(** [_cardConfig], after the defaults [variant: 'raised', size: 'md']
    have been merged under the given configuration. *)
Record CardFields := {
  cfg_variant : Variant;
  cfg_size : Size;
  cfg_padding : option string
}.

Definition card_fields (config : CardConfig) : CardFields :=
  {| cfg_variant := default raised (variant config);
     cfg_size := default md (size config);
     cfg_padding := padding config |}.

Definition variant_name (v : Variant) : string :=
  match v with raised => "raised" | inset => "inset" | flat => "flat" end.

(** Truthiness of an optional string. *)
Definition truthy_string (o : option string) : option string :=
  match o with Some "" => None | _ => o end.

Definition getSizePadding (f : CardFields) : string :=
  getSizeValue (cfg_size f) size_padding.

(** [init()] as [super(element, config)] runs it.  [applyBaseStyles()]
    comes first.  [applyCardStyles()] then adds the class [np-card] and
    reads [this._cardConfig.variant]; the constructor assigns
    [_cardConfig] after [super(...)], so the read is a [TypeError], and
    the rest of [applyCardStyles()] is not reached. *)
Definition card_init (self : nat) (c : Component unit) (p : Page)
    : Outcome (Component unit * Page) :=
  match applyBaseStyles c p with
  | Thrown e p => Thrown e (c, p)
  | Done p =>
      (* applyCardStyles() *)
      let p := on_element (_element c) (addClassName "card") p in
      Thrown TypeError (c, p)
  end.

(** [bindEvents()] is the one of [BaseComponent]. *)
Definition card_bindEvents (self : nat) (c : Component unit) (p : Page)
    : Outcome (Component unit * Page) :=
  Done (base_bindEvents self c p).

(** [onUpdate(newConfig)] *)
Definition card_onUpdate (self : nat) (newConfig : CardConfig)
    (c : Component CardFields) (p : Page) : Component CardFields * Page :=
  let old := widget c in
  let f := {| cfg_variant := default (cfg_variant old) (variant newConfig);
              cfg_size := default (cfg_size old) (size newConfig);
              cfg_padding := match padding newConfig with
                             | Some x => Some x
                             | None => cfg_padding old
                             end |} in
  let c := set_widget f c in
  let p :=
    match variant newConfig with
    | Some v =>
        if bool_decide (v ≠ cfg_variant old)
        then on_element (_element c)
               (fun el =>
                  assign_style "box-shadow" (createShadowStyle v c)
                    (addClassName ("card-" +:+ variant_name v)
                       (classList_remove
                          ("np-card-" +:+ variant_name (cfg_variant old)) el))) p
        else p
    | None => p
    end in
  let p :=
    match size newConfig with
    | Some sz =>
        if bool_decide (sz ≠ cfg_size old)
        then on_element (_element c)
               (fun el =>
                  assign_style "padding"
                    (default (getSizePadding f) (truthy_string (padding newConfig)))
                    (addClassName ("card-" +:+ size_name sz)
                       (classList_remove
                          ("np-card-" +:+ size_name (cfg_size old)) el))) p
        else p
    | None => p
    end in
  let p :=
    match truthy_string (padding newConfig) with
    | Some pad =>
        if bool_decide (Some pad ≠ cfg_padding old)
        then on_element (_element c) (assign_style "padding" pad) p
        else p
    | None => p
    end in
  (c, p).

#[export] Instance Card_widget : Widget CardFields := {|
  Config := CardConfig;
  base_of := card_base;
  onUpdate := card_onUpdate;
  onDestroy := fun c d m => (c, d, m)
|}.

(** [new CardComponent(element, config)], also [card(element, config)] *)
Definition new_card (element : eid) (config : CardConfig)
    (w : World CardFields) : Outcome (World CardFields) :=
  construct card_init card_bindEvents (fun _ _ => card_fields config)
    element (card_base config) w.

(** [setVariant(variant)], [setSize(size)], [setPadding(padding)]:
    [this.update({ ... })] with the one entry. *)
Definition setVariant (self : nat) (v : Variant) (w : World CardFields)
    : Outcome (World CardFields) :=
  update self {| card_base := no_config; variant := Some v; size := None;
                 padding := None |} w.

Definition setSize (self : nat) (sz : Size) (w : World CardFields)
    : Outcome (World CardFields) :=
  update self {| card_base := no_config; variant := None; size := Some sz;
                 padding := None |} w.

Definition setPadding (self : nat) (pad : string) (w : World CardFields)
    : Outcome (World CardFields) :=
  update self {| card_base := no_config; variant := None; size := None;
                 padding := Some pad |} w.

(** [getVariant()], [getSize()]; [None] when there is no such instance. *)
Definition getVariant (self : nat) (w : World CardFields) : option Variant :=
  (fun c => cfg_variant (widget c)) <$> heap w !! self.

Definition getSize (self : nat) (w : World CardFields) : option Size :=
  (fun c => cfg_size (widget c)) <$> heap w !! self.

End Card.

(** ** src/components/button: ButtonComponent *)

Module Button.

Import Themes Dom Page Base Utils.

Inductive ButtonVariant := primary | secondary | ghost.

(** [_buttonConfig], after the defaults [variant: 'primary', size: 'md',
    loading: false] have been merged under the given configuration;
    [cfg_onClick] tells whether a click callback is configured. *)
Record ButtonConfig := {
  cfg_variant : ButtonVariant;
  cfg_size : Size;
  cfg_loading : bool;
  cfg_onClick : bool
}.

Record ButtonFields := {
  _buttonConfig : ButtonConfig;
  (** the spinner element, while loading *)
  _loadingSpinner : option Element;
  (** the [innerHTML] saved by [setLoading(true)] *)
  _originalContent : option jsstring
}.

Definition quoted (s : string) : jsstring := [34%N] ++ lit s ++ [34%N].

(** [createLoadingSpinner()]: a [span] with the spinner class and its
    inline style. *)
Definition spinner_element : Element :=
  setProperty "animation" "np-spin 1s linear infinite"
    (setProperty "border-radius" "50%"
       (setProperty "border-top" "2px solid currentColor"
          (setProperty "border" "2px solid transparent"
             (setProperty "height" "16px"
                (setProperty "width" "16px"
                   (setProperty "display" "inline-block"
                      (classList_add "np-loading-spinner" (blank "span")))))))).

(** The serialisation of the spinner inside [innerHTML].  (A browser
    normalises the text of the style attribute; nothing below depends on
    it.) *)
Definition spinner_markup : jsstring :=
  lit "<span class=" ++ quoted "np-loading-spinner" ++ lit " style="
    ++ quoted ("display: inline-block; width: 16px; height: 16px; "
               +:+ "border: 2px solid transparent; "
               +:+ "border-top: 2px solid currentColor; "
               +:+ "border-radius: 50%; "
               +:+ "animation: np-spin 1s linear infinite;")
    ++ lit "></span>".

(** The serialisation of the [span] holding the loading text. *)
Definition loading_text_markup : jsstring := lit "<span>Loading...</span>".

(** [el.appendChild(child)], on the serialised children *)
Definition appendChild (child_markup : jsstring) (el : Element) : Element :=
  set_innerHTML (innerHTML el ++ child_markup) el.

Definition set_buttonConfig (b : ButtonConfig) (f : ButtonFields) : ButtonFields :=
  {| _buttonConfig := b; _loadingSpinner := _loadingSpinner f;
     _originalContent := _originalContent f |}.

Definition set_loading (b : bool) (f : ButtonFields) : ButtonFields :=
  set_buttonConfig
    {| cfg_variant := cfg_variant (_buttonConfig f);
       cfg_size := cfg_size (_buttonConfig f);
       cfg_loading := b;
       cfg_onClick := cfg_onClick (_buttonConfig f) |} f.

(** [setLoading(loading)] *)
Definition setLoading (loading : bool) (c : Component ButtonFields) (p : Page)
    : Component ButtonFields * Page :=
  let c := set_widget (set_loading loading (widget c)) c in
  let '(c, p) :=
    if loading then
      (* Store original content *)
      let c := set_widget
                 {| _buttonConfig := _buttonConfig (widget c);
                    _loadingSpinner := _loadingSpinner (widget c);
                    _originalContent := Some (innerHTML (dom p (_element c))) |} c in
      (* Disable button *)
      let p := on_element (_element c)
                 (fun el => assign_style "opacity" "0.7"
                              (assign_style "cursor" "not-allowed"
                                 (set_disabled true el))) p in
      (* Add loading spinner *)
      let p := ensure_head_style "np-spinner-keyframes" p in
      let c := set_widget
                 {| _buttonConfig := _buttonConfig (widget c);
                    _loadingSpinner := Some spinner_element;
                    _originalContent := _originalContent (widget c) |} c in
      let p := on_element (_element c)
                 (fun el => addClassName "loading"
                              (appendChild loading_text_markup
                                 (appendChild spinner_markup
                                    (set_innerHTML [] el)))) p in
      (c, p)
    else
      (* Restore original content *)
      let p := if truthy (_originalContent (widget c))
               then on_element (_element c)
                      (set_innerHTML (default [] (_originalContent (widget c)))) p
               else p in
      (* Re-enable button *)
      let disabled := truthy_flag (disabled (_config c)) in
      let p := on_element (_element c)
                 (fun el => assign_style "opacity" (if disabled then "0.5" else "1")
                              (assign_style "cursor"
                                 (if disabled then "not-allowed" else "pointer")
                                 (set_disabled disabled el))) p in
      (* Remove loading spinner *)
      let c := set_widget
                 {| _buttonConfig := _buttonConfig (widget c);
                    _loadingSpinner := None;
                    _originalContent := _originalContent (widget c) |} c in
      let p := on_element (_element c) (classList_remove "np-loading") p in
      (c, p) in
  (c, emit "loading-change" (LoadingDetail loading) c p).

(** What the button shows while loading. *)
Definition loading_content : jsstring := spinner_markup ++ loading_text_markup.

(** The content of the button's element and whether the control is
    disabled. *)
Definition content (c : Component ButtonFields) (p : Page) : jsstring :=
  innerHTML (dom p (_element c)).
Definition is_disabled (c : Component ButtonFields) (p : Page) : bool :=
  get_disabled (dom p (_element c)).

(** *** The rest of the class: construction, [update] and [destroy] *)

(** [Partial<ButtonConfig>], as the constructor and [update] receive
    it; [onClick] tells whether a callback is given.  (The [icon] entry
    of the type is read nowhere.) *)
Record ButtonOptions := {
  button_base : BaseComponentConfig;
  variant : option ButtonVariant;
  size : option Size;
  loading : option bool;
  onClick : bool
}.

Definition variant_name (v : ButtonVariant) : string :=
  match v with primary => "primary" | secondary => "secondary" | ghost => "ghost" end.

#[export] Instance ButtonVariant_eq_dec : EqDecision ButtonVariant.
Proof. solve_decision. Defined.

(** The fields of a new instance: the defaults [variant: 'primary',
    size: 'md', loading: false] under the given configuration. *)
Definition button_fields (o : ButtonOptions) : ButtonFields :=
  {| _buttonConfig := {| cfg_variant := default primary (variant o);
                         cfg_size := default md (size o);
                         cfg_loading := default false (loading o);
                         cfg_onClick := onClick o |};
     _loadingSpinner := None;
     _originalContent := None |}.

(** [applyVariantStyles()] *)
Definition applyVariantStyles (c : Component ButtonFields) (p : Page) : Page :=
  on_element (_element c)
    (fun el =>
       match cfg_variant (_buttonConfig (widget c)) with
       | primary =>
           assign_style "box-shadow" (createShadowStyle raised c)
             (assign_style "color" "#ffffff"
                (assign_style "background-color" (accent (colors (_theme c))) el))
       | secondary =>
           assign_style "box-shadow" (createShadowStyle raised c)
             (assign_style "color" (text (colors (_theme c)))
                (assign_style "background-color" (surface (colors (_theme c))) el))
       | ghost =>
           assign_style "box-shadow" "none"
             (assign_style "color" (text (colors (_theme c)))
                (assign_style "background-color" "transparent" el))
       end) p.

(** [applySizeStyles()] *)
Definition applySizeStyles (c : Component ButtonFields) (p : Page) : Page :=
  let sz := cfg_size (_buttonConfig (widget c)) in
  on_element (_element c)
    (fun el =>
       assign_style "min-height" (getSizeValue sz size_height)
         (assign_style "font-size" (getSizeValue sz size_fontSize)
            (assign_style "padding" (getSizeValue sz size_padding) el))) p.

(** [setupInteractions()]: six listeners on the element *)
Definition setupInteractions (self : nat) (c : Component ButtonFields) (p : Page)
    : Component ButtonFields * Page :=
  let '(c, p) := addNodeListener self (_element c) "mouseenter" "button:hover" c p in
  let '(c, p) := addNodeListener self (_element c) "mouseleave" "button:leave" c p in
  let '(c, p) := addNodeListener self (_element c) "mousedown" "button:press" c p in
  let '(c, p) := addNodeListener self (_element c) "mouseup" "button:release" c p in
  let '(c, p) := addNodeListener self (_element c) "focus" "button:focus" c p in
  addNodeListener self (_element c) "blur" "button:blur" c p.

(** [init()] as [super(element, config)] runs it.  [applyBaseStyles()]
    comes first.  [applyButtonStyles()] then adds the class [np-button]
    and reads [this._buttonConfig.variant]; the constructor assigns
    [_buttonConfig] after [super(...)], so the read is a [TypeError],
    and neither the rest of [applyButtonStyles()] nor
    [setupInteractions()] is reached. *)
Definition button_init (self : nat) (c : Component unit) (p : Page)
    : Outcome (Component unit * Page) :=
  match applyBaseStyles c p with
  | Thrown e p => Thrown e (c, p)
  | Done p =>
      (* applyButtonStyles() *)
      let p := on_element (_element c) (addClassName "button") p in
      Thrown TypeError (c, p)
  end.

(** [bindEvents()]: the one of [BaseComponent], then the click and the
    keyboard handler. *)
Definition button_bindEvents (self : nat) (c : Component unit) (p : Page)
    : Outcome (Component unit * Page) :=
  let '(c, p) := base_bindEvents self c p in
  let '(c, p) := addNodeListener self (_element c) "click" "button:click" c p in
  Done (addNodeListener self (_element c) "keydown" "button:keydown" c p).

(** [onUpdate(newConfig)] *)
Definition button_onUpdate (self : nat) (newConfig : ButtonOptions)
    (c : Component ButtonFields) (p : Page) : Component ButtonFields * Page :=
  let old := _buttonConfig (widget c) in
  let c := set_widget
             (set_buttonConfig
                {| cfg_variant := default (cfg_variant old) (variant newConfig);
                   cfg_size := default (cfg_size old) (size newConfig);
                   cfg_loading := default (cfg_loading old) (loading newConfig);
                   cfg_onClick := onClick newConfig || cfg_onClick old |}
                (widget c)) c in
  (* Update variant if changed *)
  let '(c, p) :=
    match variant newConfig with
    | Some v =>
        if bool_decide (v ≠ cfg_variant old)
        then
          let p := on_element (_element c)
                     (fun el =>
                        addClassName ("button-" +:+ variant_name v)
                          (classList_remove
                             ("np-button-" +:+ variant_name (cfg_variant old)) el)) p in
          setupInteractions self c (applyVariantStyles c p)
        else (c, p)
    | None => (c, p)
    end in
  (* Update size if changed *)
  let p :=
    match size newConfig with
    | Some sz =>
        if bool_decide (sz ≠ cfg_size old)
        then
          let p := on_element (_element c)
                     (fun el =>
                        addClassName ("button-" +:+ size_name sz)
                          (classList_remove
                             ("np-button-" +:+ size_name (cfg_size old)) el)) p in
          applySizeStyles c p
        else p
    | None => p
    end in
  (* Update loading state if changed *)
  if bool_decide (loading newConfig ≠ Some (cfg_loading old))
  then setLoading (default false (loading newConfig)) c p
  else (c, p).

(** [onDestroy()] *)
Definition button_onDestroy (c : Component ButtonFields) (d : Store)
    (m : ValidationManager) : Component ButtonFields * Store * ValidationManager :=
  if cfg_loading (_buttonConfig (widget c)) && truthy (_originalContent (widget c))
  then (c,
        Dom.update (_element c)
          (set_innerHTML (default [] (_originalContent (widget c)))) d,
        m)
  else (c, d, m).

#[export] Instance Button_widget : Widget ButtonFields := {|
  Config := ButtonOptions;
  base_of := button_base;
  onUpdate := button_onUpdate;
  onDestroy := button_onDestroy
|}.

(** [element instanceof HTMLButtonElement] *)
Definition is_button (el : Element) : bool := bool_decide (tagName el = "button").

(** [new ButtonComponent(element, config)], also
    [button(element, config)]: the guard, then [super(element, config)],
    then the assignment of [_buttonConfig]. *)
Definition new_button (element : eid) (config : ButtonOptions)
    (w : World ButtonFields) : Outcome (World ButtonFields) :=
  if negb (is_button (dom (page w) element)) then Thrown Error w
  else construct button_init button_bindEvents (fun _ _ => button_fields config)
         element (button_base config) w.

(** [setVariant(variant)] and [setSize(size)] *)
Definition setVariant (self : nat) (v : ButtonVariant) (w : World ButtonFields)
    : Outcome (World ButtonFields) :=
  update self {| button_base := no_config; variant := Some v; size := None;
                 loading := None; onClick := false |} w.

Definition setSize (self : nat) (sz : Size) (w : World ButtonFields)
    : Outcome (World ButtonFields) :=
  update self {| button_base := no_config; variant := None; size := Some sz;
                 loading := None; onClick := false |} w.

End Button.

(** ** src/components/input: InputComponent *)

Module Input.

Import Themes Dom Page Base Validators.

Inductive ValidateOn := on_blur | on_change | on_submit.

(** [InputConfig] *)
Record InputConfig := {
  input_base : BaseComponentConfig;
  validate_rules : option RuleSet;
  placeholder : option string;
  errorMessage : option string;
  showValidation : option bool;
  validateOn : option ValidateOn
}.

(** [_inputConfig], after the defaults [validateOn: 'blur',
    showValidation: true] have been merged under the given
    configuration, and [_validationResult].  (The debounced validator
    holds a timer only and is left out.) *)
Record InputFields := {
  cfg_validate : option RuleSet;
  cfg_placeholder : option string;
  cfg_errorMessage : option string;
  cfg_showValidation : bool;
  cfg_validateOn : ValidateOn;
  _validationResult : option ValidationResult
}.

Definition input_fields (config : InputConfig) : InputFields :=
  {| cfg_validate := validate_rules config;
     cfg_placeholder := placeholder config;
     cfg_errorMessage := errorMessage config;
     cfg_showValidation := default true (showValidation config);
     cfg_validateOn := default on_blur (validateOn config);
     _validationResult := None |}.

Definition set_validationResult (r : option ValidationResult) (f : InputFields)
    : InputFields :=
  {| cfg_validate := cfg_validate f; cfg_placeholder := cfg_placeholder f;
     cfg_errorMessage := cfg_errorMessage f;
     cfg_showValidation := cfg_showValidation f;
     cfg_validateOn := cfg_validateOn f; _validationResult := r |}.

Section Methods.

(** The methods below are inherited by [PasswordComponent]; [W] is the
    type of the fields of the class at hand and [fields] finds the fields
    of [InputComponent] among them. *)
Context {W : Type} (fields : W -> InputFields)
  (with_fields : InputFields -> W -> W).

(** [getValue()] *)
Definition getValue (c : Component W) (p : Page) : jsstring :=
  getElementValue (dom p (_element c)).

(** [updateValidationState()] *)
Definition updateValidationState (c : Component W) (p : Page) : Page :=
  match _validationResult (fields (widget c)) with
  | None => p
  | Some r =>
      on_element (_element c)
        (fun el =>
           let el := setAttribute "aria-invalid"
                       (if isValid r then "false" else "true") el in
           if isValid r
           then assign_style "box-shadow" (createShadowStyle inset c)
                  (classList_remove "np-error" el)
           else assign_style "box-shadow"
                  (createShadowStyle inset c +:+ ", 0 0 0 2px "
                     +:+ error (colors (_theme c)) +:+ "40")
                  (addClassName "error" el)) p
  end.

(** [performValidation()]; [None] is the [undefined] of the early
    return. *)
Definition performValidation (c : Component W) (p : Page)
    : option ValidationResult * Component W * Page :=
  match cfg_validate (fields (widget c)) with
  | None => (None, c, p)
  | Some rules =>
      if negb (cfg_showValidation (fields (widget c))) then (None, c, p)
      else
        let value := getValue c p in
        let result := validateValue value rules in
        let c := set_widget
                   (with_fields
                      (set_validationResult (Some result) (fields (widget c)))
                      (widget c)) c in
        (* Update global validation manager *)
        let '(_, p) := ValidationManager.validate (_element c) rules p in
        (* Update visual state *)
        let p := updateValidationState c p in
        (* Emit validation event *)
        let p := emit "validation" (ValidationDetail result value) c p in
        (_validationResult (fields (widget c)), c, p)
  end.

(** [validate()]: [performValidation() || { isValid: true, errors: [] }] *)
Definition validate (c : Component W) (p : Page)
    : ValidationResult * Component W * Page :=
  let '(r, c, p) := performValidation c p in
  (default {| isValid := true; errors := [] |} r, c, p).

(** [getValidationResult()] *)
Definition getValidationResult (c : Component W) : option ValidationResult :=
  _validationResult (fields (widget c)).

End Methods.

(** The methods on an [InputComponent] itself. *)
Definition input_validate :=
  validate (W := InputFields) (fun f => f) (fun f _ => f).

Section StateMethods.

Context {W : Type} (fields : W -> InputFields)
  (with_fields : InputFields -> W -> W).

(** [clearErrors()] *)
Definition clearErrors (c : Component W) (p : Page) : Component W * Page :=
  let c := set_widget
             (with_fields (set_validationResult None (fields (widget c)))
                (widget c)) c in
  let p := ValidationManager.clearValidation (_element c) p in
  let p := on_element (_element c)
             (fun el =>
                assign_style "box-shadow" (createShadowStyle inset c)
                  (setAttribute "aria-invalid" "false"
                     (classList_remove "np-error" el))) p in
  (c, p).

(** [isValid()]: an input that was never validated counts as valid. *)
Definition isValid (c : Component W) : bool :=
  match _validationResult (fields (widget c)) with
  | Some r => Validators.isValid r
  | None => true
  end.

End StateMethods.

(** The same methods on an [InputComponent] itself. *)
Definition input_clearErrors :=
  clearErrors (W := InputFields) (fun f => f) (fun f _ => f).

Definition input_isValid :=
  isValid (W := InputFields) (fun f => f).

End Input.

(** ** src/components/textarea: TextareaComponent *)

Module Textarea.

Import Themes Dom Page Base Validators.

(** [_textareaConfig], after the defaults [autoResize: true, maxHeight:
    '200px', minHeight: '80px', validateOn: 'blur', showValidation: true],
    and [_validationResult].  (The resize observer is left out.) *)
Record TextareaFields := {
  cfg_autoResize : bool;
  cfg_maxHeight : string;
  cfg_minHeight : string;
  cfg_placeholder : option string;
  cfg_validate : option RuleSet;
  cfg_validateOn : Input.ValidateOn;
  cfg_showValidation : bool;
  _validationResult : option ValidationResult
}.

Definition set_validationResult (r : option ValidationResult)
    (f : TextareaFields) : TextareaFields :=
  {| cfg_autoResize := cfg_autoResize f; cfg_maxHeight := cfg_maxHeight f;
     cfg_minHeight := cfg_minHeight f; cfg_placeholder := cfg_placeholder f;
     cfg_validate := cfg_validate f; cfg_validateOn := cfg_validateOn f;
     cfg_showValidation := cfg_showValidation f; _validationResult := r |}.

(** [getValue()] *)
Definition getValue (c : Component TextareaFields) (p : Page) : jsstring :=
  getElementValue (dom p (_element c)).

(** [updateValidationState()] *)
Definition updateValidationState (c : Component TextareaFields) (p : Page)
    : Page :=
  match _validationResult (widget c) with
  | None => p
  | Some r =>
      on_element (_element c)
        (fun el =>
           let el := setAttribute "aria-invalid"
                       (if isValid r then "false" else "true") el in
           if isValid r
           then assign_style "box-shadow" (createShadowStyle inset c)
                  (classList_remove "np-error" el)
           else assign_style "box-shadow"
                  (createShadowStyle inset c +:+ ", 0 0 0 2px "
                     +:+ error (colors (_theme c)) +:+ "40")
                  (addClassName "error" el)) p
  end.

(** [performValidation()] *)
Definition performValidation (c : Component TextareaFields) (p : Page)
    : option ValidationResult * Component TextareaFields * Page :=
  match cfg_validate (widget c) with
  | None => (None, c, p)
  | Some rules =>
      if negb (cfg_showValidation (widget c)) then (None, c, p)
      else
        let value := getValue c p in
        let result := validateValue value rules in
        let c := set_widget (set_validationResult (Some result) (widget c)) c in
        let '(_, p) := ValidationManager.validate (_element c) rules p in
        let p := updateValidationState c p in
        let p := emit "validation" (ValidationDetail result value) c p in
        (_validationResult (widget c), c, p)
  end.

(** [validate()] *)
Definition validate (c : Component TextareaFields) (p : Page)
    : ValidationResult * Component TextareaFields * Page :=
  let '(r, c, p) := performValidation c p in
  (default {| isValid := true; errors := [] |} r, c, p).

End Textarea.

(** ** src/components/password: PasswordComponent *)

Module Password.

Import Themes Dom Page Base Validators.

Inductive TogglePosition := position_left | position_right.

(** The fields [PasswordComponent] adds to those of [InputComponent]:
    [_passwordConfig] after the defaults [showToggle: true,
    togglePosition: 'right', strengthIndicator: false, maskCharacter:
    a bullet], the visibility flag, the two auxiliary nodes and the
    original input type. *)
Record PasswordFields := {
  input_fields : Input.InputFields;
  cfg_showToggle : bool;
  cfg_togglePosition : TogglePosition;
  cfg_strengthIndicator : bool;
  cfg_maskCharacter : jsstring;
  _isVisible : bool;
  _toggleButton : option eid;
  _strengthIndicator : option eid;
  _originalType : string
}.

Definition with_input_fields (f : Input.InputFields) (w : PasswordFields)
    : PasswordFields :=
  {| input_fields := f; cfg_showToggle := cfg_showToggle w;
     cfg_togglePosition := cfg_togglePosition w;
     cfg_strengthIndicator := cfg_strengthIndicator w;
     cfg_maskCharacter := cfg_maskCharacter w; _isVisible := _isVisible w;
     _toggleButton := _toggleButton w;
     _strengthIndicator := _strengthIndicator w;
     _originalType := _originalType w |}.

(** [getValue()], inherited from [InputComponent] *)
Definition getValue (c : Component PasswordFields) (p : Page) : jsstring :=
  Input.getValue c p.

(** [validate()], inherited from [InputComponent] *)
Definition validate :=
  Input.validate (W := PasswordFields) input_fields with_input_fields.

(** [getPasswordStrength()]:
    [password ? validatePasswordStrength(password) : null] *)
Definition getPasswordStrength (c : Component PasswordFields) (p : Page)
    : option PasswordStrength :=
  let password := getValue c p in
  if truthy_str password then Some (validatePasswordStrength password) else None.

End Password.

(** ** src/components/toggle: ToggleComponent *)

Module Toggle.

Import Themes Dom Page Base Utils.

Inductive ToggleType := switch | checkbox | radio.

(** [ToggleConfig]; [onChange] tells whether a callback is configured. *)
Record ToggleConfig := {
  toggle_base : BaseComponentConfig;
  type : option ToggleType;
  size : option Size;
  animated : option bool;
  checked_option : option bool;
  onChange : bool
}.

(** [_toggleConfig], after the defaults [type: 'switch', size: 'md',
    animated: true, checked: false], and the other fields of the class. *)
Record ToggleFields := {
  cfg_type : ToggleType;
  cfg_size : Size;
  cfg_animated : bool;
  cfg_checked : bool;
  cfg_onChange : bool;
  _isChecked : bool;
  _wrapper : option eid;
  _slider : option eid;
  _originalInput : eid
}.

Definition set_isChecked (b : bool) (f : ToggleFields) : ToggleFields :=
  {| cfg_type := cfg_type f; cfg_size := cfg_size f;
     cfg_animated := cfg_animated f; cfg_checked := cfg_checked f;
     cfg_onChange := cfg_onChange f; _isChecked := b;
     _wrapper := _wrapper f; _slider := _slider f;
     _originalInput := _originalInput f |}.

(** *** The native control

    [input.checked = b] is the platform's setter: checking a radio
    button unchecks the other radio buttons of its group, and fires no
    event.  Two radio inputs are in one group when they have the same
    non-empty name and the same form owner (here the [form] attribute;
    the tree is not modelled). *)

Definition is_radio (el : Element) : bool :=
  bool_decide (attributes el !! "type" = Some "radio").

Definition same_group (a b : Element) : bool :=
  is_radio a && is_radio b
  && bool_decide (attributes a !! "name" = attributes b !! "name")
  && bool_decide (is_Some (attributes a !! "name"))
  && bool_decide (attributes a !! "name" ≠ Some "")
  && bool_decide (attributes a !! "form" = attributes b !! "form").

Definition set_checked (e : eid) (b : bool) (d : Store) : Store :=
  fun k =>
    if decide (k = e) then set_checked_flag b (d k)
    else if b && same_group (d e) (d k) then set_checked_flag false (d k)
    else d k.

(** *** The custom visual *)

Definition bool_string (b : bool) : string := if b then "true" else "false".

(** [width] and [sliderSize] of the switch, per size *)
Definition switch_dimensions (sz : Size) : Z * Z :=
  match sz with sm => (32, 14) | md => (44, 20) | lg => (56, 28) end.

Definition updateSwitchState (c : Component ToggleFields) (p : Page) : Page :=
  match _wrapper (widget c), _slider (widget c) with
  | Some wrapper, Some slider =>
      let '(width, sliderSize) := switch_dimensions (cfg_size (widget c)) in
      let translateX := if _isChecked (widget c) then width - sliderSize - 4 else 2 in
      if _isChecked (widget c) then
        let p := on_element wrapper
                   (assign_style "background-color" (accent (colors (_theme c)))) p in
        let p := on_element slider
                   (assign_style "transform"
                      ("translateY(-50%) translateX(" +:+ px translateX +:+ ")")) p in
        on_element wrapper (addClassName "checked") p
      else
        let p := on_element wrapper
                   (assign_style "background-color" (surface (colors (_theme c)))) p in
        let p := on_element slider
                   (assign_style "transform" "translateY(-50%) translateX(0)") p in
        on_element wrapper (classList_remove "np-checked") p
  | _, _ => p
  end.

Definition updateCheckboxState (c : Component ToggleFields) (p : Page) : Page :=
  match _wrapper (widget c), _slider (widget c) with
  | Some wrapper, Some slider =>
      if _isChecked (widget c) then
        let p := on_element wrapper
                   (fun el => assign_style "box-shadow" (createShadowStyle flat c)
                      (assign_style "background-color" (accent (colors (_theme c))) el)) p in
        let p := on_element slider
                   (fun el => assign_style "color" "white"
                      (assign_style "transform" "translate(-50%, -50%) scale(1)" el)) p in
        on_element wrapper (addClassName "checked") p
      else
        let p := on_element wrapper
                   (fun el => assign_style "box-shadow" (createShadowStyle inset c)
                      (assign_style "background-color" (surface (colors (_theme c))) el)) p in
        let p := on_element slider
                   (assign_style "transform" "translate(-50%, -50%) scale(0)") p in
        on_element wrapper (classList_remove "np-checked") p
  | _, _ => p
  end.

Definition updateRadioState (c : Component ToggleFields) (p : Page) : Page :=
  match _wrapper (widget c), _slider (widget c) with
  | Some wrapper, Some slider =>
      if _isChecked (widget c) then
        let p := on_element slider
                   (assign_style "transform" "translate(-50%, -50%) scale(1)") p in
        on_element wrapper (addClassName "checked") p
      else
        let p := on_element slider
                   (assign_style "transform" "translate(-50%, -50%) scale(0)") p in
        on_element wrapper (classList_remove "np-checked") p
  | _, _ => p
  end.

(** [updateVisualState()] *)
Definition updateVisualState (c : Component ToggleFields) (p : Page) : Page :=
  let p := match cfg_type (widget c) with
           | switch => updateSwitchState c p
           | checkbox => updateCheckboxState c p
           | radio => updateRadioState c p
           end in
  on_element (_originalInput (widget c))
    (setAttribute "aria-checked" (bool_string (_isChecked (widget c)))) p.

(** [emitChange()] *)
Definition emitChange (self : nat) (c : Component ToggleFields) (p : Page) : Page :=
  let p := emit "change"
             (ChangeDetail (_isChecked (widget c))
                (value (dom p (_originalInput (widget c))))) c p in
  if cfg_onChange (widget c)
  then record (Callback self "onChange" (_isChecked (widget c))) p
  else p.

(** The listener of the native [change] event that [bindEvents]
    registers on the original input. *)
Definition change_handler (self : nat) (c : Component ToggleFields) (p : Page)
    : Component ToggleFields * Page :=
  let c := set_widget
             (set_isChecked (checked (dom p (_originalInput (widget c)))) (widget c)) c in
  let p := updateVisualState c p in
  (c, emitChange self c p).

Definition sync_label : string := "toggle:change".

(** [toggle()]: flips the state, writes it to the native input, repaints
    and notifies, then dispatches a native [change] event on the input,
    which runs the [change] listeners registered on that input. *)
Definition deliver_change (input : eid) (l : Listener)
    (w : World ToggleFields) : World ToggleFields :=
  match l with
  | NodeListener _ owner node type label =>
      if bool_decide (node = input /\ type = "change" /\ label = sync_label)
      then call owner (change_handler owner) w
      else w
  | ThemeListener _ _ => w
  end.

Definition toggle (self : nat) (w : World ToggleFields) : World ToggleFields :=
  match heap w !! self with
  | None => w
  | Some c =>
      if truthy_flag (disabled (_config c)) then w
      else
        let c := set_widget (set_isChecked (negb (_isChecked (widget c))) (widget c)) c in
        let input := _originalInput (widget c) in
        let p := set_dom (set_checked input (_isChecked (widget c)) (dom (page w)))
                   (page w) in
        let p := updateVisualState c p in
        let p := emitChange self c p in
        let p := record (Dispatch (Node input) "change" NoDetail) p in
        foldl (fun w l => deliver_change input l w)
          {| heap := <[self := c]> (heap w); page := p |} (listeners p)
  end.

(** [isChecked()]; [None] when there is no such instance. *)
Definition isChecked (self : nat) (w : World ToggleFields) : option bool :=
  (fun c => _isChecked (widget c)) <$> heap w !! self.

(** [check()], [uncheck()], [setChecked(checked)] *)
Definition check (self : nat) (w : World ToggleFields) : World ToggleFields :=
  match isChecked self w with
  | Some false => toggle self w
  | _ => w
  end.

Definition uncheck (self : nat) (w : World ToggleFields) : World ToggleFields :=
  match isChecked self w with
  | Some true => toggle self w
  | _ => w
  end.

Definition setChecked (b : bool) (self : nat) (w : World ToggleFields)
    : World ToggleFields :=
  match isChecked self w with
  | Some current => if bool_decide (current ≠ b) then toggle self w else w
  | None => w
  end.

(** The guard of the constructor: an [HTMLInputElement] whose type is
    [checkbox] or [radio]. *)
Definition is_toggle_input (el : Element) : bool :=
  bool_decide (tagName el = "input")
  && bool_decide (attributes el !! "type" ∈ [Some "checkbox"; Some "radio"]).

(** [init()] as [super(element, config)] runs it.  [applyBaseStyles()]
    comes first.  [createToggleStructure()] then starts with
    [this._toggleConfig.type]; the constructor assigns [_toggleConfig]
    after [super(...)], so the read is a [TypeError], and the rest of
    [init()] ([applyToggleStyles()], [syncState()]) is not reached. *)
Definition toggle_init (self : nat) (c : Component unit) (p : Page)
    : Outcome (Component unit * Page) :=
  match applyBaseStyles c p with
  | Thrown e p => Thrown e (c, p)
  | Done p =>
      (* createToggleStructure() *)
      Thrown TypeError (c, p)
  end.

(** [bindEvents()] as [super(element, config)] would run it after an
    [init()] that returned: [_wrapper] is [undefined], so that no click
    listener is registered; the keyboard listener is; then
    [this.addEventListener(this._originalInput, 'change', ...)] calls
    [addEventListener] on [undefined], a [TypeError]. *)
Definition toggle_bindEvents (self : nat) (c : Component unit) (p : Page)
    : Outcome (Component unit * Page) :=
  let '(c, p) := base_bindEvents self c p in
  let '(c, p) := addNodeListener self (_element c) "keydown" "toggle:keydown" c p in
  Thrown TypeError (c, p).

(** The fields that the constructor assigns after [super(...)]:
    [_toggleConfig] with its defaults, [_originalInput], and
    [_isChecked]. *)
Definition toggle_fields (input : eid) (config : ToggleConfig) (p : Page)
    : ToggleFields :=
  let checked_default := default false (checked_option config) in
  {| cfg_type := default switch (type config);
     cfg_size := default md (size config);
     cfg_animated := default true (animated config);
     cfg_checked := checked_default;
     cfg_onChange := onChange config;
     _isChecked := checked (dom p input) || checked_default;
     _wrapper := None; _slider := None;
     _originalInput := input |}.

(** [new ToggleComponent(input, config)], also [toggle(input, config)]:
    the guard, then [super(element, config)], then the assignments. *)
Definition new_toggle (input : eid) (config : ToggleConfig)
    (w : World ToggleFields) : Outcome (World ToggleFields) :=
  if negb (is_toggle_input (dom (page w) input)) then Thrown Error w
  else construct toggle_init toggle_bindEvents
         (fun _ p => toggle_fields input config p)
         input (toggle_base config) w.

(** The [change] listeners are registered by each instance on its own
    input. *)
Definition listeners_on_own_input (w : World ToggleFields) : Prop :=
  forall id owner node c,
    NodeListener id owner node "change" sync_label ∈ listeners (page w) ->
    heap w !! owner = Some c ->
    _originalInput (widget c) = node.

(** What holds of the world [w] while the native [change] event
    dispatched by [toggle] on instance [a], whose input is [ea], is being
    delivered; [w0] is the world before the call and [flags] the checked
    states of the native inputs after the write of [toggle]. *)
Definition delivering (w0 : World ToggleFields) (a : nat) (ea : eid)
    (flags : eid -> bool) (w : World ToggleFields) : Prop :=
  length (heap w) = length (heap w0)
  /\ (forall k, checked (dom (page w) k) = flags k)
  /\ (forall b cb, heap w0 !! b = Some cb ->
        exists cb', heap w !! b = Some cb'
          /\ _originalInput (widget cb') = _originalInput (widget cb)
          /\ (b = a -> _isChecked (widget cb') = true)
          /\ (b <> a -> _originalInput (widget cb) <> ea ->
              _isChecked (widget cb') = _isChecked (widget cb))).



End Toggle.

(** ** src/utils: debounce and throttle

    Both functions return a closure over a variable of their own and use
    the timers of the host.  The host is modelled by its clock, the
    timers that are pending, and the identifier it gives the next timer.
    A timer runs once, when the host gets to it, which is never before
    it is due.  Times are in milliseconds.

    [func] is the caller's: an invocation of it takes time, returns or
    throws, and may call the returned function again before it ends.
    The start and the end of an invocation are therefore two events. *)

Module Timing.

Section Wrapped.

(** The argument list of a call of the returned function. *)
Context {A : Type}.

(** What can happen to the returned function and its timers: it is
    called; the invocation of [func] that is running ends, by a return
    ([normally]) or by an exception; time passes; the host gets to a
    timer. *)
Inductive Event :=
| Call (args : A)
| Return (normally : bool)
| Elapse (ms : N)
| Fire (id : nat).

(** What an observer sees: the calls of the returned function and the
    invocations of [func], each with its time and its arguments.  (The
    source keeps no such history; it serves to state what happens.) *)
Inductive Entry :=
| Called (t : Z) (args : A)
| Invoked (t : Z) (args : A).

(** A pending timer; [captured] is what its callback closes over. *)
Record Timer (B : Type) := {
  timer_id : nat;
  due : Z;
  captured : B
}.
Arguments timer_id {B} t.
Arguments due {B} t.
Arguments captured {B} t.

Record Host (B : Type) := {
  now : Z;
  pending : list (Timer B);
  next_id : nat;
  history : list Entry
}.
Arguments now {B} h.
Arguments pending {B} h.
Arguments next_id {B} h.
Arguments history {B} h.

Definition initial_host {B : Type} : Host B :=
  {| now := 0; pending := []; next_id := 1%nat; history := [] |}.

(** The conversion of a number to the IDL type [long], which is the
    type of the [timeout] argument of [setTimeout]: modulo 2^32, into
    the signed range. *)
Definition to_long (z : Z) : Z :=
  let m := z mod 2 ^ 32 in
  if m <? 2 ^ 31 then m else m - 2 ^ 32.

(** [setTimeout(callback, delay)]: the delay is converted to a [long],
    and a negative one counts as 0. *)
Definition setTimeout {B : Type} (delay : Z) (b : B) (h : Host B)
    : nat * Host B :=
  (next_id h,
   {| now := now h;
      pending := pending h ++ [{| timer_id := next_id h;
                                  due := now h + Z.max 0 (to_long delay);
                                  captured := b |}];
      next_id := S (next_id h);
      history := history h |}).

(** [clearTimeout(id)]; [None] is [undefined], which clears nothing. *)
Definition clearTimeout {B : Type} (id : option nat) (h : Host B) : Host B :=
  match id with
  | Some i =>
      {| now := now h;
         pending := filter (fun t => timer_id t ≠ i) (pending h);
         next_id := next_id h;
         history := history h |}
  | None => h
  end.

Definition observe {B : Type} (e : Entry) (h : Host B) : Host B :=
  {| now := now h; pending := pending h; next_id := next_id h;
     history := history h ++ [e] |}.

Definition elapse {B : Type} (ms : N) (h : Host B) : Host B :=
  {| now := now h + Z.of_N ms; pending := pending h; next_id := next_id h;
     history := history h |}.

(** The host runs the timer [id] if it is pending and due: the timer is
    taken off the list and its callback is what the caller does with
    the captured value. *)
Definition take_due {B : Type} (id : nat) (h : Host B)
    : option (B * Host B) :=
  match List.find (fun t => (timer_id t =? id)%nat) (pending h) with
  | Some t =>
      if due t <=? now h
      then Some (captured t,
                 {| now := now h;
                    pending := filter (fun t' => timer_id t' ≠ id) (pending h);
                    next_id := next_id h;
                    history := history h |})
      else None
  | None => None
  end.

(** *** debounce(func, wait)

    [timeout] is the variable of the closure; the callback of a timer
    closes over the arguments of the call that set it.  [func] is
    invoked by the callback, and how its invocation ends changes nothing
    in the closure. *)
Record Debounced := {
  timeout : option nat;
  debounce_host : Host A
}.

Definition debounce_start : Debounced :=
  {| timeout := None; debounce_host := initial_host |}.

Definition debounce_step (wait : Z) (s : Debounced) (e : Event) : Debounced :=
  match e with
  | Call args =>
      let h := observe (Called (now (debounce_host s)) args) (debounce_host s) in
      let h := clearTimeout (timeout s) h in
      let '(id, h) := setTimeout wait args h in
      {| timeout := Some id; debounce_host := h |}
  | Return _ => s
  | Elapse ms =>
      {| timeout := timeout s; debounce_host := elapse ms (debounce_host s) |}
  | Fire id =>
      match take_due id (debounce_host s) with
      | Some (args, h) =>
          {| timeout := timeout s;
             debounce_host := observe (Invoked (now h) args) h |}
      | None => s
      end
  end.

Definition debounce_run (wait : Z) (events : list Event) : Debounced :=
  foldl (debounce_step wait) debounce_start events.

(** *** throttle(func, limit)

    [inThrottle] is the variable of the closure, [undefined] (falsy) at
    first; the callback of the timer resets it.  The returned function
    calls [func] first and sets [inThrottle] and the timer when [func]
    has returned; [running] counts the invocations of [func] that have
    not ended.  While one is running the host gets to no timer. *)
Record Throttled := {
  inThrottle : bool;
  running : nat;
  throttle_host : Host unit
}.

Definition throttle_start : Throttled :=
  {| inThrottle := false; running := 0%nat; throttle_host := initial_host |}.

Definition throttle_step (limit : Z) (s : Throttled) (e : Event) : Throttled :=
  match e with
  | Call args =>
      let h := observe (Called (now (throttle_host s)) args) (throttle_host s) in
      if negb (inThrottle s)
      then (* func.apply(this, args) *)
        {| inThrottle := inThrottle s; running := S (running s);
           throttle_host := observe (Invoked (now h) args) h |}
      else {| inThrottle := inThrottle s; running := running s;
              throttle_host := h |}
  | Return normally =>
      match running s with
      | S n =>
          if normally
          then (* inThrottle = true; setTimeout(() => inThrottle = false, limit) *)
            let '(_, h) := setTimeout limit tt (throttle_host s) in
            {| inThrottle := true; running := n; throttle_host := h |}
          else {| inThrottle := inThrottle s; running := n;
                  throttle_host := throttle_host s |}
      | O => s
      end
  | Elapse ms =>
      {| inThrottle := inThrottle s; running := running s;
         throttle_host := elapse ms (throttle_host s) |}
  | Fire id =>
      match running s with
      | O =>
          match take_due id (throttle_host s) with
          | Some (_, h) =>
              {| inThrottle := false; running := 0%nat; throttle_host := h |}
          | None => s
          end
      | S _ => s
      end
  end.

Definition throttle_run (limit : Z) (events : list Event) : Throttled :=
  foldl (throttle_step limit) throttle_start events.

(** Every call of the returned function is followed at once by its
    normal return, which ends the invocation of [func] that the call
    made, if it made one: [func] neither throws nor calls the returned
    function, and no time passes while it runs. *)
Fixpoint prompt (events : list Event) : bool :=
  match events with
  | [] => true
  | Call _ :: rest =>
      match rest with
      | Return true :: rest' => prompt rest'
      | _ => false
      end
  | Return _ :: _ => false
  | Elapse _ :: rest => prompt rest
  | Fire _ :: rest => prompt rest
  end.

End Wrapped.

Arguments timer_id {B} t.
Arguments due {B} t.
Arguments captured {B} t.
Arguments now {A B} h.
Arguments pending {A B} h.
Arguments next_id {A B} h.
Arguments history {A B} h.
Arguments Event A : clear implicits.
Arguments Entry A : clear implicits.
Arguments Host A B : clear implicits.
Arguments Debounced A : clear implicits.
Arguments Throttled A : clear implicits.

End Timing.

(* ================================================================== *)
(** * Part II: properties                                              *)
(* ================================================================== *)

Import Validators.

(** ** The email expression *)

Lemma span_atoms_split (s : jsstring) :
  s = (Utils.span_atoms s).1 ++ (Utils.span_atoms s).2
  /\ forallb Utils.email_atom (Utils.span_atoms s).1 = true.
Proof.
  induction s as [|x r [IH1 IH2]]; simpl; [done|].
  destruct (Utils.email_atom x) eqn:Hx; [|done].
  destruct (Utils.span_atoms r) as [a rest]. simpl in *.
  rewrite Hx, IH2. split; [by f_equal | done].
Qed.

Lemma span_atoms_stop (a r : jsstring) (x : code_unit) :
  forallb Utils.email_atom a = true ->
  Utils.email_atom x = false ->
  Utils.span_atoms (a ++ x :: r) = (a, x :: r).
Proof.
  intros Ha Hx. induction a as [|y a IH]; simpl.
  - by rewrite Hx.
  - simpl in Ha. apply andb_true_iff in Ha as [Hy Ha].
    by rewrite Hy, (IH Ha).
Qed.

Lemma inner_dot_iff (d : jsstring) :
  Utils.inner_dot d = true
  <-> exists b c, d = b ++ Utils.dot :: c /\ b <> [] /\ c <> [].
Proof.
  induction d as [|x r IH]; simpl.
  - split; [done|]. intros (b & c & Hd & _). by destruct b.
  - destruct r as [|y t].
    + split; [done|]. intros (b & c & Hd & Hb & Hc).
      destruct b as [|? [|? ?]]; done.
    + rewrite orb_true_iff, andb_true_iff, IH. split.
      * intros [[Hy Ht] | (b & c & Hd & Hb & Hc)].
        -- apply N.eqb_eq in Hy as ->. exists [x], t.
           repeat split; try done. by destruct t.
        -- exists (x :: b), c. rewrite Hd. done.
      * intros (b & c & Hd & Hb & Hc).
        destruct b as [|x' [|y' b']]; [done| |].
        -- left. simplify_eq. simpl in *. simplify_eq.
           split; [apply N.eqb_refl | by destruct c].
        -- right. simpl in Hd. simplify_eq. exists (y' :: b'), c. done.
Qed.

(** X1. [isValidEmail] accepts exactly the strings that read
    [a ++ "@" ++ b ++ "." ++ c] with [a], [b] and [c] non-empty and free
    of white space and of ["@"]: it decides the regular expression
    [/^[^\s@]+@[^\s@]+\.[^\s@]+$/]. *)
Lemma isValidEmail_matches (email : jsstring) :
  Utils.isValidEmail email = true <-> Utils.matches_email email.
Proof.
  unfold Utils.isValidEmail, Utils.matches_email. split.
  - destruct (span_atoms_split email) as [Hsplit Hatoms].
    destruct (Utils.span_atoms email) as [loc rest]. simpl in *.
    intros [Hloc Hrest]%andb_true_iff.
    destruct rest as [|x d]; [done|].
    apply andb_true_iff in Hrest as [[Hx Hd]%andb_true_iff Hdot].
    apply N.eqb_eq in Hx as ->.
    apply inner_dot_iff in Hdot as (b & c & -> & Hb & Hc).
    rewrite forallb_app in Hd. apply andb_true_iff in Hd as [Hfb Hfc].
    simpl in Hfc.
    exists loc, b, c. repeat split; try done. by destruct loc.
  - intros (a & b & c & -> & Ha & Hb & Hc & Hfa & Hfb & Hfc).
    simpl. rewrite (span_atoms_stop a _ Utils.at_sign Hfa) by done.
    apply andb_true_iff. split; [by destruct a|].
    rewrite N.eqb_refl. simpl. apply andb_true_iff. split.
    + rewrite forallb_app, Hfb. simpl. by rewrite Hfc.
    + apply inner_dot_iff. by exists b, c.
Qed.

(** ** The validation engine: examples of the specification *)

Example validateValue_email_only :
  validateValue (lit "not-an-email")
    (RuleCfg {| required := None; email := Some true; minLength := None;
                maxLength := None; pattern := None; custom := None |})
  = {| isValid := false; errors := [msg_email] |}.
Proof. reflexivity. Qed.

Example validateValue_minLength_5 :
  validateValue (lit "abc")
    (RuleCfg {| required := None; email := None; minLength := Some 5;
                maxLength := None; pattern := None; custom := None |})
  = {| isValid := false; errors := [lit "Must be at least 5 characters"] |}.
Proof. reflexivity. Qed.

Example validateValue_email_ok :
  validateValue (lit "test@example.com")
    (RuleCfg {| required := Some true; email := Some true; minLength := None;
                maxLength := None; pattern := None; custom := None |})
  = {| isValid := true; errors := [] |}.
Proof. reflexivity. Qed.

(** ** The validation engine *)

Section ValidateValue.

Implicit Types (c : ValidationConfig) (value : jsstring) (s : Acc).

Lemma trim_start_all_space value :
  forallb is_space value = true -> trim_start value = [].
Proof.
  induction value as [|ch r IH]; simpl; [done|].
  intros [Hc Hr]%andb_true_iff. rewrite Hc. auto.
Qed.

Lemma trim_start_nil_inv value :
  trim_start value = [] -> forallb is_space value = true.
Proof.
  induction value as [|ch r IH]; simpl; [done|].
  destruct (is_space ch); [auto | discriminate].
Qed.

Lemma trim_start_suffix value : exists pre,
  value = pre ++ trim_start value /\ forallb is_space pre = true.
Proof.
  induction value as [|ch r [pre [Heq Hpre]]]; simpl.
  - by exists [].
  - destruct (is_space ch) eqn:Hc.
    + exists (ch :: pre). simpl. rewrite Hc, Hpre. by rewrite <- Heq.
    + by exists [].
Qed.

(** The trimmed form is empty exactly for the strings made of white
    space only (the empty string among them). *)
Lemma trim_empty_iff value :
  trim value = [] <-> forallb is_space value = true.
Proof.
  unfold trim. split.
  - intros H. apply (f_equal (@rev _)) in H. rewrite rev_involutive in H.
    simpl in H. apply trim_start_nil_inv in H.
    rewrite forallb_forall in H.
    destruct (trim_start_suffix value) as [pre [Heq Hpre]].
    rewrite Heq, forallb_app, Hpre. simpl.
    apply forallb_forall. intros x Hx. apply H, in_rev.
    by rewrite rev_involutive.
  - intros H. by rewrite (trim_start_all_space _ H).
Qed.

Lemma trim_nonempty_value value : trim value <> [] -> truthy_str value = true.
Proof. destruct value; [intros []; reflexivity | done]. Qed.

(** One validator call followed by the conditional push. *)
Lemma check_run (r : Rule) (o : option jsstring) s :
  check r o s =
  Next tt {| acc_errors := acc_errors s ++ (if truthy o then [default [] o] else []);
             acc_called := acc_called s ++ [r] |}.
Proof.
  unfold check, call, mbind, V_bind, when. destruct (truthy o); simpl.
  - reflexivity.
  - unfold mret, V_ret. by rewrite app_nil_r.
Qed.

(** The [forEach] over the custom validators: every function is called,
    in array order, and each truthy result is pushed. *)
Lemma forEach_custom_run (fs : list ValidationFunction) value : forall (i : nat) s,
  forEach_custom i fs value s =
  Next tt {| acc_errors := acc_errors s ++
               omap (fun f => if truthy (f value) then f value else None) fs;
             acc_called := acc_called s ++ imap (fun k _ => RCustom (i + k)) fs |}.
Proof.
  induction fs as [|f fs IH]; intros i s; simpl.
  - unfold mret, V_ret. rewrite !app_nil_r. by destruct s.
  - unfold mbind, V_bind. rewrite check_run, IH. simpl. f_equal.
    rewrite <- !app_assoc. f_equal.
    + f_equal. destruct (f value) as [m|]; simpl; [|done].
      by destruct (truthy_str m).
    + f_equal. simpl. rewrite Nat.add_0_r. f_equal.
      apply imap_ext. intros k ? _. simpl. f_equal. lia.
Qed.

End ValidateValue.

(** C1. With [required = true] and a value whose trimmed form is empty,
    [validateValue] answers [isValid = false] with exactly one error, the
    required-field message, and the only validator that was evaluated is
    [required]: no email, minLength, maxLength, pattern or custom rule
    runs. *)
Theorem C1_required_empty_only_required_error
    (c : ValidationConfig) (value : jsstring) :
  required c = Some true ->
  trim value = [] ->
  validateValue value (RuleCfg c)
    = {| isValid := false; errors := [msg_required] |}
  /\ rules_evaluated value (RuleCfg c) = [RRequired].
Proof.
  intros Hreq Htrim.
  unfold validateValue, rules_evaluated, validateValue_run, validateValue_body.
  unfold mbind, V_bind, when, call, push, return_with_errors, validators_required.
  rewrite Hreq, Htrim. simpl. done.
Qed.

Lemma C1_required_empty_witness :
  let c := {| required := Some true; email := Some true; minLength := Some 5;
              maxLength := None; pattern := Some re_digit;
              custom := Some [fun _ => Some (lit "never")] |} in
  validateValue (lit "  ") (RuleCfg c)
    = {| isValid := false; errors := [msg_required] |}
  /\ rules_evaluated (lit "  ") (RuleCfg c) = [RRequired].
Proof.
  intros c. apply (C1_required_empty_only_required_error c (lit "  ")); reflexivity.
Defined.

(** C2. When [required] is not set (absent or [false]) and the trimmed
    value is empty, [validateValue] answers [isValid = true] with no
    error, whatever email, minLength, maxLength, pattern or custom rules
    are configured; none of them is evaluated. *)
Theorem C2_optional_empty_is_valid
    (c : ValidationConfig) (value : jsstring) :
  required c = None \/ required c = Some false ->
  trim value = [] ->
  validateValue value (RuleCfg c) = {| isValid := true; errors := [] |}
  /\ rules_evaluated value (RuleCfg c) = [].
Proof.
  intros Hreq Htrim.
  unfold validateValue, rules_evaluated, validateValue_run, validateValue_body.
  unfold mbind, V_bind, when, return_result.
  destruct Hreq as [-> | ->]; simpl; rewrite Htrim; done.
Qed.

Lemma C2_optional_empty_witness :
  let c := {| required := None; email := Some true; minLength := Some 5;
              maxLength := Some 2; pattern := Some re_digit;
              custom := Some [fun _ => Some (lit "never")] |} in
  validateValue [] (RuleCfg c) = {| isValid := true; errors := [] |}
  /\ rules_evaluated [] (RuleCfg c) = [].
Proof.
  intros c. apply (C2_optional_empty_is_valid c []); [by left | reflexivity].
Defined.

Lemma extend_nil s : extend s [] = s.
Proof. unfold extend. simpl. rewrite !app_nil_r. by destruct s. Qed.

Lemma extend_app s l1 l2 : extend (extend s l1) l2 = extend s (l1 ++ l2).
Proof.
  unfold extend. simpl. by rewrite omap_app, fmap_app, <- !app_assoc.
Qed.

Lemma check_extend r o s : check r o s = Next tt (extend s [(r, o)]).
Proof.
  rewrite check_run. unfold extend, failure. simpl.
  destruct o as [m|]; simpl; [|done]. by destruct (truthy_str m).
Qed.

Lemma flag_check_extend (b : bool) r o s :
  (if b then check r o else mret tt) s
  = Next tt (extend s (if b then [(r, o)] else [])).
Proof.
  destruct b; [apply check_extend|].
  by rewrite extend_nil.
Qed.

Lemma opt_check_extend {A} (x : option A) r (g : A -> option jsstring) s :
  match x with Some a => check r (g a) | None => mret tt end s
  = Next tt (extend s match x with Some a => [(r, g a)] | None => [] end).
Proof.
  destruct x; [apply check_extend|].
  by rewrite extend_nil.
Qed.

Lemma omap_failure_imap (h : nat -> Rule) (fs : list ValidationFunction) value :
  omap failure (imap (fun k f => (h k, f value)) fs)
  = omap (fun f => if truthy (f value) then f value else None) fs.
Proof.
  revert h. induction fs as [|f fs IH]; intros h; [done|].
  change (imap (fun k f0 => (h k, f0 value)) (f :: fs))
    with ((h 0%nat, f value) :: imap (fun k f0 => ((h ∘ S) k, f0 value)) fs).
  cbn [omap list_omap]. rewrite (IH (h ∘ S)). reflexivity.
Qed.

Lemma forEach_custom_extend (fs : list ValidationFunction) value i s :
  forEach_custom i fs value s
  = Next tt (extend s (imap (fun k f => (RCustom (i + k), f value)) fs)).
Proof.
  rewrite forEach_custom_run. unfold extend. do 2 f_equal.
  - f_equal. symmetry.
    apply (omap_failure_imap (fun k => RCustom (i + k))).
  - f_equal. by rewrite fmap_imap.
Qed.

Lemma opt_forEach_extend (x : option (list ValidationFunction)) value s :
  match x with Some fs => forEach_custom 0 fs value | None => mret tt end s
  = Next tt (extend s match x with
                      | Some fs => imap (fun k f => (RCustom k, f value)) fs
                      | None => []
                      end).
Proof.
  destruct x; [apply forEach_custom_extend|].
  by rewrite extend_nil.
Qed.

(** The rules evaluated on a value with a non-empty trimmed form. *)
Lemma validateValue_run_nonempty (c : ValidationConfig) (value : jsstring) :
  trim value <> [] ->
  validateValue_run value (RuleCfg c) =
  (let errs := omap failure (rule_outcomes c value) in
   ({| isValid := (length errs =? 0)%nat; errors := errs |},
    (if truthy_flag (required c) then [RRequired] else [])
    ++ (rule_outcomes c value).*1)).
Proof.
  intros Hne. pose proof (trim_nonempty_value _ Hne) as Hv.
  assert (Htrim : is_empty (trim value) = false) by (by destruct (trim value)).
  unfold validateValue_run, validateValue_body, rule_outcomes.
  unfold validators_email, validators_minLength, validators_maxLength,
    validators_pattern, validators_required.
  rewrite Htrim, Hv.
  unfold mbind, V_bind, when, call.
  set (s0 := {| acc_errors := []; acc_called := [] |}).
  assert (Hrun : forall s : Acc,
    match
      (if truthy_flag (email c)
       then check REmail (if true && negb (Utils.isValidEmail value)
                          then Some msg_email else None)
       else mret ()) s
    with
    | Returned r s' => Returned r s'
    | Next _ s' =>
        match
          match minLength c with
          | Some min =>
              check RMinLength
                (if true && (Z.of_nat (length value) <? min)
                 then Some (msg_minLength min) else None)
          | None => mret ()
          end s'
        with
        | Returned r s'0 => Returned r s'0
        | Next _ s'0 =>
            match
              match maxLength c with
              | Some max =>
                  check RMaxLength
                    (if true && (Z.of_nat (length value) >? max)
                     then Some (msg_maxLength max) else None)
              | None => mret ()
              end s'0
            with
            | Returned r s'1 => Returned r s'1
            | Next _ s'1 =>
                match
                  match pattern c with
                  | Some regex =>
                      check RPattern
                        (let message := default msg_invalid_format None in
                         if true && negb (test regex value)
                         then Some message else None)
                  | None => mret ()
                  end s'1
                with
                | Returned r s'2 => Returned r s'2
                | Next _ s'2 =>
                    match custom c with
                    | Some fs => forEach_custom 0 fs value
                    | None => mret ()
                    end s'2
                end
            end
        end
    end = Next tt (extend s (rule_outcomes c value))).
  { intros s. unfold rule_outcomes.
    rewrite flag_check_extend.
    rewrite (opt_check_extend (minLength c) RMinLength
               (fun min => if true && (Z.of_nat (length value) <? min)
                           then Some (msg_minLength min) else None)).
    rewrite (opt_check_extend (maxLength c) RMaxLength
               (fun max => if true && (Z.of_nat (length value) >? max)
                           then Some (msg_maxLength max) else None)).
    rewrite (opt_check_extend (pattern c) RPattern
               (fun regex => let message := default msg_invalid_format None in
                             if true && negb (test regex value)
                             then Some message else None)).
    rewrite opt_forEach_extend, !extend_app. do 2 f_equal.
    destruct (truthy_flag (email c)), (minLength c), (maxLength c) as [max|],
      (pattern c) as [regex|]; simpl; rewrite ?Z.gtb_ltb;
      try destruct (Utils.isValidEmail value);
      try destruct (test regex value); reflexivity. }
  unfold rule_outcomes in Hrun.
  destruct (truthy_flag (required c)); cbn [truthy]; unfold mret at 1 2, V_ret;
    cbn iota; rewrite Hrun; unfold extend; simpl; reflexivity.
Qed.

(** C3, as stated, has the pattern rule report "its custom message".  A
    structured rule set holds the regular expression only
    ([pattern?: RegExp]); [validateValue] builds the rule with
    [validators.pattern(config.pattern)], so the message of the pattern
    rule is always the default one.  Here the pattern validator built
    with the message "Digits only" fails on "abc" with that message, while
    [validateValue] reports "Invalid format" for the same expression. *)
Lemma C3_pattern_custom_message_counterexample :
  let value := lit "abc" in
  let c := {| required := None; email := None; minLength := None;
              maxLength := None; pattern := Some re_digit; custom := None |} in
  trim value <> []
  /\ validators_pattern re_digit (Some (lit "Digits only")) value
     = Some (lit "Digits only")
  /\ validateValue value (RuleCfg c)
     = {| isValid := false; errors := [lit "Invalid format"] |}
  /\ lit "Digits only" ∉ errors (validateValue value (RuleCfg c)).
Proof.
  repeat split; try reflexivity; try discriminate.
  intros H. vm_compute in H. apply list_elem_of_In in H.
  destruct H as [H|[]]. discriminate H.
Qed.

(** C3 (amended). For a structured rule set and a value with a non-empty
    trimmed form, [validateValue] evaluates the configured rules in the
    order email, minLength, maxLength, pattern, then every custom function
    in array order, none of them being skipped; the message of every rule
    that failed is appended in that order, the pattern rule reporting the
    fixed message "Invalid format" and a custom function failing when it
    returns a non-empty string; [isValid] holds exactly when the error
    list is empty. *)
Theorem C3_rules_accumulate_in_fixed_order
    (c : ValidationConfig) (value : jsstring) :
  trim value <> [] ->
  let result := validateValue value (RuleCfg c) in
  errors result = omap failure (rule_outcomes c value)
  /\ (isValid result = true <-> errors result = [])
  /\ rules_evaluated value (RuleCfg c)
     = (if truthy_flag (required c) then [RRequired] else [])
       ++ (rule_outcomes c value).*1.
Proof.
  intros Hne result. subst result.
  unfold validateValue, rules_evaluated.
  rewrite (validateValue_run_nonempty c value Hne). simpl.
  split; [reflexivity|]. split; [|reflexivity].
  destruct (omap failure (rule_outcomes c value)); simpl; split; done.
Qed.

Lemma C3_rules_accumulate_witness :
  let value := lit "ab" in
  let c := {| required := Some true; email := Some true; minLength := Some 5;
              maxLength := Some 1; pattern := Some re_digit;
              custom := Some [fun _ => None; fun _ => Some (lit "no")] |} in
  errors (validateValue value (RuleCfg c))
    = [msg_email; lit "Must be at least 5 characters";
       lit "Must be no more than 1 characters"; lit "Invalid format"; lit "no"]
  /\ rules_evaluated value (RuleCfg c)
     = [RRequired; REmail; RMinLength; RMaxLength; RPattern; RCustom 0; RCustom 1].
Proof.
  intros value c.
  destruct (C3_rules_accumulate_in_fixed_order c value) as (He & _ & Hr).
  - discriminate.
  - split; [rewrite He | rewrite Hr]; reflexivity.
Defined.

(** ** Password strength *)

(** C4. [validatePasswordStrength] gives one point for each of: length at
    least 8, an uppercase letter (A-Z), a lowercase letter (a-z), a digit,
    a character outside A-Z, a-z, 0-9.  A score of 0 to 2 is "weak", 3 is
    "fair", 4 is "good", 5 is "strong", and the feedback lists the hints
    of exactly the criteria that were not met, in that order. *)
Theorem C4_password_strength_score_label_feedback (password : jsstring) :
  let r := validatePasswordStrength password in
  let long := 8 <=? Z.of_nat (length password) in
  let upper := existsb is_upper password in
  let lower := existsb is_lower password in
  let digit := existsb is_digit password in
  let special :=
    existsb (fun ch => negb (is_upper ch || is_lower ch || is_digit ch)) password in
  score r = Z.b2z long + Z.b2z upper + Z.b2z lower + Z.b2z digit + Z.b2z special
  /\ (strength r = weak <-> 0 <= score r <= 2)
  /\ (strength r = fair <-> score r = 3)
  /\ (strength r = good <-> score r = 4)
  /\ (strength r = strong <-> score r = 5)
  /\ feedback r =
       (if long then [] else [fb_length]) ++
       (if upper then [] else [fb_upper]) ++
       (if lower then [] else [fb_lower]) ++
       (if digit then [] else [fb_digit]) ++
       (if special then [] else [fb_special]).
Proof.
  unfold validatePasswordStrength, criterion. simpl.
  destruct (8 <=? Z.of_nat (length password)),
    (existsb is_upper password), (existsb is_lower password),
    (existsb is_digit password),
    (existsb (fun ch => negb (is_upper ch || is_lower ch || is_digit ch)) password);
    simpl; repeat split; intros; try reflexivity; try discriminate; try lia.
Qed.

Example strength_of_empty :
  validatePasswordStrength [] =
  {| score := 0;
     feedback := [fb_length; fb_upper; fb_lower; fb_digit; fb_special];
     strength := weak |}.
Proof. reflexivity. Qed.

Example strength_of_123 :
  validatePasswordStrength (lit "123") =
  {| score := 1; feedback := [fb_length; fb_upper; fb_lower; fb_special];
     strength := weak |}.
Proof. reflexivity. Qed.

Example strength_of_strong :
  validatePasswordStrength (lit "Abcdef1!") =
  {| score := 5; feedback := []; strength := strong |}.
Proof. reflexivity. Qed.

(** ** The component lifecycle: destroy *)

Import Themes Dom Page Base.

Lemma classList_call_passes change e token p :
  validate_token token = None ->
  classList_call change e token p = Done (on_element e (change token) p).
Proof. intros Hv. unfold classList_call. by rewrite Hv. Qed.

Lemma classList_call_throws change e token p exception :
  validate_token token = Some exception ->
  classList_call change e token p = Thrown exception p.
Proof. intros Hv. unfold classList_call. by rewrite Hv. Qed.

Lemma dom_on_element_same e f p :
  dom (on_element e f p) e = f (dom p e).
Proof. unfold on_element, Dom.update. simpl. by rewrite decide_True. Qed.

Lemma dom_on_element_other e e' f p :
  e' <> e -> dom (on_element e f p) e' = dom p e'.
Proof. intros Hne. unfold on_element, Dom.update. simpl. by rewrite decide_False. Qed.

Lemma log_remove_listeners (ls : list Listener) p :
  log (foldl (fun p l => removeEventListener l p) p ls)
  = log p ++ map Unlisten ls.
Proof.
  revert p. induction ls as [|l ls IH]; intros p; simpl.
  - by rewrite app_nil_r.
  - rewrite IH. simpl. by rewrite <- app_assoc.
Qed.

Lemma dom_remove_listeners (ls : list Listener) p :
  dom (foldl (fun p l => removeEventListener l p) p ls) = dom p.
Proof.
  revert p. induction ls as [|l ls IH]; intros p; [done|].
  cbn [foldl]. by rewrite IH.
Qed.

Lemma manager_remove_listeners (ls : list Listener) p :
  manager (foldl (fun p l => removeEventListener l p) p ls) = manager p.
Proof.
  revert p. induction ls as [|l ls IH]; intros p; [done|].
  cbn [foldl]. by rewrite IH.
Qed.

Lemma listeners_after_removal (ls : list Listener) : forall p (l : Listener),
  l ∈ listeners (foldl (fun p l => removeEventListener l p) p ls)
  <-> l ∈ listeners p /\ l ∉ ls.
Proof.
  induction ls as [|x ls IH]; intros p l; cbn [foldl].
  - split; [intros Hin; split; [done | apply not_elem_of_nil] | by intros [? _]].
  - rewrite IH. cbn [removeEventListener listeners record set_listeners].
    rewrite list_elem_of_filter, not_elem_of_cons. tauto.
Qed.

Section Destroy.

Context {W : Type} `{Widget W}.

Implicit Types (c : Component W) (p : Page) (w : World W).

Lemma destroy_method_destroyed c p :
  _destroyed c = true -> destroy_method c p = Done (c, p).
Proof. intros Hd. unfold destroy_method. by rewrite Hd. Qed.

(** The element store that the cleanup hook of [destroy()] receives. *)
Lemma destroy_method_returns c p :
  _destroyed c = false ->
  className_passes (_config c) = true ->
  let e := _element c in
  let d0 := match truthy_className (_config c) with
            | Some cls =>
                Dom.update e (classList_remove cls)
                  (Dom.update e (classList_remove "np-component") (dom p))
            | None => Dom.update e (classList_remove "np-component") (dom p)
            end in
  let hook := onDestroy (set_own_listeners [] c) d0 (manager p) in
  exists p1,
    destroy_method c p = Done (set_destroyed true hook.1.1, p1)
    /\ dom p1 = hook.1.2
    /\ manager p1 = hook.2
    /\ log p1 = log p ++ map Unlisten (_listeners c)
                ++ [Dispatch (Node e) "np:destroy" NoDetail]
    /\ (forall l, l ∈ listeners p1 <-> l ∈ listeners p /\ l ∉ _listeners c).
Proof.
  intros Hd Hcls e d0 hook. unfold destroy_method. rewrite Hd.
  unfold className_passes in Hcls.
  cbn [set_own_listeners _config _element]. subst hook d0 e.
  destruct (truthy_className (_config c)) as [cls|] eqn:Hname.
  - apply bool_decide_eq_true_1 in Hcls. rewrite classList_call_passes by done.
    unfold emit, on_element.
    cbn [dom manager record set_dom set_own_listeners _element].
    rewrite dom_remove_listeners, manager_remove_listeners.
    destruct (onDestroy _ _ _) as [[c' d] m]. eexists. split; [reflexivity|].
    cbn [dom manager log listeners set_manager set_dom record fst snd].
    rewrite log_remove_listeners, <- app_assoc.
    do 3 (split; [done|]). intros l. by apply listeners_after_removal.
  - unfold emit, on_element.
    cbn [dom manager record set_dom set_own_listeners _element].
    rewrite dom_remove_listeners, manager_remove_listeners.
    destruct (onDestroy _ _ _) as [[c' d] m]. eexists. split; [reflexivity|].
    cbn [dom manager log listeners set_manager set_dom record fst snd].
    rewrite log_remove_listeners, <- app_assoc.
    do 3 (split; [done|]). intros l. by apply listeners_after_removal.
Qed.

(** An exception of [classList.remove] leaves [destroy()] after the
    listeners were removed and before the event, the hook and the mark. *)
Lemma destroy_method_throws c p :
  _destroyed c = false ->
  className_passes (_config c) = false ->
  exists exception p1,
    destroy_method c p = Thrown exception (set_own_listeners [] c, p1)
    /\ log p1 = log p ++ map Unlisten (_listeners c)
    /\ (forall l, l ∈ listeners p1 <-> l ∈ listeners p /\ l ∉ _listeners c).
Proof.
  intros Hd Hcls. unfold destroy_method. rewrite Hd.
  unfold className_passes in Hcls.
  cbn [set_own_listeners _config _element].
  destruct (truthy_className (_config c)) as [cls|] eqn:Hname; [|done].
  apply bool_decide_eq_false_1 in Hcls.
  destruct (validate_token cls) as [exception|] eqn:Hv; [|done].
  rewrite (classList_call_throws _ _ _ _ exception) by done.
  eexists _, _. split; [reflexivity|].
  cbn [log listeners on_element set_dom].
  rewrite log_remove_listeners.
  split; [done|]. intros l. by apply listeners_after_removal.
Qed.

Lemma invoke_done self (m : Component W -> Page -> Outcome (Component W * Page))
    w c c' p' :
  heap w !! self = Some c ->
  m c (page w) = Done (c', p') ->
  invoke self m w = Done {| heap := <[self := c']> (heap w); page := p' |}.
Proof. intros Hc Hm. unfold invoke. by rewrite Hc, Hm. Qed.

Lemma invoke_thrown self (m : Component W -> Page -> Outcome (Component W * Page))
    w c e c' p' :
  heap w !! self = Some c ->
  m c (page w) = Thrown e (c', p') ->
  invoke self m w = Thrown e {| heap := <[self := c']> (heap w); page := p' |}.
Proof. intros Hc Hm. unfold invoke. by rewrite Hc, Hm. Qed.

End Destroy.
(** X8. [destroy()] unregisters every listener the instance recorded,
    whether it returns or an exception leaves it: none of them is
    registered on the page afterwards. *)
Lemma destroy_unregisters {W : Type} `{Widget W} self (c : Component W) (w : World W) :
  heap w !! self = Some c ->
  _destroyed c = false ->
  forall l, l ∈ _listeners c -> l ∉ listeners (page (state (destroy self w))).
Proof.
  intros Hc Hd l Hl. unfold destroy.
  destruct (className_passes (_config c)) eqn:Hcls.
  - destruct (destroy_method_returns c (page w) Hd Hcls)
      as (p1 & Hrun & _ & _ & _ & Hls).
    rewrite (invoke_done _ _ _ _ _ _ Hc Hrun). cbn [state page].
    rewrite Hls. tauto.
  - destruct (destroy_method_throws c (page w) Hd Hcls)
      as (exception & p1 & Hrun & _ & Hls).
    rewrite (invoke_thrown _ _ _ _ _ _ _ Hc Hrun). cbn [state page].
    rewrite Hls. tauto.
Qed.

(** C8, as amended.  For an instance whose configured class name is one
    that [classList] takes, [destroy()] returns, and a second call
    returns too and changes nothing: the world after it is the world
    before it, instance, elements, registered listeners and event log
    included.  The first call on an instance that was not destroyed yet
    makes one call of [removeEventListener] per recorded listener,
    dispatches one destroy event, and hands the instance, the elements
    without the two classes and the validation manager to the cleanup
    hook once: what the hook returns is what the world holds. *)
Theorem C8_destroy_twice_is_noop {W : Type} `{Widget W}
    (self : nat) (w : World W) (c : Component W) :
  heap w !! self = Some c ->
  className_passes (_config c) = true ->
  exists w1,
    destroy self w = Done w1
    /\ destroy self w1 = Done w1
    /\ (_destroyed c = true -> w1 = w)
    /\ (_destroyed c = false ->
        let e := _element c in
        let d0 := match truthy_className (_config c) with
                  | Some cls =>
                      Dom.update e (classList_remove cls)
                        (Dom.update e (classList_remove "np-component")
                           (dom (page w)))
                  | None =>
                      Dom.update e (classList_remove "np-component") (dom (page w))
                  end in
        let hook := onDestroy (set_own_listeners [] c) d0 (manager (page w)) in
        heap w1 = <[self := set_destroyed true hook.1.1]> (heap w)
        /\ dom (page w1) = hook.1.2
        /\ manager (page w1) = hook.2
        /\ log (page w1)
           = log (page w) ++ map Unlisten (_listeners c)
             ++ [Dispatch (Node e) "np:destroy" NoDetail]
        /\ forall l, l ∈ listeners (page w1)
                     <-> l ∈ listeners (page w) /\ l ∉ _listeners c).
Proof.
  intros Hc Hcls.
  assert (Hagain : forall c1 p1, _destroyed c1 = true ->
            destroy self {| heap := <[self := c1]> (heap w); page := p1 |}
            = Done {| heap := <[self := c1]> (heap w); page := p1 |}).
  { intros c1 p1 Hd1. unfold destroy.
    erewrite invoke_done;
      [| cbn [heap]; apply list_lookup_insert_eq; by apply lookup_lt_Some in Hc
       | by apply destroy_method_destroyed ].
    cbn [heap page]. by rewrite list_insert_insert_eq. }
  destruct (_destroyed c) eqn:Hd.
  - exists {| heap := <[self := c]> (heap w); page := page w |}.
    split; [|split; [|split; [|done]]].
    + unfold destroy. apply (invoke_done _ _ _ c); [done|].
      by apply destroy_method_destroyed.
    + by apply Hagain.
    + intros _. destruct w as [hp pg]. cbn [heap page] in *.
      by rewrite list_insert_id.
  - destruct (destroy_method_returns c (page w) Hd Hcls)
      as (p1 & Hrun & Hdom & Hman & Hlog & Hls).
    eexists. split; [apply (invoke_done _ _ _ c); [done | exact Hrun]|].
    split; [by apply Hagain|]. split; [done|]. intros _. cbn [heap page].
    repeat split; try done; by apply Hls.
Qed.
Section DestroyExamples.

#[local] Existing Instance Plain.Plain_widget.

Lemma C8_destroy_twice_counterexample :
  let w0 : World unit :=
    {| heap := []; page := initial_page (fun _ => blank "div") |} in
  let constructed := Plain.new_plain 3%nat no_config w0 in
  let updated :=
    update 0%nat {| theme := None; className := Some "card wide";
                    disabled := None |} (state constructed) in
  let first := destroy 0%nat (state updated) in
  let second := destroy 0%nat (state first) in
  thrown constructed = None
  /\ thrown updated = Some InvalidCharacterError
  /\ thrown first = Some InvalidCharacterError
  /\ thrown second = Some InvalidCharacterError
  /\ (_destroyed <$> heap (state second) !! 0%nat) = Some false.
Proof. vm_compute. repeat split. Qed.

Lemma C8_destroy_twice_witness :
  let w0 : World unit :=
    {| heap := []; page := initial_page (fun _ => blank "div") |} in
  let w := state (Plain.new_plain 3%nat
                    {| theme := None; className := Some "hero";
                       disabled := None |} w0) in
  exists w1,
    destroy 0%nat w = Done w1
    /\ destroy 0%nat w1 = Done w1
    /\ listeners (page w) = [ThemeListener 0 0]
    /\ classList (dom (page w) 3%nat) = ["np-component"; "hero"]
    /\ classList (dom (page w1) 3%nat) = []
    /\ log (page w1)
       = [Unlisten (ThemeListener 0 0); Dispatch (Node 3%nat) "np:destroy" NoDetail]
    /\ ThemeListener 0 0 ∉ listeners (page w1).
Proof.
  intros w0 w.
  let v := eval vm_compute in (heap w !! 0%nat) in
  match v with
  | Some ?c0 =>
      destruct (C8_destroy_twice_is_noop 0%nat w c0
                  ltac:(vm_compute; reflexivity) ltac:(vm_compute; reflexivity))
        as (w1 & Hfirst & Hsecond & _ & Hlive)
  end.
  destruct (Hlive eq_refl) as (_ & Hdom & _ & Hlog & Hls).
  exists w1. split; [exact Hfirst|]. split; [exact Hsecond|].
  split; [vm_compute; reflexivity|]. split; [vm_compute; reflexivity|].
  split; [rewrite Hdom; vm_compute; reflexivity|].
  split; [rewrite Hlog; vm_compute; reflexivity|].
  rewrite Hls. intros [_ Hnot]. apply Hnot. vm_compute. apply list_elem_of_here.
Defined.

End DestroyExamples.

(** ** The theme broadcast *)

Lemma style_applyNeumorphicStyles t el :
  style (applyNeumorphicStyles t el) !! "background-color"
  = Some (surface (colors t)).
Proof.
  unfold applyNeumorphicStyles, setProperty. simpl.
  rewrite !lookup_insert_ne by done. apply lookup_insert_eq.
Qed.

Lemma style_classList_add cls el : style (classList_add cls el) = style el.
Proof. unfold classList_add. by case_bool_decide. Qed.

Section ThemeBroadcast.

Context {W : Type} `{Widget W}.

Implicit Types (c : Component W) (p : Page) (w : World W).

(** [applyBaseStyles] touches the element of the component only. *)
Lemma applyBaseStyles_frame c p :
  let p' := state (applyBaseStyles c p) in
  currentTheme p' = currentTheme p
  /\ root_css p' = root_css p
  /\ listeners p' = listeners p
  /\ log p' = log p
  /\ forall k, k <> _element c -> dom p' k = dom p k.
Proof.
  unfold applyBaseStyles, classList_call.
  destruct (truthy_className (_config c)) as [cls|];
    [destruct (validate_token cls)|]; cbn [state];
    (do 4 (split; [reflexivity|])); intros k Hk;
    by rewrite ?dom_on_element_other.
Qed.

(** With a class name that [classList] takes, [applyBaseStyles] paints
    the element with the surface colour of the component's theme. *)
Lemma applyBaseStyles_paints c p :
  className_passes (_config c) = true ->
  exists p', applyBaseStyles c p = Done p'
    /\ style (dom p' (_element c)) !! "background-color"
       = Some (surface (colors (_theme c))).
Proof.
  intros Hcls. unfold applyBaseStyles. unfold className_passes in Hcls.
  destruct (truthy_className (_config c)) as [cls|].
  - apply bool_decide_eq_true_1 in Hcls. rewrite classList_call_passes by done.
    eexists. split; [reflexivity|]. rewrite dom_on_element_same.
    apply style_applyNeumorphicStyles.
  - eexists. split; [reflexivity|]. rewrite dom_on_element_same.
    apply style_applyNeumorphicStyles.
Qed.


Lemma theme_change_handler_other c p :
  theme_is_preset (_config c) = false ->
  theme_change_handler c p = Done (c, p).
Proof. intros Hp. unfold theme_change_handler. by rewrite Hp. Qed.

(** What the handler of the theme change leaves, whether it returns or
    throws: the instance has the current theme when its configured theme
    is a preset name, and is unchanged otherwise. *)
Lemma theme_change_handler_state c p :
  let s := state (theme_change_handler c p) in
  s.1 = (if theme_is_preset (_config c) then set_theme (currentTheme p) c else c)
  /\ s.2 = (if theme_is_preset (_config c)
            then state (applyBaseStyles (set_theme (currentTheme p) c) p)
            else p).
Proof.
  unfold theme_change_handler, onThemeChange, getCurrentTheme.
  destruct (theme_is_preset (_config c)); [|done].
  by destruct (applyBaseStyles _ p).
Qed.

Lemma invoke_state self (m : Component W -> Page -> Outcome (Component W * Page))
    w c :
  heap w !! self = Some c ->
  state (invoke self m w)
  = {| heap := <[self := (state (m c (page w))).1]> (heap w);
       page := (state (m c (page w))).2 |}.
Proof.
  intros Hc. unfold invoke. rewrite Hc.
  by destruct (m c (page w)) as [[c' p']|e [c' p']].
Qed.

Lemma invoke_state_none self
    (m : Component W -> Page -> Outcome (Component W * Page)) w :
  heap w !! self = None -> state (invoke self m w) = w.
Proof. intros Hc. unfold invoke. by rewrite Hc. Qed.



(** The listeners change neither the theme store nor the registry, and
    add or remove no instance. *)
Lemma deliver_theme_change_store (ls : list Listener) : forall w,
  let w' := foldl (fun w l => deliver_theme_change l w) w ls in
  currentTheme (page w') = currentTheme (page w)
  /\ root_css (page w') = root_css (page w)
  /\ listeners (page w') = listeners (page w)
  /\ length (heap w') = length (heap w).
Proof.
  induction ls as [|l ls IH]; intros w w'; [done|].
  subst w'. cbn [foldl].
  destruct (IH (deliver_theme_change l w)) as (Hth & Hcss & Hls & Hlen).
  rewrite Hth, Hcss, Hls, Hlen.
  destruct l as [id owner | id owner node type label]; [|done].
  cbn [deliver_theme_change].
  destruct (heap w !! owner) as [co|] eqn:Hco;
    [|by rewrite invoke_state_none].
  rewrite (invoke_state _ _ _ co) by done.
  destruct (theme_change_handler_state co (page w)) as [-> ->].
  cbn [heap page]. rewrite length_insert.
  destruct (theme_is_preset (_config co)); [|done].
  by destruct (applyBaseStyles_frame (set_theme (currentTheme (page w)) co) (page w))
    as (-> & -> & -> & _).
Qed.

(** An instance whose configured theme is not a preset name goes
    through the broadcast unchanged. *)
Lemma deliver_theme_change_skips (ls : list Listener) : forall w self c,
  heap w !! self = Some c ->
  theme_is_preset (_config c) = false ->
  heap (foldl (fun w l => deliver_theme_change l w) w ls) !! self = Some c.
Proof.
  induction ls as [|l ls IH]; intros w self c Hc Hpre; [done|].
  cbn [foldl]. apply IH; [|done].
  destruct l as [id owner | id owner node type label]; [|done].
  cbn [deliver_theme_change].
  destruct (heap w !! owner) as [co|] eqn:Hco;
    [|by rewrite invoke_state_none].
  rewrite (invoke_state _ _ _ co) by done. cbn [heap].
  destruct (decide (owner = self)) as [->|Hne].
  - assert (co = c) as -> by congruence.
    rewrite (theme_change_handler_other c (page w) Hpre). cbn [state fst].
    by rewrite list_insert_id.
  - by rewrite list_lookup_insert_ne.
Qed.


End ThemeBroadcast.


Section ThemeExamples.

#[local] Existing Instance Plain.Plain_widget.


(** Why the class name is named in C5 as amended.  An instance with the
    theme ['light'] gets a class name of two words from an [update],
    which throws in [classList.add] after it has stored the
    configuration.  From then on the handler of the theme change throws
    in [applyBaseStyles] before it writes a style: after
    [setTheme('dark')] the element still has the surface colour of the
    light theme. *)
Example preset_instance_with_two_word_class_keeps_colours :
  let w0 : World unit :=
    {| heap := []; page := initial_page (fun _ => blank "div") |} in
  let constructed := Plain.new_plain 1%nat
                       {| theme := Some (Preset preset_light);
                          className := None; disabled := None |} w0 in
  let updated := update 0%nat
                   {| theme := None; className := Some "card wide";
                      disabled := None |} (state constructed) in
  let w := setTheme (Preset preset_dark) (state updated) in
  thrown constructed = None
  /\ thrown updated = Some InvalidCharacterError
  /\ (exists c, live 0%nat c w /\ _element c = 1%nat
                /\ theme (_config c) = Some (Preset preset_light)
                /\ className (_config c) = Some "card wide")
  /\ currentTheme (page w) = darkTheme
  /\ backgroundColor 1%nat w = Some (surface (colors lightTheme))
  /\ surface (colors lightTheme) <> surface (colors darkTheme).
Proof.
  cbv zeta. split; [|split; [|split; [|split; [|split]]]].
  - reflexivity.
  - vm_compute. reflexivity.
  - eexists. split; [|split; [|split]].
    + split; [vm_compute; reflexivity|]. split; [reflexivity|].
      exists 0%nat. vm_compute. set_solver.
    + reflexivity.
    + reflexivity.
    + reflexivity.
  - reflexivity.
  - vm_compute. reflexivity.
  - discriminate.
Qed.


End ThemeExamples.

(** ** Button: the loading state *)

Import Validators.

Lemma setLoading_true_effect (c : Component Button.ButtonFields) (p : Page) :
  let '(c1, p1) := Button.setLoading true c p in
  Button.content c1 p1 = Button.loading_content
  /\ Button.is_disabled c1 p1 = true
  /\ Button._originalContent (widget c1) = Some (Button.content c p)
  /\ _element c1 = _element c
  /\ _config c1 = _config c.
Proof.
  unfold Button.setLoading, Button.content, Button.is_disabled. simpl.
  unfold emit, record, ensure_head_style. simpl.
  destruct (bool_decide _); simpl;
    unfold Dom.update; simpl; rewrite !decide_True by done; simpl.
  all: repeat split.
  all: try (unfold Button.appendChild, addClassName, classList_add;
            destruct (bool_decide _); reflexivity).
  all: unfold addClassName, classList_add; destruct (bool_decide _); simpl;
    unfold get_disabled, assign_style; simpl;
    apply bool_decide_eq_true; rewrite lookup_insert_eq; eauto.
Qed.

Lemma get_disabled_set_disabled (b : bool) (el : Element) :
  get_disabled (set_disabled b el) = b.
Proof.
  unfold get_disabled, set_disabled. destruct b; simpl.
  - apply bool_decide_eq_true. rewrite lookup_insert_eq. eauto.
  - apply bool_decide_eq_false. rewrite lookup_delete_eq. by intros [? ?].
Qed.

Lemma setLoading_false_effect (c : Component Button.ButtonFields) (p : Page) :
  let '(c2, p2) := Button.setLoading false c p in
  Button.content c2 p2
  = (if truthy (Button._originalContent (widget c))
     then default [] (Button._originalContent (widget c))
     else Button.content c p)
  /\ Button.is_disabled c2 p2 = truthy_flag (disabled (_config c)).
Proof.
  unfold Button.setLoading, Button.content, Button.is_disabled.
  cbn [set_widget widget _element _config Button.set_loading
       Button.set_buttonConfig Button._originalContent].
  unfold emit, record. cbn [dom].
  rewrite !dom_on_element_same.
  split.
  - destruct (truthy (Button._originalContent (widget c)));
      [rewrite dom_on_element_same|];
      destruct (truthy_flag (disabled (_config c))); reflexivity.
  - unfold classList_remove, set_classList, get_disabled. cbn [attributes].
    fold (get_disabled
            (set_disabled (truthy_flag (disabled (_config c)))
               (dom (if truthy (Button._originalContent (widget c))
                     then on_element (_element c)
                            (set_innerHTML
                               (default [] (Button._originalContent (widget c)))) p
                     else p) (_element c)))).
    destruct (truthy_flag (disabled (_config c))); simpl;
      unfold get_disabled, assign_style; simpl.
    + apply bool_decide_eq_true. rewrite lookup_insert_eq. eauto.
    + apply bool_decide_eq_false. rewrite lookup_delete_eq. by intros [? ?].
Qed.

(** X14. For a button whose content is not empty, [setLoading(true)]
    shows the spinner and the loading text and disables the control, and
    [setLoading(false)] after it restores the content and enables the
    control again unless it is configured disabled. *)
Lemma setLoading_restores_nonempty_content
    (c : Component Button.ButtonFields) (p : Page) :
  Button.content c p <> [] ->
  let '(c1, p1) := Button.setLoading true c p in
  let '(c2, p2) := Button.setLoading false c1 p1 in
  Button.content c1 p1 = Button.loading_content
  /\ Button.is_disabled c1 p1 = true
  /\ Button.content c2 p2 = Button.content c p
  /\ Button.is_disabled c2 p2 = truthy_flag (disabled (_config c)).
Proof.
  intros Hne.
  pose proof (setLoading_true_effect c p) as H1.
  destruct (Button.setLoading true c p) as [c1 p1].
  destruct H1 as (Hc1 & Hd1 & Ho1 & He1 & Hcfg1).
  pose proof (setLoading_false_effect c1 p1) as H2.
  destruct (Button.setLoading false c1 p1) as [c2 p2].
  destruct H2 as (Hc2 & Hd2).
  repeat split; try done.
  - rewrite Hc2, Ho1. simpl.
    destruct (Button.content c p); [done | reflexivity].
  - by rewrite Hd2, Hcfg1.
Qed.

(** The method at the content that it does not restore: a button whose
    content is empty.  [setLoading(true)] saves the empty string;
    [setLoading(false)] restores the saved content only when it is truthy,
    so the spinner and the loading text stay in the element. *)
Lemma setLoading_empty_content_not_restored
    (c : Component Button.ButtonFields) (p : Page) :
  let p0 := on_element (_element c) (set_innerHTML []) p in
  let '(c1, p1) := Button.setLoading true c p0 in
  let '(c2, p2) := Button.setLoading false c1 p1 in
  Button.content c p0 = []
  /\ Button.content c1 p1 = Button.loading_content
  /\ Button.content c2 p2 = Button.loading_content
  /\ Button.content c2 p2 <> Button.content c p0.
Proof.
  intros p0.
  assert (H0 : Button.content c p0 = []).
  { unfold Button.content. subst p0. by rewrite dom_on_element_same. }
  pose proof (setLoading_true_effect c p0) as H1.
  destruct (Button.setLoading true c p0) as [c1 p1].
  destruct H1 as (Hc1 & Hd1 & Ho1 & He1 & Hcfg1).
  pose proof (setLoading_false_effect c1 p1) as H2.
  destruct (Button.setLoading false c1 p1) as [c2 p2].
  destruct H2 as (Hc2 & Hd2).
  assert (Hc2' : Button.content c2 p2 = Button.loading_content).
  { rewrite Hc2, Ho1, H0. simpl. exact Hc1. }
  repeat split; try done.
  rewrite Hc2', H0. discriminate.
Qed.

(** What the constructors leave when [init()] throws inside
    [super(...)]: no instance, no listener, and the contents of the
    elements as they were. *)
Lemma construct_throws_in_init {W : Type}
    (init bindEvents : nat -> Component unit -> Page
                       -> Outcome (Component unit * Page))
    (fields : Component unit -> Page -> W) element config (w : World W) :
  (forall self c p, exists exception p',
      init self c p = Thrown exception (c, p')
      /\ listeners p' = listeners p
      /\ forall k, innerHTML (dom p' k) = innerHTML (dom p k)) ->
  exists exception w',
    construct init bindEvents fields element config w = Thrown exception w'
    /\ heap w' = heap w
    /\ listeners (page w') = listeners (page w)
    /\ forall k, innerHTML (dom (page w') k) = innerHTML (dom (page w) k).
Proof.
  intros Hinit. unfold construct.
  match goal with
  | |- context [init ?self ?c ?p] =>
      destruct (Hinit self c p) as (exception & p' & -> & Hls & Hcontent)
  end.
  by eexists _, _.
Qed.

Lemma innerHTML_classList_add cls el :
  innerHTML (classList_add cls el) = innerHTML el.
Proof. unfold classList_add. by case_bool_decide. Qed.

(** [applyBaseStyles] registers nothing and leaves the contents alone. *)
Lemma applyBaseStyles_contents {W : Type} (c : Component W) (p : Page) :
  let p' := state (applyBaseStyles c p) in
  listeners p' = listeners p
  /\ forall k, innerHTML (dom p' k) = innerHTML (dom p k).
Proof.
  unfold applyBaseStyles, classList_call.
  destruct (truthy_className (_config c)) as [cls|];
    [destruct (validate_token cls)|]; cbn [state];
    (split; [reflexivity|]); intros k;
    (destruct (decide (k = _element c)) as [->|Hne];
     [rewrite !dom_on_element_same
     | rewrite !dom_on_element_other by done; reflexivity]);
    unfold addClassName, applyNeumorphicStyles;
    cbn [innerHTML setProperty set_style]; by rewrite ?innerHTML_classList_add.
Qed.

(** C7 at the input on which the code departs from it.
    [new ButtonComponent(element, config)] throws for every element and
    every configuration: for an element that is no button by the guard
    of the constructor, and for a button inside [super(...)], where
    [init()] reads [this._buttonConfig] before the constructor has
    assigned it (or, with a class name that [classList] does not take,
    one statement earlier).  No instance is returned, no listener is
    registered, and the content of the element is what it was: there is
    no button on which [setLoading] could run. *)
Theorem C7_button_constructor_throws (element : eid)
    (config : Button.ButtonOptions) (w : World Button.ButtonFields) :
  exists exception w',
    Button.new_button element config w = Thrown exception w'
    /\ heap w' = heap w
    /\ listeners (page w') = listeners (page w)
    /\ forall k, innerHTML (dom (page w') k) = innerHTML (dom (page w) k).
Proof.
  unfold Button.new_button.
  destruct (Button.is_button (dom (page w) element)); cbn [negb];
    [|by eexists _, _].
  apply construct_throws_in_init. intros self c p. unfold Button.button_init.
  pose proof (applyBaseStyles_contents c p) as Hbase.
  destruct (applyBaseStyles c p) as [p'|exception p']; cbn [state] in Hbase;
    destruct Hbase as [Hls Hcontent].
  - eexists _, _. split; [reflexivity|]. split; [exact Hls|].
    intros k. rewrite <- Hcontent.
    destruct (decide (k = _element c)) as [->|Hne];
      [rewrite dom_on_element_same | by rewrite dom_on_element_other].
    unfold addClassName. apply innerHTML_classList_add.
  - by eexists _, _.
Qed.

(** ** Input, Textarea and Password *)

(** C9. When an Input (a Password, which inherits the method, included)
    or a Textarea has no [validate] rule set, or has [showValidation]
    false, [validate()] returns [{isValid: true, errors: []}] and leaves
    the instance, with its stored validation result, and the page, with
    the element and the validation manager, exactly as they were; no
    event is emitted. *)
Theorem C9_validate_without_rules_changes_nothing {W : Type}
    (fields : W -> Input.InputFields) (with_fields : Input.InputFields -> W -> W)
    (c : Component W) (ct : Component Textarea.TextareaFields) (p : Page) :
  (Input.cfg_validate (fields (widget c)) = None
   \/ Input.cfg_showValidation (fields (widget c)) = false ->
   Input.validate fields with_fields c p
   = ({| isValid := true; errors := [] |}, c, p))
  /\ (Textarea.cfg_validate (widget ct) = None
      \/ Textarea.cfg_showValidation (widget ct) = false ->
      Textarea.validate ct p
      = ({| isValid := true; errors := [] |}, ct, p)).
Proof.
  split.
  - intros Hor. unfold Input.validate, Input.performValidation.
    destruct Hor as [-> | Hs]; [reflexivity|].
    rewrite Hs. by destruct (Input.cfg_validate _).
  - intros Hor. unfold Textarea.validate, Textarea.performValidation.
    destruct Hor as [-> | Hs]; [reflexivity|].
    rewrite Hs. by destruct (Textarea.cfg_validate _).
Qed.

(** C10. [getPasswordStrength()] is [null] exactly when the current
    value of the field is the empty string; otherwise it is the result of
    [validatePasswordStrength] on the current value. *)
Theorem C10_getPasswordStrength_null_iff_empty
    (c : Component Password.PasswordFields) (p : Page) :
  let password := Password.getValue c p in
  (Password.getPasswordStrength c p = None <-> password = [])
  /\ (password <> [] ->
      Password.getPasswordStrength c p
      = Some (validatePasswordStrength password)).
Proof.
  intros password. unfold Password.getPasswordStrength.
  fold password. destruct password; simpl; split; try done.
Qed.

Lemma C9_validate_without_rules_witness :
  let rules := RuleCfg {| required := Some true; email := None; minLength := None;
                          maxLength := None; pattern := None; custom := None |} in
  let c : Component Input.InputFields :=
    {| _element := 0%nat; _config := no_config; _theme := lightTheme;
       _listeners := []; _destroyed := false;
       widget := Input.input_fields
                   {| Input.input_base := no_config;
                      Input.validate_rules := Some rules;
                      Input.placeholder := None; Input.errorMessage := None;
                      Input.showValidation := Some false;
                      Input.validateOn := None |} |} in
  let ct : Component Textarea.TextareaFields :=
    {| _element := 1%nat; _config := no_config; _theme := lightTheme;
       _listeners := []; _destroyed := false;
       widget := {| Textarea.cfg_autoResize := true;
                    Textarea.cfg_maxHeight := "200px";
                    Textarea.cfg_minHeight := "80px";
                    Textarea.cfg_placeholder := None;
                    Textarea.cfg_validate := None;
                    Textarea.cfg_validateOn := Input.on_blur;
                    Textarea.cfg_showValidation := true;
                    Textarea._validationResult := None |} |} in
  let p := initial_page (fun _ => blank "input") in
  Input.input_validate c p = ({| isValid := true; errors := [] |}, c, p)
  /\ Textarea.validate ct p = ({| isValid := true; errors := [] |}, ct, p).
Proof.
  intros rules c ct p.
  destruct (C9_validate_without_rules_changes_nothing
              (fun f => f) (fun f _ => f) c ct p) as [Hi Ht].
  split; [apply Hi; by right | apply Ht; by left].
Defined.

(** The same input with [showValidation] left at its default: the empty
    required field is reported with the required-field message, the
    result is stored, the manager shows it and the element is marked. *)
Example input_validate_required_empty :
  let rules := RuleCfg {| required := Some true; email := Some true;
                          minLength := None; maxLength := None;
                          pattern := None; custom := None |} in
  let c : Component Input.InputFields :=
    {| _element := 0%nat; _config := no_config; _theme := lightTheme;
       _listeners := []; _destroyed := false;
       widget := Input.input_fields
                   {| Input.input_base := no_config;
                      Input.validate_rules := Some rules;
                      Input.placeholder := None; Input.errorMessage := None;
                      Input.showValidation := None;
                      Input.validateOn := None |} |} in
  let p := initial_page (fun _ => blank "input") in
  let '(r, c', p') := Input.input_validate c p in
  r = {| isValid := false; errors := [msg_required] |}
  /\ Input._validationResult (widget c') = Some r
  /\ ValidationManager.getValidationState 0%nat p' = Some r
  /\ (error_textContent <$> errorElements (manager p') !! 0%nat) = Some msg_required
  /\ attributes (dom p' 0%nat) !! "aria-invalid" = Some "true"
  /\ classList (dom p' 0%nat) = ["np-error"]
  /\ log p' = [Dispatch (Node 0%nat) "np:validation"
                 (ValidationDetail r (@nil N))].
Proof. vm_compute. repeat split. Qed.

Lemma C10_getPasswordStrength_witness :
  let fields v : Component Password.PasswordFields * Page :=
    ({| _element := 0%nat; _config := no_config; _theme := lightTheme;
        _listeners := []; _destroyed := false;
        widget := {| Password.input_fields :=
                       Input.input_fields
                         {| Input.input_base := no_config;
                            Input.validate_rules := None;
                            Input.placeholder := None;
                            Input.errorMessage := None;
                            Input.showValidation := None;
                            Input.validateOn := None |};
                     Password.cfg_showToggle := true;
                     Password.cfg_togglePosition := Password.position_right;
                     Password.cfg_strengthIndicator := false;
                     Password.cfg_maskCharacter := [8226%N];
                     Password._isVisible := false;
                     Password._toggleButton := None;
                     Password._strengthIndicator := None;
                     Password._originalType := "password" |} |},
     initial_page (fun _ => set_value v (blank "input"))) in
  Password.getPasswordStrength (fields []).1 (fields []).2 = None
  /\ Password.getPasswordStrength (fields (lit "123")).1 (fields (lit "123")).2
     = Some (validatePasswordStrength (lit "123")).
Proof.
  intros fields. split.
  - apply (C10_getPasswordStrength_null_iff_empty (fields []).1 (fields []).2).
    reflexivity.
  - apply (C10_getPasswordStrength_null_iff_empty
             (fields (lit "123")).1 (fields (lit "123")).2).
    discriminate.
Defined.


(** ** Toggle: radio groups *)

Section ToggleFacts.

Import Toggle.

Implicit Types (c : Component ToggleFields) (p : Page) (w : World ToggleFields).

Lemma checked_on_element e (f : Element -> Element) p k :
  (forall el, checked (f el) = checked el) ->
  checked (dom (on_element e f p) k) = checked (dom p k).
Proof.
  intros Hf. unfold on_element, Dom.update. simpl.
  destruct (decide (k = e)); [apply Hf | done].
Qed.

Lemma checked_assign_style prop v el :
  checked (assign_style prop v el) = checked el.
Proof. unfold assign_style. by destruct (bool_decide _). Qed.

Lemma checked_addClassName cls el : checked (addClassName cls el) = checked el.
Proof. unfold addClassName, classList_add. by destruct (bool_decide _). Qed.

Lemma checked_updateVisualState c p k :
  checked (dom (updateVisualState c p) k) = checked (dom p k).
Proof.
  unfold updateVisualState.
  rewrite checked_on_element by done.
  destruct (cfg_type (widget c));
    unfold updateSwitchState, updateCheckboxState, updateRadioState;
    destruct (_wrapper (widget c)), (_slider (widget c)); try done;
    try destruct (switch_dimensions _);
    destruct (_isChecked (widget c));
    repeat (rewrite checked_on_element;
            [| intros; rewrite ?checked_assign_style, ?checked_addClassName; done]);
    done.
Qed.

Lemma dom_emitChange self c p : dom (emitChange self c p) = dom p.
Proof. unfold emitChange. by destruct (cfg_onChange (widget c)). Qed.

Lemma listeners_updateVisualState c p :
  listeners (updateVisualState c p) = listeners p.
Proof.
  unfold updateVisualState, updateSwitchState, updateCheckboxState,
    updateRadioState.
  destruct (cfg_type (widget c)), (_wrapper (widget c)), (_slider (widget c));
    try done; try destruct (switch_dimensions _);
    by destruct (_isChecked (widget c)).
Qed.

Lemma listeners_emitChange self c p :
  listeners (emitChange self c p) = listeners p.
Proof. unfold emitChange. by destruct (cfg_onChange (widget c)). Qed.

(** The [change] handler copies the state of the native input. *)
Lemma change_handler_spec self c p :
  let '(c', p') := change_handler self c p in
  _isChecked (widget c') = checked (dom p (_originalInput (widget c)))
  /\ _originalInput (widget c') = _originalInput (widget c)
  /\ (forall k, checked (dom p' k) = checked (dom p k)).
Proof.
  unfold change_handler. repeat split.
  intros k. by rewrite dom_emitChange, checked_updateVisualState.
Qed.

End ToggleFacts.

Section RadioGroup.

Import Toggle.

Implicit Types (c : Component ToggleFields) (p : Page) (w : World ToggleFields).

Lemma deliver_change_step w0 a ea flags (l : Listener) w :
  listeners_on_own_input w0 ->
  l ∈ listeners (page w0) ->
  flags ea = true ->
  delivering w0 a ea flags w ->
  delivering w0 a ea flags (deliver_change ea l w).
Proof.
  intros Hown Hin Hea Hinv.
  destruct l as [id owner | id owner node type label]; [exact Hinv|].
  cbn [deliver_change]. case_bool_decide as Hmatch; [|exact Hinv].
  destruct Hmatch as (-> & -> & ->).
  unfold Base.call. destruct (heap w !! owner) as [co'|] eqn:Hco'; [|exact Hinv].
  destruct Hinv as (Hlen & Hflags & Hheap).
  assert (Hlt : (owner < length (heap w0))%nat).
  { rewrite <- Hlen. by apply lookup_lt_Some in Hco'. }
  destruct (lookup_lt_is_Some_2 _ _ Hlt) as [co Hco].
  pose proof (Hown _ _ _ _ Hin Hco) as Hinput.
  destruct (Hheap _ _ Hco) as (co'' & Hco'' & Hsame & _).
  assert (co'' = co') as -> by congruence.
  pose proof (change_handler_spec owner co' (page w)) as Hspec.
  destruct (change_handler owner co' (page w)) as [c1 p1].
  destruct Hspec as (Hchk & Hinp & Hdom).
  rewrite Hsame, Hinput, Hflags, Hea in Hchk.
  split; [|split]; cbn [heap page].
  - by rewrite length_insert.
  - intros k. by rewrite Hdom.
  - intros b cb Hcb. destruct (decide (b = owner)) as [->|Hne].
    + rewrite list_lookup_insert_eq by (by rewrite Hlen).
      exists c1. assert (cb = co) as -> by congruence.
      repeat split; try done. by rewrite Hinp.
    + rewrite list_lookup_insert_ne by done. by apply Hheap.
Qed.

Lemma deliver_change_all w0 a ea flags (ls : list Listener) : forall w,
  listeners_on_own_input w0 ->
  (forall l, l ∈ ls -> l ∈ listeners (page w0)) ->
  flags ea = true ->
  delivering w0 a ea flags w ->
  delivering w0 a ea flags (foldl (fun w l => deliver_change ea l w) w ls).
Proof.
  induction ls as [|l ls IH]; intros w Hown Hsub Hea Hinv; [done|].
  cbn [foldl]. apply IH; try done.
  - intros l' Hl'. apply Hsub. by right.
  - apply deliver_change_step; try done. apply Hsub. by left.
Qed.

End RadioGroup.

Lemma setChecked_true_is_check (self : nat) (w : World Toggle.ToggleFields) :
  Toggle.setChecked true self w = Toggle.check self w.
Proof.
  unfold Toggle.setChecked, Toggle.check.
  by destruct (Toggle.isChecked self w) as [[]|].
Qed.

(** The methods on two radio toggles as the constructor would have left
    them, on two inputs named "plan", each with its [change] listener
    registered: after [check()] on the second and then [check()] on the
    first, the platform has unchecked the native input of the second,
    firing no event, and the second instance still reports
    [isChecked() = true].  [toggle()] writes its own instance; the
    [change] listener, which is what keeps [_isChecked] equal to the
    native state, hears nothing. *)
Example radio_sibling_keeps_stale_state :
  let radio_input :=
    setAttribute "name" "plan" (setAttribute "type" "radio" (blank "input")) in
  let instance (input wrapper slider : eid) : Component Toggle.ToggleFields :=
    {| _element := wrapper; _config := no_config; _theme := lightTheme;
       _listeners := [NodeListener input input input "change" Toggle.sync_label];
       _destroyed := false;
       widget := {| Toggle.cfg_type := Toggle.radio; Toggle.cfg_size := Utils.md;
                    Toggle.cfg_animated := true; Toggle.cfg_checked := false;
                    Toggle.cfg_onChange := false; Toggle._isChecked := false;
                    Toggle._wrapper := Some wrapper;
                    Toggle._slider := Some slider;
                    Toggle._originalInput := input |} |} in
  let w2 : World Toggle.ToggleFields :=
    {| heap := [instance 0%nat 10%nat 11%nat; instance 1%nat 12%nat 13%nat];
       page := set_listeners
                 [NodeListener 0 0 0%nat "change" Toggle.sync_label;
                  NodeListener 1 1 1%nat "change" Toggle.sync_label] 2%nat
                 (initial_page
                    (fun k => if (k <? 2)%nat then radio_input else blank "div")) |} in
  let w3 := Toggle.check 1%nat w2 in
  let w4 := Toggle.check 0%nat w3 in
  Toggle.same_group (dom (page w4) 0%nat) (dom (page w4) 1%nat) = true
  /\ Toggle.isChecked 1%nat w3 = Some true
  /\ Toggle.isChecked 0%nat w4 = Some true
  /\ checked (dom (page w4) 0%nat) = true
  /\ checked (dom (page w4) 1%nat) = false
  /\ Toggle.isChecked 1%nat w4 = Some true.
Proof. vm_compute. repeat split. Qed.

(** The methods on instances as the constructor would have left them.
    After [check()] (or [setChecked(true)], or [toggle()]) on an enabled,
    unchecked instance, that instance reports [isChecked() = true] and
    its native input is checked; the platform unchecks the native inputs
    of the other radio buttons of its group; and the [_isChecked] field
    of every other instance, bound to another input, is not written. *)
Lemma radio_check_updates_only_the_instance
    (w : World Toggle.ToggleFields) (a : nat)
    (ca : Component Toggle.ToggleFields) :
  heap w !! a = Some ca ->
  truthy_flag (disabled (_config ca)) = false ->
  Toggle._isChecked (widget ca) = false ->
  Toggle.listeners_on_own_input w ->
  let ea := Toggle._originalInput (widget ca) in
  let w' := Toggle.check a w in
  Toggle.setChecked true a w = w'
  /\ Toggle.toggle a w = w'
  /\ Toggle.isChecked a w' = Some true
  /\ checked (dom (page w') ea) = true
  /\ (forall k, k <> ea ->
        Toggle.same_group (dom (page w) ea) (dom (page w) k) = true ->
        checked (dom (page w') k) = false)
  /\ (forall b cb, b <> a -> heap w !! b = Some cb ->
        Toggle._originalInput (widget cb) <> ea ->
        Toggle.isChecked b w' = Some (Toggle._isChecked (widget cb))).
Proof.
  intros Hca Hen Hun Hown ea w'.
  assert (Hcheck : Toggle.check a w = Toggle.toggle a w).
  { unfold Toggle.check, Toggle.isChecked. by rewrite Hca; simpl; rewrite Hun. }
  subst w'.
  split; [apply setChecked_true_is_check|].
  split; [by rewrite Hcheck|].
  rewrite Hcheck. unfold Toggle.toggle. rewrite Hca, Hen, Hun.
  cbn [negb].
  set (c1 := set_widget (Toggle.set_isChecked true (widget ca)) ca).
  change (Toggle._originalInput (widget c1)) with ea.
  change (Toggle._isChecked (widget c1)) with true.
  set (flags := fun k => checked (Toggle.set_checked ea true (dom (page w)) k)).
  set (p4 := record _ _).
  assert (Hls : listeners p4 = listeners (page w)).
  { subst p4. cbn [listeners record].
    by rewrite listeners_emitChange, listeners_updateVisualState. }
  assert (Hea : flags ea = true).
  { subst flags. unfold Toggle.set_checked. by rewrite decide_True. }
  assert (Hstart : Toggle.delivering w a ea flags
                     {| heap := <[a := c1]> (heap w); page := p4 |}).
  { split; [|split]; cbn [heap page].
    - by rewrite length_insert.
    - intros k. subst p4. cbn [dom record].
      by rewrite dom_emitChange, checked_updateVisualState.
    - intros b cb Hcb. destruct (decide (b = a)) as [->|Hne].
      + rewrite list_lookup_insert_eq by (by apply lookup_lt_Some in Hca).
        exists c1. assert (cb = ca) as -> by congruence. done.
      + rewrite list_lookup_insert_ne by done. exists cb. done. }
  pose proof (deliver_change_all w a ea flags (listeners p4) _ Hown
                ltac:(by rewrite Hls) Hea Hstart) as (Hlen & Hflags & Hheap).
  split; [|split; [|split]].
  - unfold Toggle.isChecked.
    destruct (Hheap _ _ Hca) as (c' & -> & _ & Htrue & _). simpl.
    by rewrite Htrue.
  - by rewrite Hflags.
  - intros k Hk Hgroup. rewrite Hflags. subst flags. cbn beta.
    unfold Toggle.set_checked. rewrite decide_False by done.
    by rewrite Hgroup.
  - intros b cb Hb Hcb Hinput. unfold Toggle.isChecked.
    destruct (Hheap _ _ Hcb) as (c' & -> & _ & _ & Hkeep). simpl.
    by rewrite Hkeep.
Qed.

Lemma checked_classList_add cls el :
  checked (classList_add cls el) = checked el.
Proof. unfold classList_add. by case_bool_decide. Qed.

(** [applyBaseStyles] checks and unchecks nothing. *)
Lemma applyBaseStyles_checked {W : Type} (c : Component W) (p : Page) :
  forall k, checked (dom (state (applyBaseStyles c p)) k) = checked (dom p k).
Proof.
  intros k. unfold applyBaseStyles, classList_call.
  destruct (truthy_className (_config c)) as [cls|];
    [destruct (validate_token cls)|]; cbn [state];
    (destruct (decide (k = _element c)) as [->|Hne];
     [rewrite !dom_on_element_same
     | rewrite !dom_on_element_other by done; reflexivity]);
    unfold addClassName, applyNeumorphicStyles;
    cbn [checked setProperty set_style]; by rewrite ?checked_classList_add.
Qed.

(** C6 at the input on which the code departs from it.
    [new ToggleComponent(input, config)] throws for every input and
    every configuration: for an element that the guard of the
    constructor refuses, and otherwise inside [super(...)], where
    [init()] reads [this._toggleConfig] before the constructor has
    assigned it (or, with a class name that [classList] does not take,
    one statement earlier).  No instance is returned and no listener is
    registered: there are no two radio toggles of which one could be
    checked. *)
Theorem C6_toggle_constructor_throws (input : eid)
    (config : Toggle.ToggleConfig) (w : World Toggle.ToggleFields) :
  exists exception w',
    Toggle.new_toggle input config w = Thrown exception w'
    /\ heap w' = heap w
    /\ listeners (page w') = listeners (page w)
    /\ forall k, checked (dom (page w') k) = checked (dom (page w) k).
Proof.
  unfold Toggle.new_toggle.
  destruct (Toggle.is_toggle_input (dom (page w) input)); cbn [negb];
    [|by eexists _, _].
  unfold construct, Toggle.toggle_init.
  match goal with
  | |- context [applyBaseStyles ?c ?p] =>
      pose proof (applyBaseStyles_frame (W := unit) c p) as Hframe;
      pose proof (applyBaseStyles_checked c p) as Hchecked;
      destruct (applyBaseStyles c p) as [p'|exception p']
  end; cbn [state] in Hframe, Hchecked;
    destruct Hframe as (_ & _ & Hls & _); by eexists _, _.
Qed.


(* ================================================================== *)
(** * Part III: further properties of the code                         *)
(* ================================================================== *)

Import Utils.

(** ** Password strength: further properties *)

Lemma existsb_app_mono {A} (f : A -> bool) (before l after : list A) :
  existsb f l = true -> existsb f (before ++ l ++ after) = true.
Proof.
  intros Hl. rewrite !existsb_app, Hl. by rewrite orb_true_r.
Qed.

Lemma criterion_score cond hint t :
  t_score (criterion cond hint t) = t_score t + Z.b2z cond.
Proof. unfold criterion. destruct cond; simpl; lia. Qed.

Lemma criterion_feedback cond hint t :
  t_feedback (criterion cond hint t)
  = t_feedback t ++ (if cond then [] else [hint]).
Proof. unfold criterion. destruct cond; simpl; by rewrite ?app_nil_r. Qed.

Lemma strength_score (password : jsstring) :
  score (validatePasswordStrength password)
  = Z.b2z (8 <=? Z.of_nat (length password))
    + Z.b2z (test re_upper password) + Z.b2z (test re_lower password)
    + Z.b2z (test re_digit password) + Z.b2z (test re_special password).
Proof.
  unfold validatePasswordStrength. cbn [score].
  rewrite !criterion_score. cbn [t_score]. lia.
Qed.

Lemma strength_feedback (password : jsstring) :
  feedback (validatePasswordStrength password)
  = (if 8 <=? Z.of_nat (length password) then [] else [fb_length])
    ++ (if test re_upper password then [] else [fb_upper])
    ++ (if test re_lower password then [] else [fb_lower])
    ++ (if test re_digit password then [] else [fb_digit])
    ++ (if test re_special password then [] else [fb_special]).
Proof.
  unfold validatePasswordStrength. cbn [feedback].
  rewrite !criterion_feedback. cbn [t_feedback app]. by rewrite <- !app_assoc.
Qed.

Lemma b2z_le (a b : bool) : (a = true -> b = true) -> Z.b2z a <= Z.b2z b.
Proof. destruct a, b; simpl; intros Hab; try lia. Qed.

Lemma hint_subseteq (a b : bool) (hint : jsstring) :
  (a = true -> b = true) ->
  (if b then [] else [hint]) ⊆ (if a then [] else [hint]).
Proof.
  destruct a, b; intros Hab x Hx; try done.
  - specialize (Hab eq_refl). discriminate.
  - by apply elem_of_nil in Hx.
Qed.

Lemma app_subseteq_app {A} (l1 l2 k1 k2 : list A) :
  l1 ⊆ k1 -> l2 ⊆ k2 -> l1 ++ l2 ⊆ k1 ++ k2.
Proof.
  intros H1 H2 x. rewrite !elem_of_app. intros [?|?]; [left; by apply H1 | right; by apply H2].
Qed.

(** X2. Adding characters to a password, before or after it, never
    lowers the score of [validatePasswordStrength], and every hint given
    for the longer password was already given for the shorter one. *)
Theorem password_strength_never_drops (before password after : jsstring) :
  let shorter := validatePasswordStrength password in
  let longer := validatePasswordStrength (before ++ password ++ after) in
  score shorter <= score longer
  /\ feedback longer ⊆ feedback shorter.
Proof.
  intros shorter longer. subst shorter longer.
  assert (Hlen : (8 <=? Z.of_nat (length password)) = true ->
                 (8 <=? Z.of_nat (length (before ++ password ++ after))) = true).
  { rewrite !length_app. intros Hl%Z.leb_le. apply Z.leb_le. lia. }
  pose proof (existsb_app_mono is_upper before password after) as Hup.
  pose proof (existsb_app_mono is_lower before password after) as Hlo.
  pose proof (existsb_app_mono is_digit before password after) as Hdi.
  pose proof (existsb_app_mono
                (fun c => negb (is_upper c || is_lower c || is_digit c))
                before password after) as Hsp.
  split.
  - rewrite !strength_score.
    pose proof (b2z_le _ _ Hlen). pose proof (b2z_le _ _ Hup).
    pose proof (b2z_le _ _ Hlo). pose proof (b2z_le _ _ Hdi).
    pose proof (b2z_le _ _ Hsp). cbn [test re_upper re_lower re_digit re_special].
    lia.
  - rewrite !strength_feedback.
    cbn [test re_upper re_lower re_digit re_special].
    repeat apply app_subseteq_app; by apply hint_subseteq.
Qed.

(** X3. [validatePasswordStrength] gives the score 0 to the empty
    password only: every code unit is an uppercase letter, a lowercase
    letter, a digit or a special character. *)
Theorem password_score_zero_iff_empty (password : jsstring) :
  score (validatePasswordStrength password) = 0 <-> password = [].
Proof.
  rewrite strength_score. split.
  - destruct password as [|c r]; [done|]. intros Hz. exfalso.
    assert (Hany : test re_upper (c :: r) || test re_lower (c :: r)
                   || test re_digit (c :: r) || test re_special (c :: r) = true).
    { cbn [test re_upper re_lower re_digit re_special existsb].
      destruct (is_upper c), (is_lower c), (is_digit c);
        simpl; rewrite ?orb_true_r; done. }
    revert Hz Hany.
    destruct (8 <=? Z.of_nat (length (c :: r))),
      (test re_upper (c :: r)), (test re_lower (c :: r)),
      (test re_digit (c :: r)), (test re_special (c :: r));
      simpl; intros; try lia; done.
  - by intros ->.
Qed.


(** ** The validation manager *)

Lemma classList_add_spec cls el x :
  x ∈ classList (classList_add cls el) <-> x ∈ classList el \/ x = cls.
Proof.
  unfold classList_add. case_bool_decide as Hin; cbn [classList set_classList].
  - split; [by left | intros [?| ->]; done].
  - rewrite elem_of_app, list_elem_of_singleton. done.
Qed.

Lemma classList_remove_spec cls el x :
  x ∈ classList (classList_remove cls el) <-> x ∈ classList el /\ x <> cls.
Proof.
  unfold classList_remove. cbn [classList set_classList].
  rewrite list_elem_of_filter. tauto.
Qed.

(** X4. [ValidationManager.validate(element, config)] returns
    [validateValue] of the element's value; afterwards
    [getValidationState(element)] is that result and [isValid(element)]
    its [isValid] flag.  The state and the error node of every other
    element are untouched, and so are the classes, the attributes and
    the value of every other element. *)
Theorem manager_validate_records_result
    (element : eid) (config : RuleSet) (p : Page) :
  let '(result, p') := ValidationManager.validate element config p in
  result = validateValue (getElementValue (dom p element)) config
  /\ ValidationManager.getValidationState element p' = Some result
  /\ ValidationManager.isValid element p' = isValid result
  /\ forall other, other <> element ->
       ValidationManager.getValidationState other p'
       = ValidationManager.getValidationState other p
       /\ errorElements (manager p') !! other = errorElements (manager p) !! other
       /\ classList (dom p' other) = classList (dom p other)
       /\ attributes (dom p' other) = attributes (dom p other)
       /\ value (dom p' other) = value (dom p other).
Proof.
  unfold ValidationManager.validate, ValidationManager.updateErrorDisplay,
    ValidationManager.getValidationState, ValidationManager.isValid.
  set (result := validateValue _ config).
  assert (Hrem : forall q,
            validationState (manager (ValidationManager.removeErrorDisplay element q))
            = validationState (manager q)).
  { intros q. unfold ValidationManager.removeErrorDisplay.
    by destruct (errorElements (manager q) !! element). }
  assert (Hrem' : forall q other, other <> element ->
            errorElements (manager (ValidationManager.removeErrorDisplay element q))
              !! other = errorElements (manager q) !! other).
  { intros q other Hne. unfold ValidationManager.removeErrorDisplay.
    destruct (errorElements (manager q) !! element); [|done].
    cbn. by rewrite lookup_insert_ne. }
  assert (Hremd : forall q,
            dom (ValidationManager.removeErrorDisplay element q) = dom q).
  { intros q. unfold ValidationManager.removeErrorDisplay.
    by destruct (errorElements (manager q) !! element). }
  destruct (isValid result) eqn:Hv; cbn [manager on_element set_dom].
  - rewrite Hrem. cbn. rewrite lookup_insert_eq. rewrite Hv.
    do 3 (split; [done|]). intros other Hne.
    rewrite lookup_insert_ne, Hrem', Hremd by done. cbn.
    unfold Dom.update. by rewrite decide_False.
  - cbn. rewrite lookup_insert_eq. rewrite Hv.
    do 3 (split; [done|]). intros other Hne.
    rewrite !lookup_insert_ne by done.
    unfold Dom.update. by rewrite decide_False.
Qed.

(** X5. After [ValidationManager.validate], the element carries the
    class [np-error] exactly when the result is invalid; an invalid
    result shows the first error in the element's error node, and a valid
    one leaves the error node, if there is one, hidden and empty. *)
Theorem manager_validate_shows_first_error
    (element : eid) (config : RuleSet) (p : Page) :
  let '(result, p') := ValidationManager.validate element config p in
  ("np-error" ∈ classList (dom p' element) <-> isValid result = false)
  /\ (isValid result = false ->
      errorElements (manager p') !! element
      = Some {| error_textContent := default [] (head (errors result));
                error_display := "block" |})
  /\ (isValid result = true ->
      forall node, errorElements (manager p') !! element = Some node ->
        node = {| error_textContent := []; error_display := "none" |}).
Proof.
  unfold ValidationManager.validate, ValidationManager.updateErrorDisplay.
  set (result := validateValue _ config).
  destruct (isValid result) eqn:Hv.
  - split; [|split; [done|]].
    + cbn [dom on_element set_dom]. unfold Dom.update. rewrite decide_True by done.
      rewrite classList_remove_spec. split; [by intros [_ ?] | done].
    + intros _ node. unfold ValidationManager.removeErrorDisplay.
      cbn [manager set_manager errorElements
           ValidationManager.set_validationState on_element set_dom].
      destruct (errorElements (manager p) !! element) eqn:Hnode; cbn.
      * rewrite lookup_insert_eq. by intros [= <-].
      * rewrite Hnode. done.
  - split; [|split; [|done]].
    + cbn [dom on_element set_dom]. unfold Dom.update. rewrite decide_True by done.
      rewrite classList_add_spec. split; [done | by right].
    + intros _. cbn. rewrite lookup_insert_eq. by rewrite head_lookup.
Qed.

(** X6. [clearValidation(element)] forgets the result of the element
    ([getValidationState] is [null], [isValid] is [true]) and hides and
    empties its error node.  It takes no class and no attribute from any
    element, so a class [np-error] that [validate] added stays; the
    other elements keep their state. *)
Theorem manager_clearValidation_forgets (element : eid) (p : Page) :
  let p' := ValidationManager.clearValidation element p in
  ValidationManager.getValidationState element p' = None
  /\ ValidationManager.isValid element p' = true
  /\ (forall node, errorElements (manager p') !! element = Some node ->
        node = {| error_textContent := []; error_display := "none" |})
  /\ (forall k, classList (dom p' k) = classList (dom p k)
                /\ attributes (dom p' k) = attributes (dom p k))
  /\ forall other, other <> element ->
       ValidationManager.getValidationState other p'
       = ValidationManager.getValidationState other p
       /\ errorElements (manager p') !! other = errorElements (manager p) !! other.
Proof.
  unfold ValidationManager.clearValidation, ValidationManager.getValidationState,
    ValidationManager.isValid, ValidationManager.removeErrorDisplay.
  cbn [manager set_manager errorElements ValidationManager.set_validationState].
  destruct (errorElements (manager p) !! element) eqn:Hnode; cbn.
  - rewrite lookup_delete_eq. repeat split; try done.
    + rewrite lookup_insert_eq. by intros node [= <-].
    + by rewrite lookup_delete_ne.
    + by rewrite lookup_insert_ne.
  - rewrite lookup_delete_eq. repeat split; try done.
    + rewrite Hnode. done.
    + by rewrite lookup_delete_ne.
Qed.


Section UpdateAfterDestroy.

Context {W : Type} `{Widget W}.

Implicit Types (c : Component W) (p : Page) (w : World W).

(** X7. [update] on a destroyed instance only warns:
    [update(newConfig)] returns and leaves every instance and the page
    as they are, but for the console warning. *)
Theorem update_after_destroy_is_refused (self : nat) (newConfig : Config) w c :
  heap w !! self = Some c ->
  _destroyed c = true ->
  update self newConfig w
  = Done {| heap := heap w;
            page := record (Warn "Cannot update destroyed component") (page w) |}.
Proof.
  intros Hc Hd. unfold update, invoke. rewrite Hc.
  unfold update_method. rewrite Hd. by rewrite list_insert_id.
Qed.

End UpdateAfterDestroy.

Section ThemeStore.

Context {W : Type} `{Widget W}.

Implicit Types (c : Component W) (p : Page) (w : World W).

(** X9. After [setTheme(theme)], [getCurrentTheme()] is the theme that
    was set (the preset of that name, or the given object) and the custom
    properties of the root were computed from it, whatever the listeners
    of the instances did; no instance and no listener is added or
    removed. *)
Theorem setTheme_sets_current_theme (t : ThemeRef) w :
  let current := match t with Preset name => themes name | Custom _ t' => t' end in
  getCurrentTheme (page (setTheme t w)) = current
  /\ root_css (page (setTheme t w)) = current
  /\ listeners (page (setTheme t w)) = listeners (page w)
  /\ length (heap (setTheme t w)) = length (heap w).
Proof.
  intros current. unfold setTheme, getCurrentTheme.
  match goal with
  | |- context [foldl _ ?w0 ?ls] =>
      destruct (deliver_theme_change_store ls w0) as (Hth & Hcss & Hls & Hlen)
  end.
  rewrite Hth, Hcss, Hls, Hlen. done.
Qed.

(** X10. [setTheme] never changes an instance whose configured theme is
    not a preset name (a theme object of its own, or no theme at all):
    its fields, [_theme] among them, are what they were. *)
Theorem setTheme_skips_instances_without_preset (t : ThemeRef) w self c :
  heap w !! self = Some c ->
  theme_is_preset (_config c) = false ->
  heap (setTheme t w) !! self = Some c.
Proof.
  intros Hc Hpre. unfold setTheme. by apply deliver_theme_change_skips.
Qed.

Lemma filter_ne_id (cls : string) (l : list string) :
  cls ∉ l -> filter (fun x => x ≠ cls) l = l.
Proof.
  induction l as [|x l IH]; [done|].
  rewrite not_elem_of_cons. intros [Hne Hl].
  rewrite filter_cons, decide_True by done. by rewrite IH.
Qed.

Lemma attributes_addClassName cls el :
  attributes (addClassName cls el) = attributes el.
Proof. unfold addClassName, classList_add. by case_bool_decide. Qed.

(** Disabling and enabling again. *)
Lemma disable_enable_element (el : Element) :
  attributes el !! "disabled" = None ->
  attributes el !! "aria-disabled" = None ->
  "np-disabled" ∉ classList el ->
  classList_remove "np-disabled"
    (removeAttribute "aria-disabled"
       (removeAttribute "disabled"
          (addClassName "disabled"
             (setAttribute "aria-disabled" "true"
                (setAttribute "disabled" "" el))))) = el.
Proof.
  destruct el as [tag cls attrs st v chk html txt]. cbn.
  intros Hd Ha Hcls.
  unfold addClassName, classList_add, classList_remove, removeAttribute,
    setAttribute, set_attributes, set_classList.
  cbn [classList attributes tagName style value checked innerHTML textContent
       String.append].
  change ("np-" +:+ "disabled") with "np-disabled".
  rewrite bool_decide_eq_false_2 by done.
  cbn [classList attributes tagName style value checked innerHTML textContent].
  f_equal.
  - rewrite filter_app, filter_ne_id by done.
    rewrite filter_cons. rewrite decide_False; [apply app_nil_r|].
    intros Hne. by apply Hne.
  - rewrite delete_insert_ne by done. rewrite delete_insert_eq.
    rewrite delete_insert_eq.
    rewrite (delete_id attrs "disabled") by done. by apply delete_id.
Qed.

(** X11. [setDisabled(true)] sets the attributes [disabled] and
    [aria-disabled="true"] and the class [np-disabled];
    [setDisabled(false)] after it removes the three again, and an element
    that had none of them before is exactly what it was. *)
Theorem setDisabled_round_trip c p :
  let el := dom p (_element c) in
  let '(c1, p1) := setDisabled true c p in
  let '(c2, p2) := setDisabled false c1 p1 in
  (get_disabled (dom p1 (_element c)) = true
   /\ attributes (dom p1 (_element c)) !! "aria-disabled" = Some "true"
   /\ "np-disabled" ∈ classList (dom p1 (_element c))
   /\ disabled (_config c1) = Some true)
  /\ (get_disabled (dom p2 (_element c)) = false
      /\ attributes (dom p2 (_element c)) !! "aria-disabled" = None
      /\ ("np-disabled" ∉ classList (dom p2 (_element c)))
      /\ disabled (_config c2) = Some false)
  /\ (attributes el !! "disabled" = None ->
      attributes el !! "aria-disabled" = None ->
      "np-disabled" ∉ classList el ->
      forall k, dom p2 k = dom p k).
Proof.
  intros el. unfold setDisabled. cbn [_element set_config _config disabled].
  rewrite !dom_on_element_same.
  split; [|split].
  - unfold get_disabled. rewrite attributes_addClassName.
    unfold addClassName. rewrite classList_add_spec.
    cbn [attributes setAttribute set_attributes].
    repeat split; try done.
    + apply bool_decide_eq_true. rewrite lookup_insert_ne by done.
      rewrite lookup_insert_eq. eauto.
    + by rewrite lookup_insert_eq.
    + by right.
  - unfold get_disabled. rewrite classList_remove_spec.
    cbn [attributes classList_remove removeAttribute set_attributes set_classList].
    repeat split; try done.
    + apply bool_decide_eq_false. rewrite lookup_delete_ne by done.
      rewrite lookup_delete_eq. by intros [? ?].
    + by rewrite lookup_delete_eq.
    + by intros [_ ?].
  - intros Hd Ha Hcls k.
    unfold on_element, Dom.update. cbn [dom set_dom].
    destruct (decide (k = _element c)) as [->|Hne]; [|done].
    by apply disable_enable_element.
Qed.

End ThemeStore.

Lemma classList_assign_style prop v el :
  classList (assign_style prop v el) = classList el.
Proof. unfold assign_style. by case_bool_decide. Qed.

Lemma dom_on_element e f p k :
  dom (on_element e f p) k = if decide (k = e) then f (dom p k) else dom p k.
Proof. reflexivity. Qed.

Lemma className_passes_merge (old new : BaseComponentConfig) :
  className_passes old = true ->
  className_passes new = true ->
  className_passes (merge_config old new) = true.
Proof.
  unfold className_passes, truthy_className, merge_config. cbn [className].
  by destruct (className new) as [[|a s]|].
Qed.

Lemma truthy_className_passes (cfg : BaseComponentConfig) cls :
  className_passes cfg = true ->
  truthy_className cfg = Some cls ->
  validate_token cls = None.
Proof.
  unfold className_passes. intros Hp Hc. rewrite Hc in Hp.
  by apply bool_decide_eq_true_1 in Hp.
Qed.

Section UpdateStages.

Context {W : Type} `{Widget W}.

Implicit Types (c : Component W) (p : Page) (w : World W).

(** [update(newConfig)] on a live instance, when [classList] takes the
    class name of the instance and the one of the new configuration:
    [update] gets to [onUpdate].  The instance has the merged
    configuration then; only its element was touched; and the class
    name that the new configuration changes is off the element. *)
Lemma update_method_returns self (newConfig : Config) c p :
  _destroyed c = false ->
  className_passes (_config c) = true ->
  className_passes (base_of newConfig) = true ->
  exists c0 p0,
    update_method self newConfig c p = Done (onUpdate self newConfig c0 p0)
    /\ _element c0 = _element c
    /\ _config c0 = merge_config (_config c) (base_of newConfig)
    /\ widget c0 = widget c
    /\ _listeners c0 = _listeners c
    /\ _destroyed c0 = false
    /\ listeners p0 = listeners p
    /\ log p0 = log p
    /\ (forall k, k <> _element c -> dom p0 k = dom p k)
    /\ (theme (base_of newConfig) = None ->
        _theme c0 = _theme c
        /\ style (dom p0 (_element c)) = style (dom p (_element c))
        /\ innerHTML (dom p0 (_element c)) = innerHTML (dom p (_element c)))
    /\ (forall cls, className (base_of newConfig) = None ->
        truthy_className (_config c) = Some cls ->
        cls ∉ classList (dom p0 (_element c))).
Proof.
  intros Hd Hold Hnew. unfold update_method. rewrite Hd.
  set (new := base_of newConfig) in *.
  set (merged := merge_config (_config c) new).
  assert (Hmerged : className_passes merged = true)
    by (by apply className_passes_merge).
  (* the class stage, on any page *)
  assert (Hclass : forall c1 q,
            _element c1 = _element c ->
            exists q',
              (if bool_decide (className new ≠ className (_config c))
               then match match truthy_className (_config c) with
                          | Some cls => classList_call classList_remove (_element c1) cls q
                          | None => Done q
                          end with
                    | Thrown e q => Thrown e q
                    | Done q =>
                        match truthy_className new with
                        | Some cls => classList_call classList_add (_element c1) cls q
                        | None => Done q
                        end
                    end
               else Done q) = Done q'
              /\ listeners q' = listeners q /\ log q' = log q
              /\ (forall k, k <> _element c -> dom q' k = dom q k)
              /\ style (dom q' (_element c)) = style (dom q (_element c))
              /\ innerHTML (dom q' (_element c)) = innerHTML (dom q (_element c))
              /\ (forall cls, className new = None ->
                    truthy_className (_config c) = Some cls ->
                    cls ∉ classList (dom q' (_element c)))).
  { intros c1 q Hel. rewrite Hel. case_bool_decide as Hdiff.
    2:{ exists q. do 6 (split; [done|]). intros cls Hnone Hcls.
        exfalso. rewrite Hnone in Hdiff.
        unfold truthy_className in Hcls. rewrite <- Hdiff in Hcls. done. }
    destruct (truthy_className (_config c)) as [old_cls|] eqn:Holdc.
    - rewrite classList_call_passes
        by (by apply (truthy_className_passes (_config c))).
      destruct (truthy_className new) as [new_cls|] eqn:Hnewc.
      + rewrite classList_call_passes by (by apply (truthy_className_passes new)).
        eexists. split; [reflexivity|]. do 2 (split; [done|]).
        split; [by intros k Hk; rewrite !dom_on_element_other|].
        rewrite !dom_on_element_same.
        split; [by rewrite style_classList_add|].
        split; [by unfold classList_add; case_bool_decide|].
        intros cls Hnone _. unfold truthy_className in Hnewc.
        by rewrite Hnone in Hnewc.
      + eexists. split; [reflexivity|]. do 2 (split; [done|]).
        split; [by intros k Hk; rewrite !dom_on_element_other|].
        rewrite !dom_on_element_same. do 2 (split; [done|]).
        intros cls _ [= <-]. rewrite classList_remove_spec. by intros [_ ?].
    - destruct (truthy_className new) as [new_cls|] eqn:Hnewc.
      + rewrite classList_call_passes by (by apply (truthy_className_passes new)).
        eexists. split; [reflexivity|]. do 2 (split; [done|]).
        split; [by intros k Hk; rewrite !dom_on_element_other|].
        rewrite !dom_on_element_same.
        split; [by rewrite style_classList_add|].
        split; [by unfold classList_add; case_bool_decide|].
        done.
      + exists q. by do 6 (split; [done|]). }
  (* the disabled stage, on any instance and page *)
  assert (Hdisabled : forall c1 q,
            _element c1 = _element c -> _config c1 = merged ->
            exists c2 q',
              match disabled new with
              | Some b =>
                  if bool_decide (Some b ≠ disabled (_config c))
                  then setDisabled b c1 q else (c1, q)
              | None => (c1, q)
              end = (c2, q')
              /\ _element c2 = _element c /\ _config c2 = merged
              /\ widget c2 = widget c1 /\ _listeners c2 = _listeners c1
              /\ _destroyed c2 = _destroyed c1 /\ _theme c2 = _theme c1
              /\ listeners q' = listeners q /\ log q' = log q
              /\ (forall k, k <> _element c -> dom q' k = dom q k)
              /\ style (dom q' (_element c)) = style (dom q (_element c))
              /\ innerHTML (dom q' (_element c)) = innerHTML (dom q (_element c))).
  { intros c1 q Hel Hcfg.
    destruct (disabled new) as [b|] eqn:Hb;
      [destruct (bool_decide (Some b ≠ disabled (_config c)))|];
      try (exists c1, q; by repeat split).
    eexists _, _. split; [reflexivity|]. unfold setDisabled.
    cbn [_element _config set_config widget _listeners _destroyed _theme].
    rewrite Hel. split; [done|]. split.
    { rewrite Hcfg. subst merged. unfold merge_config. cbn [theme className].
      by rewrite Hb. }
    do 6 (split; [done|]).
    split; [by intros k Hk; rewrite dom_on_element_other|].
    rewrite dom_on_element_same.
    destruct b; unfold addClassName, classList_add, classList_remove;
      cbn [setAttribute removeAttribute set_attributes style innerHTML];
      try destruct (bool_decide ("np-" +:+ "disabled" ∈ _)); done. }
  (* the theme stage *)
  assert (Hthemed : exists c1 q,
            match theme new with
            | Some t =>
                if negb (same_theme_value (Some t) (theme (_config c)))
                then with_instance
                       (set_theme match t with
                                  | Preset _ => getCurrentTheme p
                                  | Custom _ t' => t'
                                  end (set_config merged c))
                       (onThemeChange
                          (set_theme match t with
                                     | Preset _ => getCurrentTheme p
                                     | Custom _ t' => t'
                                     end (set_config merged c)) p)
                else Done (set_config merged c, p)
            | None => Done (set_config merged c, p)
            end = Done (c1, q)
            /\ _element c1 = _element c /\ _config c1 = merged
            /\ widget c1 = widget c /\ _listeners c1 = _listeners c
            /\ _destroyed c1 = false
            /\ listeners q = listeners p /\ log q = log p
            /\ (forall k, k <> _element c -> dom q k = dom p k)
            /\ (theme new = None -> _theme c1 = _theme c /\ q = p)).
  { destruct (theme new) as [t|] eqn:Ht.
    2:{ exists (set_config merged c), p. by repeat split. }
    destruct (negb (same_theme_value (Some t) (theme (_config c)))).
    2:{ exists (set_config merged c), p. by repeat split. }
    set (c1 := set_theme _ (set_config merged c)).
    unfold onThemeChange.
    destruct (applyBaseStyles_paints c1 p Hmerged) as (q & Hq & _).
    pose proof (applyBaseStyles_frame c1 p) as Hframe. rewrite Hq in Hframe.
    cbn [state] in Hframe. destruct Hframe as (_ & _ & Hls & Hlog & Hdom).
    exists c1, q. rewrite Hq. cbn [with_instance]. by repeat split. }
  destruct Hthemed as (c1 & q1 & -> & Hel1 & Hcfg1 & Hw1 & Hl1 & Hd1 & Hls1 & Hlog1
                       & Hdom1 & Hnotheme).
  destruct (Hdisabled c1 q1 Hel1 Hcfg1)
    as (c2 & q2 & -> & Hel2 & Hcfg2 & Hw2 & Hl2 & Hd2 & Hth2 & Hls2 & Hlog2
        & Hdom2 & Hst2 & Hin2).
  destruct (Hclass c2 q2 Hel2)
    as (q3 & -> & Hls3 & Hlog3 & Hdom3 & Hst3 & Hin3 & Hcls3).
  exists c2, q3. split; [reflexivity|].
  split; [done|]. split; [done|]. split; [congruence|]. split; [congruence|].
  split; [congruence|]. split; [congruence|]. split; [congruence|].
  split; [intros k Hk; by rewrite Hdom3, Hdom2, Hdom1|].
  split; [|exact Hcls3].
  intros Hnone. destruct (Hnotheme Hnone) as [Hth ->].
  split; [congruence|]. split; congruence.
Qed.

(** The world after [update(newConfig)] got to [onUpdate]. *)
Lemma update_returns self (newConfig : Config) w c :
  heap w !! self = Some c ->
  _destroyed c = false ->
  className_passes (_config c) = true ->
  className_passes (base_of newConfig) = true ->
  exists c0 p0,
    update self newConfig w
    = Done {| heap := <[self := (onUpdate self newConfig c0 p0).1]> (heap w);
              page := (onUpdate self newConfig c0 p0).2 |}
    /\ _element c0 = _element c
    /\ _config c0 = merge_config (_config c) (base_of newConfig)
    /\ widget c0 = widget c
    /\ _listeners c0 = _listeners c
    /\ _destroyed c0 = false
    /\ listeners p0 = listeners (page w)
    /\ log p0 = log (page w)
    /\ (forall k, k <> _element c -> dom p0 k = dom (page w) k)
    /\ (theme (base_of newConfig) = None ->
        _theme c0 = _theme c
        /\ style (dom p0 (_element c)) = style (dom (page w) (_element c))
        /\ innerHTML (dom p0 (_element c)) = innerHTML (dom (page w) (_element c)))
    /\ (forall cls, className (base_of newConfig) = None ->
        truthy_className (_config c) = Some cls ->
        cls ∉ classList (dom p0 (_element c))).
Proof.
  intros Hc Hd Hold Hnew.
  destruct (update_method_returns self newConfig c (page w) Hd Hold Hnew)
    as (c0 & p0 & Hrun & Hrest).
  exists c0, p0. split; [|exact Hrest].
  unfold update, invoke. rewrite Hc, Hrun.
  by destruct (onUpdate self newConfig c0 p0).
Qed.

End UpdateStages.

(** ** Card: update *)

Lemma style_assign_style_other prop q v el :
  q <> prop -> style (assign_style prop v el) !! q = style el !! q.
Proof.
  intros Hne. unfold assign_style. case_bool_decide; cbn.
  - by rewrite lookup_delete_ne.
  - by rewrite lookup_insert_ne.
Qed.

Lemma style_assign_style_same prop v el :
  v <> "" -> style (assign_style prop v el) !! prop = Some v.
Proof.
  intros Hne. unfold assign_style. rewrite bool_decide_eq_false_2 by done.
  cbn. by rewrite lookup_insert_eq.
Qed.

Lemma getSizeValue_nonempty sz kind : getSizeValue sz kind <> "".
Proof. by destruct sz, kind. Qed.

(** [new CardComponent(element, config)] throws for every element and
    every configuration, inside [super(...)]: no instance is returned
    and no listener is registered.  The properties of the card below are
    those of its methods, on instances with their fields in place. *)
Lemma card_constructor_throws (element : eid) (config : Card.CardConfig)
    (w : World Card.CardFields) :
  exists exception w',
    Card.new_card element config w = Thrown exception w'
    /\ heap w' = heap w
    /\ listeners (page w') = listeners (page w).
Proof.
  destruct (construct_throws_in_init Card.card_init Card.card_bindEvents
              (fun _ _ => Card.card_fields config) element
              (Card.card_base config) w) as (exception & w' & Hnew & Hheap & Hls & _).
  { intros self c p. unfold Card.card_init.
    pose proof (applyBaseStyles_contents c p) as Hbase.
    destruct (applyBaseStyles c p) as [p'|exception p']; cbn [state] in Hbase;
      destruct Hbase as [Hls Hcontent].
    - eexists _, _. split; [reflexivity|]. split; [exact Hls|].
      intros k. rewrite <- Hcontent.
      destruct (decide (k = _element c)) as [->|Hne];
        [rewrite dom_on_element_same | by rewrite dom_on_element_other].
      unfold addClassName. apply innerHTML_classList_add.
    - by eexists _, _. }
  by exists exception, w'.
Qed.

Section CardUpdate.

Import Card.

Implicit Types (c : Component CardFields) (p : Page) (w : World CardFields).



Lemma variant_name_inj v1 v2 : variant_name v1 = variant_name v2 -> v1 = v2.
Proof. by destruct v1, v2. Qed.

(** X13. [setVariant(v)] on a live card whose variant is another one:
    [getVariant()] is [v] afterwards, the element carries the class
    [np-card-v] and no longer the class of the former variant. *)
Theorem card_setVariant_swaps_variant_class self (v : Variant) w c :
  heap w !! self = Some c ->
  _destroyed c = false ->
  className_passes (_config c) = true ->
  v <> cfg_variant (widget c) ->
  exists w',
    setVariant self v w = Done w'
    /\ getVariant self w' = Some v
    /\ ("np-card-" +:+ variant_name v) ∈ classList (dom (page w') (_element c))
    /\ ("np-card-" +:+ variant_name (cfg_variant (widget c)))
         ∉ classList (dom (page w') (_element c)).
Proof.
  intros Hc Hd Hold Hne. unfold setVariant.
  destruct (update_returns (H := Card_widget) self
              {| card_base := no_config; variant := Some v; size := None;
                 padding := None |}
              w c Hc Hd Hold eq_refl)
    as (c0 & p0 & Hrun & Hel & _ & Hw & _).
  eexists. split; [exact Hrun|]. unfold getVariant.
  cbn [heap page onUpdate Card_widget]. unfold card_onUpdate.
  cbn [variant size padding truthy_string fst snd]. rewrite Hw.
  rewrite bool_decide_eq_true_2 by done.
  rewrite list_lookup_insert_eq by (by apply lookup_lt_Some in Hc).
  cbn [fmap option_fmap option_map widget set_widget cfg_variant default].
  split; [done|].
  cbn [_element set_widget]. rewrite Hel.
  rewrite dom_on_element, decide_True, classList_assign_style by done.
  unfold addClassName. rewrite !classList_add_spec, !classList_remove_spec.
  split; [by right|].
  intros [[_ Hx] | Hx]; [done|].
  apply Hne. symmetry. apply variant_name_inj.
  by simplify_eq.
Qed.

(** X27. [setSize(size)] on a live card whose size is another one sets
    the padding of the element to the padding of the new size, also when
    the card was configured with a padding of its own, which stays in
    the configuration. *)
Theorem card_setSize_overrides_padding self (sz : Size) w c :
  heap w !! self = Some c ->
  _destroyed c = false ->
  className_passes (_config c) = true ->
  sz <> cfg_size (widget c) ->
  exists w',
    setSize self sz w = Done w'
    /\ getSize self w' = Some sz
    /\ style (dom (page w') (_element c)) !! "padding"
       = Some (getSizeValue sz size_padding)
    /\ exists c', heap w' !! self = Some c'
         /\ cfg_padding (widget c') = cfg_padding (widget c).
Proof.
  intros Hc Hd Hold Hne. unfold setSize.
  destruct (update_returns (H := Card_widget) self
              {| card_base := no_config; variant := None; size := Some sz;
                 padding := None |}
              w c Hc Hd Hold eq_refl)
    as (c0 & p0 & Hrun & Hel & _ & Hw & _).
  eexists. split; [exact Hrun|]. unfold getSize.
  cbn [heap page onUpdate Card_widget]. unfold card_onUpdate.
  cbn [variant size padding truthy_string fst snd]. rewrite Hw.
  rewrite bool_decide_eq_true_2 by done.
  rewrite list_lookup_insert_eq by (by apply lookup_lt_Some in Hc).
  cbn [fmap option_fmap option_map widget set_widget cfg_size default
       cfg_padding].
  split; [done|]. split; [|by eexists].
  cbn [_element set_widget]. rewrite Hel.
  rewrite dom_on_element, decide_True by done.
  apply style_assign_style_same.
  unfold getSizePadding. cbn [cfg_size]. apply getSizeValue_nonempty.
Qed.

(** X29. [setPadding('')] on a live card stores the empty padding in the
    configuration of the card but leaves the style of the element, its
    padding included, as it was: the empty string is falsy in
    [onUpdate]. *)
Theorem card_setPadding_empty_keeps_style self w c :
  heap w !! self = Some c ->
  _destroyed c = false ->
  className_passes (_config c) = true ->
  exists w',
    setPadding self "" w = Done w'
    /\ style (dom (page w') (_element c)) = style (dom (page w) (_element c))
    /\ exists c', heap w' !! self = Some c'
         /\ cfg_padding (widget c') = Some "".
Proof.
  intros Hc Hd Hold. unfold setPadding.
  destruct (update_returns (H := Card_widget) self
              {| card_base := no_config; variant := None; size := None;
                 padding := Some "" |}
              w c Hc Hd Hold eq_refl)
    as (c0 & p0 & Hrun & Hel & _ & Hw & _ & _ & _ & _ & _ & Hnotheme & _).
  destruct (Hnotheme eq_refl) as (_ & Hstyle & _).
  eexists. split; [exact Hrun|].
  cbn [heap page onUpdate Card_widget]. unfold card_onUpdate.
  cbn [variant size padding truthy_string fst snd].
  rewrite list_lookup_insert_eq by (by apply lookup_lt_Some in Hc).
  cbn [widget set_widget cfg_padding].
  split; [exact Hstyle | by eexists].
Qed.

End CardUpdate.


Lemma attributes_assign_style prop v el :
  attributes (assign_style prop v el) = attributes el.
Proof. unfold assign_style. by case_bool_decide. Qed.

Lemma attributes_classList_add cls el :
  attributes (classList_add cls el) = attributes el.
Proof. unfold classList_add. by case_bool_decide. Qed.



Section InputValidation.

Implicit Types (c : Component Input.InputFields) (p : Page).

(** X15. [validate()] on an input that shows validation and whose rules
    are the built-in ones ([required], [email] and the two lengths; no
    pattern and no function of the caller, which the two evaluations of
    the rules that [performValidation] makes could judge differently):
    the result is [validateValue] of the current value; it is stored in
    the instance ([getValidationResult], [isValid]) and in the global
    manager; [aria-invalid] and the class [np-error] tell whether it is
    invalid; and the last event emitted is [np:validation] with the result
    and the value. *)
Theorem input_validate_with_rules c p (config : ValidationConfig) :
  Input.cfg_validate (widget c) = Some (RuleCfg config) ->
  pattern config = None ->
  custom config = None ->
  Input.cfg_showValidation (widget c) = true ->
  let rules := RuleCfg config in
  let value := getElementValue (dom p (_element c)) in
  let '(r, c', p') := Input.input_validate c p in
  r = validateValue value rules
  /\ Input.getValidationResult (fun f => f) c' = Some r
  /\ Input.input_isValid c' = isValid r
  /\ ValidationManager.getValidationState (_element c) p' = Some r
  /\ attributes (dom p' (_element c)) !! "aria-invalid"
     = Some (if isValid r then "false" else "true")
  /\ ("np-error" ∈ classList (dom p' (_element c)) <-> isValid r = false)
  /\ last (log p')
     = Some (Dispatch (Node (_element c)) "np:validation" (ValidationDetail r value)).
Proof.
  intros Hrules _ _ Hshow rules value. subst rules.
  unfold Input.input_validate, Input.validate, Input.performValidation.
  rewrite Hrules, Hshow. cbn [negb].
  unfold Input.getValue. fold value.
  set (r := validateValue value (RuleCfg config)).
  cbn [_element set_widget widget Input.set_validationResult Input._validationResult].
  unfold ValidationManager.validate. fold value. fold r.
  cbn [default Input.getValidationResult Input.input_isValid Input.isValid widget
       set_widget Input._validationResult].
  unfold Input.updateValidationState.
  cbn [_element set_widget widget Input._validationResult
       Input.set_validationResult _theme].
  unfold emit. cbn [log record _element set_widget].
  rewrite last_snoc.
  unfold ValidationManager.getValidationState.
  cbn [manager record on_element set_dom dom].
  unfold ValidationManager.updateErrorDisplay.
  unfold id.
  repeat split.
  - destruct (isValid r); cbn [manager on_element set_dom set_manager];
      [|cbn; by rewrite lookup_insert_eq].
    unfold ValidationManager.removeErrorDisplay.
    cbn [manager set_manager errorElements ValidationManager.set_validationState].
    destruct (errorElements (manager p) !! _element c); cbn; by rewrite lookup_insert_eq.
  - unfold Dom.update. rewrite decide_True by done.
    destruct (isValid r); rewrite attributes_assign_style;
      unfold addClassName; rewrite ?attributes_classList_add;
      cbn [attributes classList_remove set_classList setAttribute set_attributes];
      by rewrite lookup_insert_eq.
  - unfold Dom.update. rewrite decide_True by done.
    destruct (isValid r); rewrite classList_assign_style; [|done].
    rewrite classList_remove_spec. by intros [_ ?].
  - unfold Dom.update. rewrite decide_True by done.
    destruct (isValid r); rewrite classList_assign_style; [done|]. intros _.
    unfold addClassName. rewrite classList_add_spec. by right.
Qed.

(** X16. After [clearErrors()] the input counts as valid again:
    [isValid()] is [true], [getValidationResult()] is [null], the manager
    has no state for the element, and the element has lost the class
    [np-error] and has [aria-invalid="false"]. *)
Theorem input_clearErrors_resets c p :
  let '(c', p') := Input.input_clearErrors c p in
  Input.input_isValid c' = true
  /\ Input.getValidationResult (fun f => f) c' = None
  /\ ValidationManager.getValidationState (_element c) p' = None
  /\ ValidationManager.isValid (_element c) p' = true
  /\ ("np-error" ∉ classList (dom p' (_element c)))
  /\ attributes (dom p' (_element c)) !! "aria-invalid" = Some "false".
Proof.
  unfold Input.input_clearErrors, Input.clearErrors, Input.input_isValid,
    Input.isValid, Input.getValidationResult.
  cbn [_element set_widget widget Input.set_validationResult Input._validationResult].
  unfold ValidationManager.getValidationState, ValidationManager.isValid,
    ValidationManager.clearValidation, ValidationManager.removeErrorDisplay.
  cbn [manager set_manager errorElements ValidationManager.set_validationState
       on_element set_dom dom].
  unfold Dom.update. rewrite decide_True by done.
  rewrite classList_assign_style, attributes_assign_style.
  cbn [classList attributes setAttribute set_attributes].
  rewrite classList_remove_spec, lookup_insert_eq.
  destruct (errorElements (manager p) !! _element c); cbn;
    rewrite lookup_delete_eq; repeat split; try done; by intros [_ ?].
Qed.

End InputValidation.


Section ToggleState.

Import Toggle.

Implicit Types (c : Component ToggleFields) (p : Page) (w : World ToggleFields).

(** While the [change] event of [toggle] is delivered, the instance that
    toggled keeps the state it wrote: its own listener, if it runs,
    reads that state back from the native input. *)
Lemma deliver_change_own_state (ea : eid) (v : bool) (ls : list Listener) :
  forall w a ca,
  heap w !! a = Some ca ->
  _originalInput (widget ca) = ea ->
  _isChecked (widget ca) = v ->
  checked (dom (page w) ea) = v ->
  let w' := foldl (fun w l => deliver_change ea l w) w ls in
  checked (dom (page w') ea) = v
  /\ exists ca', heap w' !! a = Some ca'
       /\ _originalInput (widget ca') = ea
       /\ _isChecked (widget ca') = v
       /\ _config ca' = _config ca
       /\ cfg_onChange (widget ca') = cfg_onChange (widget ca).
Proof.
  induction ls as [|l ls IH]; intros w a ca Hca Hin Hv Hnative w'.
  { split; [done|]. by exists ca. }
  subst w'. cbn [foldl].
  assert (Hstep : checked (dom (page (deliver_change ea l w)) ea) = v
            /\ exists c1, heap (deliver_change ea l w) !! a = Some c1
                 /\ _originalInput (widget c1) = ea
                 /\ _isChecked (widget c1) = v
                 /\ _config c1 = _config ca
                 /\ cfg_onChange (widget c1) = cfg_onChange (widget ca)).
  { destruct l as [id owner | id owner node type label];
      [split; [done | by exists ca]|].
    cbn [deliver_change]. case_bool_decide; [|split; [done | by exists ca]].
    unfold Base.call. destruct (heap w !! owner) as [co|] eqn:Hco;
      [|split; [done | by exists ca]].
    pose proof (change_handler_spec owner co (page w)) as Hspec.
    assert (Hcfg : _config (change_handler owner co (page w)).1 = _config co
              /\ cfg_onChange (widget (change_handler owner co (page w)).1)
                 = cfg_onChange (widget co)) by done.
    destruct (change_handler owner co (page w)) as [c1 p1].
    destruct Hspec as (Hchk & Hinp & Hdom). destruct Hcfg as [Hcfg Hcb].
    cbn [heap page fst] in *. split; [by rewrite Hdom|].
    destruct (decide (a = owner)) as [->|Hne].
    - assert (co = ca) as -> by congruence.
      exists c1. rewrite list_lookup_insert_eq by (by apply lookup_lt_Some in Hco).
      repeat split; try done; try congruence.
    - exists ca. by rewrite list_lookup_insert_ne. }
  destruct Hstep as (Hnat1 & c1 & Hc1 & Hin1 & Hv1 & Hcfg1 & Hcb1).
  destruct (IH _ _ _ Hc1 Hin1 Hv1 Hnat1) as (Hnat2 & c2 & Hc2 & ? & ? & ? & ?).
  split; [done|]. exists c2. repeat split; try done; congruence.
Qed.

(** What [toggle()] does to the instance it is called on. *)
Lemma toggle_own_state (a : nat) w ca :
  heap w !! a = Some ca ->
  truthy_flag (disabled (_config ca)) = false ->
  let v := negb (_isChecked (widget ca)) in
  let ea := _originalInput (widget ca) in
  checked (dom (page (toggle a w)) ea) = v
  /\ exists ca', heap (toggle a w) !! a = Some ca'
       /\ _originalInput (widget ca') = ea
       /\ _isChecked (widget ca') = v
       /\ _config ca' = _config ca
       /\ cfg_onChange (widget ca') = cfg_onChange (widget ca).
Proof.
  intros Hca Hen v ea. unfold toggle. rewrite Hca, Hen.
  set (c1 := set_widget (set_isChecked (negb (_isChecked (widget ca))) (widget ca)) ca).
  change (_originalInput (widget c1)) with ea.
  change (_isChecked (widget c1)) with v.
  match goal with
  | |- context [foldl _ ?w1 ?ls] =>
      apply (deliver_change_own_state ea v ls w1 a c1)
  end; cbn [heap page]; try done.
  - apply list_lookup_insert_eq. by apply lookup_lt_Some in Hca.
  - cbn [dom record]. rewrite dom_emitChange, checked_updateVisualState.
    cbn [dom set_dom]. unfold set_checked. by rewrite decide_True.
Qed.

(** X17. On an enabled toggle, [setChecked(b)] makes [isChecked()]
    return [b]; when that took a [toggle()], the native input is checked
    accordingly. *)
Theorem toggle_setChecked_reaches_state (a : nat) (b : bool) w ca :
  heap w !! a = Some ca ->
  truthy_flag (disabled (_config ca)) = false ->
  let w' := setChecked b a w in
  isChecked a w' = Some b
  /\ (_isChecked (widget ca) <> b ->
      checked (dom (page w') (_originalInput (widget ca))) = b).
Proof.
  intros Hca Hen w'.
  assert (Hset : w' = if bool_decide (_isChecked (widget ca) ≠ b)
                      then toggle a w else w).
  { subst w'. unfold setChecked, isChecked. by rewrite Hca. }
  rewrite Hset. clear Hset w'.
  case_bool_decide as Hne.
  - destruct (toggle_own_state a w ca Hca Hen) as (Hnat & ca' & Hca' & _ & Hv & _).
    assert (Hb : negb (_isChecked (widget ca)) = b)
      by (by destruct (_isChecked (widget ca)), b).
    unfold isChecked. rewrite Hca'. cbn. rewrite Hv, Hnat. by rewrite Hb.
  - unfold isChecked. rewrite Hca. cbn. split; [|done].
    f_equal. by destruct (decide (_isChecked (widget ca) = b)).
Qed.

(** X18. Two calls of [toggle()] on an enabled toggle bring
    [isChecked()] back to what it was, and leave the native input
    agreeing with it. *)
Theorem toggle_twice_restores_state (a : nat) w ca :
  heap w !! a = Some ca ->
  truthy_flag (disabled (_config ca)) = false ->
  let w2 := toggle a (toggle a w) in
  isChecked a w2 = isChecked a w
  /\ checked (dom (page w2) (_originalInput (widget ca))) = _isChecked (widget ca).
Proof.
  intros Hca Hen w2. subst w2.
  destruct (toggle_own_state a w ca Hca Hen)
    as (_ & ca1 & Hca1 & Hin1 & Hv1 & Hcfg1 & _).
  assert (Hen1 : truthy_flag (disabled (_config ca1)) = false) by (by rewrite Hcfg1).
  destruct (toggle_own_state a (toggle a w) ca1 Hca1 Hen1)
    as (Hnat2 & ca2 & Hca2 & _ & Hv2 & _).
  rewrite Hin1, Hv1, negb_involutive in Hnat2.
  rewrite Hv1, negb_involutive in Hv2.
  unfold isChecked. rewrite Hca2, Hca. cbn. by rewrite Hv2.
Qed.

Lemma check_unfold (a : nat) w ca :
  heap w !! a = Some ca ->
  check a w = if _isChecked (widget ca) then w else toggle a w.
Proof.
  intros Hca. unfold check, isChecked. rewrite Hca. cbn.
  by destruct (_isChecked (widget ca)).
Qed.

(** X19. [check()] is idempotent: a second call changes nothing, on
    every world and every instance (enabled, disabled or missing). *)
Theorem toggle_check_is_idempotent (a : nat) w :
  check a (check a w) = check a w.
Proof.
  destruct (heap w !! a) as [ca|] eqn:Hca.
  2:{ assert (Hid : check a w = w) by (unfold check, isChecked; by rewrite Hca).
      by rewrite !Hid. }
  rewrite (check_unfold a w ca Hca).
  destruct (_isChecked (widget ca)) eqn:Hchk.
  { rewrite (check_unfold a w ca Hca). by rewrite Hchk. }
  destruct (truthy_flag (disabled (_config ca))) eqn:Hen.
  - assert (Hsame : toggle a w = w) by (unfold toggle; by rewrite Hca, Hen).
    rewrite Hsame, (check_unfold a w ca Hca), Hchk. exact Hsame.
  - destruct (toggle_own_state a w ca Hca Hen) as (_ & ca' & Hca' & _ & Hv & _).
    rewrite Hchk in Hv. cbn [negb] in Hv.
    by rewrite (check_unfold a (toggle a w) ca' Hca'), Hv.
Qed.

(** X20. A disabled toggle ignores [toggle()], [check()], [uncheck()]
    and [setChecked(b)]: the instances and the page stay as they are. *)
Theorem toggle_disabled_ignores_calls (a : nat) (b : bool) w ca :
  heap w !! a = Some ca ->
  truthy_flag (disabled (_config ca)) = true ->
  toggle a w = w /\ check a w = w /\ uncheck a w = w /\ setChecked b a w = w.
Proof.
  intros Hca Hdis.
  assert (Hsame : toggle a w = w) by (unfold toggle; by rewrite Hca, Hdis).
  unfold check, uncheck, setChecked, isChecked. rewrite Hca. cbn.
  rewrite Hsame. repeat split; try done.
  - by destruct (_isChecked (widget ca)).
  - by destruct (_isChecked (widget ca)).
  - by case_bool_decide.
Qed.

End ToggleState.


Section ToggleCallbacks.

Import Toggle.

Implicit Types (c : Component ToggleFields) (p : Page) (w : World ToggleFields).





End ToggleCallbacks.


(** ** Button: update, destroy and repeated loading *)

Section ButtonLifecycle.

#[local] Existing Instance Button.Button_widget.

Implicit Types (c : Component Button.ButtonFields) (p : Page)
  (w : World Button.ButtonFields).

(** X24. [setLoading(true)] called twice forgets the content: the second
    call saves the spinner and the loading text as the original content,
    and [setLoading(false)] puts those back. *)
Theorem setLoading_twice_keeps_spinner c p :
  let '(c1, p1) := Button.setLoading true c p in
  let '(c2, p2) := Button.setLoading true c1 p1 in
  let '(c3, p3) := Button.setLoading false c2 p2 in
  Button.content c2 p2 = Button.loading_content
  /\ Button.content c3 p3 = Button.loading_content.
Proof.
  pose proof (setLoading_true_effect c p) as H1.
  destruct (Button.setLoading true c p) as [c1 p1].
  destruct H1 as (Hc1 & _).
  pose proof (setLoading_true_effect c1 p1) as H2.
  destruct (Button.setLoading true c1 p1) as [c2 p2].
  destruct H2 as (Hc2 & _ & Ho2 & _).
  pose proof (setLoading_false_effect c2 p2) as H3.
  destruct (Button.setLoading false c2 p2) as [c3 p3].
  destruct H3 as (Hc3 & _).
  split; [done|]. rewrite Hc3, Ho2, Hc1. reflexivity.
Qed.

Lemma setLoading_false_state c p :
  let '(c2, p2) := Button.setLoading false c p in
  Button.cfg_loading (Button._buttonConfig (widget c2)) = false
  /\ ("np-loading" ∉ classList (dom p2 (_element c)))
  /\ last (log p2)
     = Some (Dispatch (Node (_element c)) "np:loading-change" (LoadingDetail false))
  /\ _element c2 = _element c
  /\ _config c2 = _config c
  /\ _listeners c2 = _listeners c
  /\ listeners p2 = listeners p
  /\ Button.cfg_variant (Button._buttonConfig (widget c2))
     = Button.cfg_variant (Button._buttonConfig (widget c)).
Proof.
  unfold Button.setLoading.
  cbn [set_widget widget _element _config Button.set_loading
       Button.set_buttonConfig Button._originalContent Button._buttonConfig
       Button.cfg_loading].
  unfold emit. cbn [log record dom _element set_widget].
  rewrite last_snoc, dom_on_element_same, classList_remove_spec.
  repeat split; [by intros [_ ?]|].
  by destruct (truthy (Button._originalContent (widget c))).
Qed.

Lemma button_onUpdate_without_loading self (opts : Button.ButtonOptions) c p :
  Button.loading opts = None ->
  exists c0 p0,
    _element c0 = _element c /\ _config c0 = _config c
    /\ Button.button_onUpdate self opts c p = Button.setLoading false c0 p0.
Proof.
  intros Hnone. unfold Button.button_onUpdate. rewrite Hnone.
  rewrite bool_decide_eq_true_2 by done. cbn [default].
  destruct (Button.variant opts) as [v|]; [case_bool_decide|];
    cbn [Button.setupInteractions addNodeListener _element set_own_listeners
         set_widget];
    eexists _, _; (split; [|split; [|reflexivity]]); reflexivity.
Qed.

(** X25. [update(newConfig)] with a configuration that has no [loading]
    entry ends the loading state of a live button, as [setVariant] and
    [setSize] do: afterwards [loading] is false, the class [np-loading]
    is gone, the control is disabled exactly if the configuration says
    so, and [np:loading-change] with [loading: false] was the last
    event.  (The class names of the instance and of the new
    configuration are ones that [classList] takes; with another one
    [update] throws before it gets to [onUpdate].) *)
Theorem button_update_without_loading_ends_loading
    self (opts : Button.ButtonOptions) w c :
  heap w !! self = Some c ->
  _destroyed c = false ->
  className_passes (_config c) = true ->
  className_passes (Button.button_base opts) = true ->
  Button.loading opts = None ->
  exists w' c',
    update self opts w = Done w'
    /\ heap w' !! self = Some c'
    /\ Button.cfg_loading (Button._buttonConfig (widget c')) = false
    /\ ("np-loading" ∉ classList (dom (page w') (_element c)))
    /\ Button.is_disabled c' (page w') = truthy_flag (disabled (_config c'))
    /\ last (log (page w'))
       = Some (Dispatch (Node (_element c)) "np:loading-change"
                 (LoadingDetail false)).
Proof.
  intros Hc Hd Hold Hnew Hnone.
  destruct (update_returns (H := Button.Button_widget) self opts w c Hc Hd Hold Hnew)
    as (c0 & p0 & Hrun & Hel & _).
  cbn [onUpdate Button.Button_widget] in Hrun.
  destruct (button_onUpdate_without_loading self opts c0 p0 Hnone)
    as (c1 & p1 & Hel1 & _ & Hup).
  rewrite Hup in Hrun.
  pose proof (setLoading_false_state c1 p1) as Hst.
  pose proof (setLoading_false_effect c1 p1) as Heff.
  destruct (Button.setLoading false c1 p1) as [c2 p2].
  destruct Hst as (Hload & Hcls & Hlast & _ & Hcfg & _).
  destruct Heff as [_ Hdis].
  rewrite Hel1, Hel in Hcls, Hlast.
  eexists _, c2. split; [exact Hrun|]. cbn [heap page fst snd].
  rewrite Hcfg. split; [|done].
  apply list_lookup_insert_eq. by apply lookup_lt_Some in Hc.
Qed.

Lemma setupInteractions_registers self c p :
  let '(c', p') := Button.setupInteractions self c p in
  exists news,
    _listeners c' = _listeners c ++ news
    /\ listeners p' = listeners p ++ news
    /\ length news = 6%nat
    /\ Forall (fun l => listener_owner l = self) news
    /\ widget c' = widget c.
Proof.
  cbn [Button.setupInteractions addNodeListener _element set_own_listeners
       _listeners listeners set_listeners next_listener widget].
  eexists [_; _; _; _; _; _]. rewrite <- !app_assoc. cbn [app].
  repeat split. repeat constructor.
Qed.

(** X28. [setVariant(variant)] on a live button of another variant runs
    [setupInteractions] again: six more listeners of the instance are
    registered on the page and recorded by the instance, after the ones
    that were there, and the button has the new variant. *)
Theorem button_setVariant_registers_listeners_again
    self (v : Button.ButtonVariant) w c :
  heap w !! self = Some c ->
  _destroyed c = false ->
  className_passes (_config c) = true ->
  v <> Button.cfg_variant (Button._buttonConfig (widget c)) ->
  exists w' c' news,
    Button.setVariant self v w = Done w'
    /\ heap w' !! self = Some c'
    /\ _listeners c' = _listeners c ++ news
    /\ listeners (page w') = listeners (page w) ++ news
    /\ length news = 6%nat
    /\ Forall (fun l => listener_owner l = self) news
    /\ Button.cfg_variant (Button._buttonConfig (widget c')) = v.
Proof.
  intros Hc Hd Hold Hne. unfold Button.setVariant.
  destruct (update_returns (H := Button.Button_widget) self
              {| Button.button_base := no_config; Button.variant := Some v;
                 Button.size := None; Button.loading := None;
                 Button.onClick := false |}
              w c Hc Hd Hold eq_refl)
    as (c0 & p0 & Hrun & _ & _ & Hw0 & Hl0 & _ & Hls0 & _).
  cbn [onUpdate Button.Button_widget] in Hrun.
  unfold Button.button_onUpdate in Hrun.
  cbn [Button.variant Button.size Button.loading default] in Hrun.
  rewrite Hw0 in Hrun.
  rewrite bool_decide_eq_true_2 in Hrun by exact Hne.
  rewrite bool_decide_eq_true_2 in Hrun by done.
  revert Hrun.
  match goal with
  | |- context [Button.setupInteractions self ?c1 ?p1] =>
      pose proof (setupInteractions_registers self c1 p1) as Hreg;
      assert (Hp1 : listeners p1 = listeners p0) by reflexivity;
      assert (Hc1 : _listeners c1 = _listeners c0) by reflexivity;
      assert (Hv1 : Button.cfg_variant (Button._buttonConfig (widget c1)) = v)
        by reflexivity;
      destruct (Button.setupInteractions self c1 p1) as [c2 p2]
  end.
  destruct Hreg as (news & Hown & Hpage & Hlen & Hall & Hw).
  pose proof (setLoading_false_state c2 p2) as Hst.
  destruct (Button.setLoading false c2 p2) as [c3 p3].
  destruct Hst as (_ & _ & _ & _ & _ & Hl3 & Hp3 & Hv3).
  intros Hrun. eexists _, c3, news. split; [exact Hrun|]. cbn [heap page fst snd].
  rewrite Hl3, Hp3, Hv3, Hown, Hpage, Hp1, Hc1, Hw, Hv1, Hl0, Hls0.
  split; [|done].
  apply list_lookup_insert_eq. by apply lookup_lt_Some in Hc.
Qed.

(** X26. [destroy()] on a button that is loading puts the saved content
    back, when that content is not empty; the control stays disabled as
    [setLoading(true)] left it.  (The class name of the instance is one
    that [classList] takes; with another one [destroy()] throws before
    it gets to [onDestroy].) *)
Theorem button_destroy_restores_content self w c (saved : jsstring) :
  heap w !! self = Some c ->
  _destroyed c = false ->
  className_passes (_config c) = true ->
  Button.cfg_loading (Button._buttonConfig (widget c)) = true ->
  Button._originalContent (widget c) = Some saved ->
  saved <> [] ->
  exists w',
    destroy self w = Done w'
    /\ Button.content c (page w') = saved
    /\ Button.is_disabled c (page w') = Button.is_disabled c (page w).
Proof.
  intros Hc Hd Hold Hload Hsaved Hne.
  destruct (destroy_method_returns (H := Button.Button_widget) c (page w) Hd Hold)
    as (p1 & Hrun & Hdom & _).
  eexists. split; [unfold destroy; apply (invoke_done _ _ _ c); [done | exact Hrun]|].
  cbn [page]. unfold Button.content, Button.is_disabled. rewrite Hdom.
  cbn [onDestroy Button.Button_widget]. unfold Button.button_onDestroy.
  cbn [widget set_own_listeners _element]. rewrite Hload, Hsaved.
  assert (Htruthy : truthy (Some saved) = true) by (by destruct saved).
  rewrite Htruthy. cbn [andb default fst snd].
  unfold Dom.update at 1 2. rewrite !decide_True by done.
  cbn [innerHTML set_innerHTML]. split; [done|].
  unfold get_disabled. cbn [attributes set_innerHTML].
  destruct (truthy_className (_config c)); unfold Dom.update;
    rewrite !decide_True by done; reflexivity.
Qed.

End ButtonLifecycle.

(** ** Debounce and throttle *)

Lemma to_long_in_range (z : Z) : 0 <= z < 2 ^ 31 -> Timing.to_long z = z.
Proof.
  intros Hz. unfold Timing.to_long. cbv zeta.
  rewrite Z.mod_small by lia.
  destruct (z <? 2 ^ 31) eqn:Hlt; [done|]. apply Z.ltb_ge in Hlt. lia.
Qed.

Section Timers.

Import Timing.

Context {A : Type}.

Implicit Types (h : list (Entry A)) (e : Entry A).

(** How a history that was extended by one entry splits around an
    earlier entry. *)
Lemma snoc_split (h : list (Entry A)) (x y : Entry A) before after :
  h ++ [x] = before ++ y :: after ->
  (after = [] /\ h = before /\ x = y)
  \/ exists after', after = after' ++ [x] /\ h = before ++ y :: after'.
Proof.
  intros Heq. destruct (decide (after = [])) as [->|Hne].
  - left. apply app_inj_tail in Heq as [-> ->]. done.
  - right. destruct (exists_last Hne) as (after' & z & ->).
    rewrite app_comm_cons, app_assoc in Heq.
    apply app_inj_tail in Heq as [-> ->]. by exists after'.
Qed.

Lemma debounce_run_snoc (wait : Z) (events : list (Event A)) (ev : Event A) :
  debounce_run wait (events ++ [ev])
  = debounce_step wait (debounce_run wait events) ev.
Proof. unfold debounce_run. by rewrite foldl_app. Qed.

Lemma debounce_invariant (wait : Z) (events : list (Event A)) :
  let s := debounce_run wait events in
  let delay := Z.max 0 (to_long wait) in
  (pending (debounce_host s) = []
   \/ exists tm earlier t0,
        pending (debounce_host s) = [tm]
        /\ timeout s = Some (timer_id tm)
        /\ history (debounce_host s) = earlier ++ [Called t0 (captured tm)]
        /\ due tm = t0 + delay)
  /\ forall before t args after,
       history (debounce_host s) = before ++ Invoked t args :: after ->
       exists earlier t0,
         before = earlier ++ [Called t0 args] /\ t0 + delay <= t.
Proof.
  induction events as [|ev events IH] using rev_ind.
  { split; [by left|]. intros before t args after Heq. by destruct before. }
  rewrite debounce_run_snoc. cbn zeta in *.
  destruct IH as [Htimers Hhist].
  set (s := debounce_run wait events) in *.
  destruct ev as [args | normally | ms | id]; cbn [debounce_step].
  - (* a call *)
    cbn [setTimeout clearTimeout observe timeout debounce_host pending history
         next_id now].
    split.
    + right.
      assert (Hcleared : pending (clearTimeout (timeout s)
                           (observe (Called (now (debounce_host s)) args)
                              (debounce_host s))) = []).
      { destruct Htimers as [Hnone | (tm & earlier & t0 & Hone & Hid & _)].
        - unfold clearTimeout. destruct (timeout s); cbn [pending observe];
            by rewrite Hnone.
        - rewrite Hid. cbn [clearTimeout pending observe]. rewrite Hone.
          rewrite filter_cons, decide_False by (intros Hne; by apply Hne).
          done. }
      destruct (timeout s); cbn [clearTimeout pending observe history now next_id]
        in *; rewrite Hcleared; cbn [app];
        eexists _, (history (debounce_host s)), (now (debounce_host s));
        cbn [timer_id captured due]; done.
    + intros before t a after Heq.
      assert (Hh : history (clearTimeout (timeout s)
                      (observe (Called (now (debounce_host s)) args)
                         (debounce_host s)))
                   = history (debounce_host s)
                     ++ [Called (now (debounce_host s)) args])
        by (by destruct (timeout s)).
      rewrite Hh in Heq.
      apply snoc_split in Heq as [(_ & _ & [=]) | (after' & -> & Heq)].
      by apply (Hhist before t a after').
  - (* the invocation of func ends *)
    done.
  - (* time passes *)
    cbn [elapse debounce_host timeout pending history]. split; [|done].
    destruct Htimers as [Hnone | Hone]; [by left | by right].
  - (* the host gets to a timer *)
    unfold take_due.
    destruct Htimers as [Hnone | (tm & earlier & t0 & Hone & Hid & Hlast & Hdue)].
    { rewrite Hnone. cbn [List.find]. split; [by left | done]. }
    rewrite Hone. cbn [List.find].
    destruct (timer_id tm =? id)%nat eqn:Hmatch.
    2:{ split; [|done]. right. by exists tm, earlier, t0. }
    apply Nat.eqb_eq in Hmatch as <-.
    destruct (due tm <=? now (debounce_host s)) eqn:Hready.
    2:{ split; [|done]. right. by exists tm, earlier, t0. }
    apply Z.leb_le in Hready.
    cbn [debounce_host observe pending history now timeout].
    split.
    + left. rewrite filter_cons, decide_False by (intros Hne; by apply Hne).
      done.
    + intros before t a after Heq.
      apply snoc_split in Heq as [(_ & Hb & [= <- <-]) | (after' & -> & Heq)].
      * exists earlier, t0. rewrite <- Hb, Hlast. split; [done | lia].
      * by apply (Hhist before t a after').
Qed.

(** X22. A debounced function invokes [func] only with the arguments of
    the call that came last before the invocation, and not before [wait]
    milliseconds have passed since that call: in the history, what stands
    just before an invocation is the call whose arguments it passes on.
    ([wait] is a delay that [setTimeout] takes as it is: from 0 to
    2^31 - 1.) *)
Theorem debounce_invokes_last_call_after_wait
    (wait : Z) (events : list (Event A)) before t args after :
  0 <= wait < 2 ^ 31 ->
  history (debounce_host (debounce_run wait events))
  = before ++ Invoked t args :: after ->
  exists earlier t0,
    before = earlier ++ [Called t0 args] /\ t0 + wait <= t.
Proof.
  intros Hwait Heq.
  destruct (debounce_invariant wait events) as [_ Hhist].
  destruct (Hhist before t args after Heq) as (earlier & t0 & Hb & Hle).
  exists earlier, t0. split; [done|].
  rewrite to_long_in_range in Hle by done. lia.
Qed.

Lemma throttle_invariant (limit : Z) (events : list (Event A)) :
  prompt events = true ->
  let delay := Z.max 0 (to_long limit) in
  let h := history (throttle_host (throttle_run limit events)) in
  (forall before t args after,
     h = before ++ Invoked t args :: after ->
     exists earlier, before = earlier ++ [Called t args])
  /\ (forall l1 t1 a1 l2 t2 a2 l3,
        h = l1 ++ Invoked t1 a1 :: l2 ++ Invoked t2 a2 :: l3 ->
        t1 + delay <= t2).
Proof.
  intros Hprompt delay h. subst h. unfold throttle_run.
  (* what holds between two calls: no invocation is running, and the
     timer, if there is one, is due not before [limit] has passed since
     the last invocation *)
  set (inv := fun s : Throttled A =>
    running s = 0%nat
    /\ (if inThrottle s
        then exists tm, pending (throttle_host s) = [tm]
               /\ forall t a, Invoked t a ∈ history (throttle_host s) ->
                    t + delay <= due tm
        else pending (throttle_host s) = []
             /\ forall t a, Invoked t a ∈ history (throttle_host s) ->
                  t + delay <= now (throttle_host s))
    /\ (forall before t args after,
          history (throttle_host s) = before ++ Invoked t args :: after ->
          exists earlier, before = earlier ++ [Called t args])
    /\ (forall l1 t1 a1 l2 t2 a2 l3,
          history (throttle_host s)
          = l1 ++ Invoked t1 a1 :: l2 ++ Invoked t2 a2 :: l3 ->
          t1 + delay <= t2)).
  assert (Hcall : forall s args, inv s ->
            inv (throttle_step limit (throttle_step limit s (Call args))
                   (Return true))).
  { intros s args (Hrun & Htimers & Hprev & Hapart). unfold inv.
    cbn [throttle_step].
    destruct (inThrottle s) eqn:Hin; cbn [negb running inThrottle throttle_host].
    + rewrite Hrun.
      cbn [inThrottle running throttle_host observe pending history].
      destruct Htimers as (tm & Hone & Hdue).
      split; [done|]. split; [|split].
      * exists tm. split; [done|]. intros t a [Ht | Ht]%elem_of_app.
        -- by apply (Hdue t a).
        -- apply list_elem_of_singleton in Ht. done.
      * intros before t a after Heq.
        apply snoc_split in Heq as [(_ & _ & [=]) | (after' & -> & Heq)].
        by apply (Hprev before t a after').
      * intros l1 t1 a1 l2 t2 a2 l3 Heq.
        rewrite app_comm_cons, app_assoc in Heq.
        apply snoc_split in Heq as [(_ & _ & [=]) | (after' & -> & Heq)].
        rewrite <- app_assoc, <- app_comm_cons in Heq.
        by apply (Hapart l1 t1 a1 l2 t2 a2 after').
    + cbn [setTimeout inThrottle running throttle_host observe pending history
           now next_id].
      destruct Htimers as (Hnone & Hnow).
      split; [done|]. split; [|split].
      * eexists. rewrite Hnone. cbn [app]. split; [done|].
        cbn [due]. intros t a [[Ht | Ht]%elem_of_app | Ht]%elem_of_app.
        -- specialize (Hnow t a Ht). lia.
        -- apply list_elem_of_singleton in Ht. done.
        -- apply list_elem_of_singleton in Ht as [= -> ->]. lia.
      * intros before t a after Heq.
        apply snoc_split in Heq as [(_ & Hb & [= <- <-]) | (after' & -> & Heq)].
        -- by exists (history (throttle_host s)).
        -- apply snoc_split in Heq as [(_ & _ & [=]) | (after'' & -> & Heq)].
           by apply (Hprev before t a after'').
      * intros l1 t1 a1 l2 t2 a2 l3 Heq.
        rewrite app_comm_cons, app_assoc in Heq.
        apply snoc_split in Heq as [(_ & Hb & [= <- <-]) | (after' & -> & Heq)].
        -- assert (Hmem : Invoked t1 a1 ∈ history (throttle_host s)).
           { assert (Hall : Invoked t1 a1
                            ∈ history (throttle_host s)
                              ++ [Called (now (throttle_host s)) args]).
             { rewrite Hb. apply elem_of_app. right. apply list_elem_of_here. }
             apply elem_of_app in Hall as [?|Hc]; [done|].
             apply list_elem_of_singleton in Hc. done. }
           by apply (Hnow t1 a1).
        -- apply snoc_split in Heq as [(_ & _ & [=]) | (after'' & -> & Heq)].
           rewrite <- app_assoc, <- app_comm_cons in Heq.
           by apply (Hapart l1 t1 a1 l2 t2 a2 after''). }
  assert (Helapse : forall s ms, inv s -> inv (throttle_step limit s (Elapse ms))).
  { intros s ms (Hrun & Htimers & Hprev & Hapart). unfold inv.
    cbn [throttle_step elapse inThrottle running throttle_host pending history now].
    split; [done|]. split; [|by split].
    destruct (inThrottle s) eqn:Hin; [done|].
    destruct Htimers as (Hnone & Hnow). split; [done|].
    intros t a Ht. specialize (Hnow t a Ht). lia. }
  assert (Hfire : forall s id, inv s -> inv (throttle_step limit s (Fire id))).
  { intros s id Hs. pose proof Hs as (Hrun & Htimers & Hprev & Hapart).
    cbn [throttle_step]. rewrite Hrun. unfold take_due.
    destruct (inThrottle s) eqn:Hin.
    2:{ destruct Htimers as (Hnone & Hnow). rewrite Hnone. by cbn [List.find]. }
    destruct Htimers as (tm & Hone & Hdue).
    rewrite Hone. cbn [List.find].
    destruct (timer_id tm =? id)%nat eqn:Hmatch; [|done].
    apply Nat.eqb_eq in Hmatch as <-.
    destruct (due tm <=? now (throttle_host s)) eqn:Hready; [|done].
    apply Z.leb_le in Hready.
    destruct (captured tm). unfold inv.
    cbn [inThrottle running throttle_host pending history now].
    split; [done|]. split; [|by split]. split.
    + rewrite filter_cons, decide_False by (intros Hne; by apply Hne). done.
    + intros t a Ht. specialize (Hdue t a Ht). lia. }
  assert (Hall : forall n (evs : list (Event A)) s,
            (length evs <= n)%nat -> prompt evs = true -> inv s ->
            inv (foldl (throttle_step limit) s evs)).
  { induction n as [|n IH]; intros evs s Hlen Hp Hs.
    { destruct evs; [done | cbn in Hlen; lia]. }
    destruct evs as [|ev rest]; [done|].
    destruct ev as [args | normally | ms | id]; cbn [prompt] in Hp.
    - destruct rest as [|[a | [] | ms | id] rest']; try done.
      cbn [foldl]. apply IH; [cbn in Hlen; lia | done |]. by apply Hcall.
    - done.
    - cbn [foldl]. apply IH; [cbn in Hlen; lia | done |]. by apply Helapse.
    - cbn [foldl]. apply IH; [cbn in Hlen; lia | done |]. by apply Hfire. }
  assert (Hstart : inv throttle_start).
  { split; [done|]. split; [|split].
    - split; [done|]. intros t a Hin. by apply elem_of_nil in Hin.
    - intros before t args after Heq. by destruct before.
    - intros l1 t1 a1 l2 t2 a2 l3 Heq. by destruct l1. }
  destruct (Hall (length events) events throttle_start (le_n _) Hprompt Hstart)
    as (_ & _ & Hprev & Hapart).
  by split.
Qed.

(** X23. A throttled function whose [func] returns normally, without
    calling the function again and before any time passes, invokes
    [func] at once, with the arguments of the call at hand, or not at
    all, and two invocations are at least [limit] milliseconds apart.
    ([limit] is a delay that [setTimeout] takes as it is: from 0 to
    2^31 - 1.) *)
Theorem throttle_spaces_invocations (limit : Z) (events : list (Event A)) :
  0 <= limit < 2 ^ 31 ->
  prompt events = true ->
  let h := history (throttle_host (throttle_run limit events)) in
  (forall before t args after,
     h = before ++ Invoked t args :: after ->
     exists earlier, before = earlier ++ [Called t args])
  /\ (forall l1 t1 a1 l2 t2 a2 l3,
        h = l1 ++ Invoked t1 a1 :: l2 ++ Invoked t2 a2 :: l3 ->
        t1 + limit <= t2).
Proof.
  intros Hlimit Hprompt h.
  destruct (throttle_invariant limit events Hprompt) as [Hprev Hapart].
  split; [done|]. intros l1 t1 a1 l2 t2 a2 l3 Heq.
  specialize (Hapart l1 t1 a1 l2 t2 a2 l3 Heq).
  rewrite to_long_in_range in Hapart by done. lia.
Qed.

End Timers.

Lemma debounce_witness :
  let events : list (Timing.Event nat) :=
    [Timing.Call 1%nat; Timing.Elapse 100; Timing.Fire 1; Timing.Call 2%nat;
     Timing.Elapse 300; Timing.Fire 1; Timing.Fire 2] in
  Timing.history (Timing.debounce_host (Timing.debounce_run 300 events))
  = [Timing.Called 0 1%nat; Timing.Called 100 2%nat; Timing.Invoked 400 2%nat]
  /\ exists earlier t0,
       [Timing.Called 0 1%nat; Timing.Called 100 2%nat]
       = earlier ++ [Timing.Called t0 2%nat]
       /\ t0 + 300 <= 400.
Proof.
  intros events. split; [vm_compute; reflexivity|].
  exact (debounce_invokes_last_call_after_wait 300 events
           [Timing.Called 0 1%nat; Timing.Called 100 2%nat] 400 2%nat []
           ltac:(lia) ltac:(vm_compute; reflexivity)).
Defined.

Lemma throttle_witness :
  let events : list (Timing.Event nat) :=
    [Timing.Call 1%nat; Timing.Return true; Timing.Elapse 10;
     Timing.Call 2%nat; Timing.Return true; Timing.Elapse 40;
     Timing.Fire 1; Timing.Call 3%nat; Timing.Return true] in
  Timing.history (Timing.throttle_host (Timing.throttle_run 50 events))
  = [Timing.Called 0 1%nat; Timing.Invoked 0 1%nat; Timing.Called 10 2%nat;
     Timing.Called 50 3%nat; Timing.Invoked 50 3%nat]
  /\ 0 + 50 <= 50.
Proof.
  intros events. split; [vm_compute; reflexivity|].
  destruct (throttle_spaces_invocations 50 events ltac:(lia)
              ltac:(vm_compute; reflexivity)) as [_ Hapart].
  exact (Hapart [Timing.Called 0 1%nat] 0 1%nat
           [Timing.Called 10 2%nat; Timing.Called 50 3%nat] 50 3%nat []
           ltac:(vm_compute; reflexivity)).
Defined.

(** ** The properties above on concrete instances *)

Section LifecycleExamples.

Import Themes Dom Page Base.

#[local] Existing Instance Plain.Plain_widget.

Lemma update_after_destroy_witness :
  let w0 : World unit :=
    {| heap := []; page := initial_page (fun _ => blank "div") |} in
  let w := state (Plain.new_plain 3%nat no_config w0) in
  let w1 := state (destroy 0%nat w) in
  thrown (Plain.new_plain 3%nat no_config w0) = None
  /\ thrown (destroy 0%nat w) = None
  /\ update 0%nat {| theme := None; className := Some "hero";
                     disabled := None |} w1
     = Done {| heap := heap w1;
               page := record (Warn "Cannot update destroyed component")
                         (page w1) |}.
Proof.
  intros w0 w w1. split; [vm_compute; reflexivity|].
  split; [vm_compute; reflexivity|].
  let v := eval vm_compute in (heap w1 !! 0%nat) in
  match v with
  | Some ?c0 =>
      exact (update_after_destroy_is_refused 0%nat
               {| theme := None; className := Some "hero"; disabled := None |}
               w1 c0 ltac:(vm_compute; reflexivity) ltac:(reflexivity))
  end.
Defined.

Lemma destroy_unregisters_witness :
  let w0 : World unit :=
    {| heap := []; page := initial_page (fun _ => blank "div") |} in
  let w := state (Plain.new_plain 3%nat no_config w0) in
  thrown (Plain.new_plain 3%nat no_config w0) = None
  /\ ThemeListener 0 0 ∈ listeners (page w)
  /\ ThemeListener 0 0 ∉ listeners (page (state (destroy 0%nat w))).
Proof.
  intros w0 w. split; [vm_compute; reflexivity|].
  split; [vm_compute; apply list_elem_of_here|].
  let v := eval vm_compute in (heap w !! 0%nat) in
  match v with
  | Some ?c0 =>
      apply (destroy_unregisters 0%nat c0 w ltac:(vm_compute; reflexivity)
               ltac:(reflexivity) (ThemeListener 0 0))
  end.
  cbn [_listeners]. apply list_elem_of_here.
Defined.

Lemma setTheme_skips_witness :
  let w0 : World unit :=
    {| heap := []; page := initial_page (fun _ => blank "div") |} in
  let config := {| theme := Some (Custom 0 lightTheme); className := None;
                   disabled := None |} in
  let w := state (Plain.new_plain 3%nat config w0) in
  thrown (Plain.new_plain 3%nat config w0) = None
  /\ heap (setTheme (Preset preset_dark) w) !! 0%nat = heap w !! 0%nat.
Proof.
  intros w0 config w. split; [vm_compute; reflexivity|].
  let v := eval vm_compute in (heap w !! 0%nat) in
  match v with
  | Some ?c0 =>
      assert (Hc : heap w !! 0%nat = Some c0) by (vm_compute; reflexivity);
      rewrite Hc;
      exact (setTheme_skips_instances_without_preset (Preset preset_dark) w
               0%nat c0 Hc ltac:(reflexivity))
  end.
Defined.

End LifecycleExamples.

Section CardExamples.

Import Themes Dom Page Base.

#[local] Existing Instance Card.Card_widget.


Lemma card_setVariant_witness :
  let c : Component Card.CardFields :=
    {| _element := 3%nat; _config := no_config;
       _theme := lightTheme; _listeners := []; _destroyed := false;
       widget := {| Card.cfg_variant := raised; Card.cfg_size := Utils.md;
                    Card.cfg_padding := None |} |} in
  let w : World Card.CardFields :=
    {| heap := [c];
       page := initial_page
                 (fun _ => addClassName "card-raised"
                             (addClassName "component" (blank "div"))) |} in
  Card.getVariant 0%nat w = Some raised
  /\ "np-card-raised" ∈ classList (dom (page w) 3%nat)
  /\ exists w', Card.setVariant 0%nat inset w = Done w'
       /\ Card.getVariant 0%nat w' = Some inset
       /\ "np-card-inset" ∈ classList (dom (page w') 3%nat)
       /\ "np-card-raised" ∉ classList (dom (page w') 3%nat).
Proof.
  intros c w. split; [reflexivity|].
  split; [vm_compute; apply list_elem_of_further; apply list_elem_of_here|].
  exact (card_setVariant_swaps_variant_class 0%nat inset w c
           ltac:(reflexivity) ltac:(reflexivity) ltac:(reflexivity)
           ltac:(discriminate)).
Defined.

Lemma card_setSize_padding_witness :
  let c : Component Card.CardFields :=
    {| _element := 3%nat; _config := no_config;
       _theme := lightTheme; _listeners := []; _destroyed := false;
       widget := {| Card.cfg_variant := raised; Card.cfg_size := Utils.md;
                    Card.cfg_padding := Some "4px" |} |} in
  let w : World Card.CardFields :=
    {| heap := [c];
       page := initial_page
                 (fun _ => setProperty "padding" "4px" (blank "div")) |} in
  style (dom (page w) 3%nat) !! "padding" = Some "4px"
  /\ exists w', Card.setSize 0%nat Utils.lg w = Done w'
       /\ Card.getSize 0%nat w' = Some Utils.lg
       /\ style (dom (page w') 3%nat) !! "padding" = Some "16px 24px"
       /\ exists c', heap w' !! 0%nat = Some c'
            /\ Card.cfg_padding (widget c') = Some "4px".
Proof.
  intros c w. split; [vm_compute; reflexivity|].
  exact (card_setSize_overrides_padding 0%nat Utils.lg w c
           ltac:(reflexivity) ltac:(reflexivity) ltac:(reflexivity)
           ltac:(discriminate)).
Defined.

Lemma card_setPadding_empty_witness :
  let c : Component Card.CardFields :=
    {| _element := 3%nat; _config := no_config;
       _theme := lightTheme; _listeners := []; _destroyed := false;
       widget := {| Card.cfg_variant := raised; Card.cfg_size := Utils.md;
                    Card.cfg_padding := Some "4px" |} |} in
  let w : World Card.CardFields :=
    {| heap := [c];
       page := initial_page
                 (fun _ => setProperty "padding" "4px" (blank "div")) |} in
  exists w', Card.setPadding 0%nat "" w = Done w'
    /\ style (dom (page w') 3%nat) !! "padding" = Some "4px"
    /\ exists c', heap w' !! 0%nat = Some c'
         /\ Card.cfg_padding (widget c') = Some "".
Proof.
  intros c w.
  destruct (card_setPadding_empty_keeps_style 0%nat w c
              ltac:(reflexivity) ltac:(reflexivity) ltac:(reflexivity))
    as (w' & Hset & Hstyle & Hcfg).
  exists w'. split; [exact Hset|]. split; [|exact Hcfg].
  change (style (dom (page w') 3%nat) = style (dom (page w) 3%nat)) in Hstyle.
  rewrite Hstyle. vm_compute. reflexivity.
Defined.

End CardExamples.

Section InputExamples.

Import Themes Dom Page Base.

Lemma setLoading_restores_witness :
  let c : Component Button.ButtonFields :=
    {| _element := 0%nat; _config := no_config; _theme := lightTheme;
       _listeners := []; _destroyed := false;
       widget := {| Button._buttonConfig :=
                      {| Button.cfg_variant := Button.primary;
                         Button.cfg_size := md; Button.cfg_loading := false;
                         Button.cfg_onClick := false |};
                    Button._loadingSpinner := None;
                    Button._originalContent := None |} |} in
  let p := initial_page (fun _ => set_innerHTML (lit "Save") (blank "button")) in
  let '(c1, p1) := Button.setLoading true c p in
  let '(c2, p2) := Button.setLoading false c1 p1 in
  Button.content c1 p1 = Button.loading_content
  /\ Button.is_disabled c1 p1 = true
  /\ Button.content c2 p2 = Button.content c p
  /\ Button.is_disabled c2 p2 = truthy_flag (disabled (_config c)).
Proof.
  intros c p.
  exact (setLoading_restores_nonempty_content c p ltac:(vm_compute; discriminate)).
Defined.

Lemma input_validate_with_rules_witness :
  let config := {| required := Some true; email := Some true;
                   minLength := None; maxLength := None;
                   pattern := None; custom := None |} in
  let rules := RuleCfg config in
  let c : Component Input.InputFields :=
    {| _element := 0%nat; _config := no_config; _theme := lightTheme;
       _listeners := []; _destroyed := false;
       widget := Input.input_fields
                   {| Input.input_base := no_config;
                      Input.validate_rules := Some rules;
                      Input.placeholder := None; Input.errorMessage := None;
                      Input.showValidation := None;
                      Input.validateOn := None |} |} in
  let p := initial_page (fun _ => set_value (lit "nobody") (blank "input")) in
  let value := getElementValue (dom p (_element c)) in
  let '(r, c', p') := Input.input_validate c p in
  r = validateValue value rules
  /\ Input.getValidationResult (fun f => f) c' = Some r
  /\ Input.input_isValid c' = isValid r
  /\ ValidationManager.getValidationState (_element c) p' = Some r
  /\ attributes (dom p' (_element c)) !! "aria-invalid"
     = Some (if isValid r then "false" else "true")
  /\ ("np-error" ∈ classList (dom p' (_element c)) <-> isValid r = false)
  /\ last (log p')
     = Some (Dispatch (Node (_element c)) "np:validation" (ValidationDetail r value)).
Proof.
  intros config rules c p.
  exact (input_validate_with_rules c p config ltac:(reflexivity)
           ltac:(reflexivity) ltac:(reflexivity) ltac:(reflexivity)).
Defined.

End InputExamples.

Section ToggleExamples.

Import Themes Dom Page Base.

(** A checkbox toggle on the input 0 with its [change] listener, and the
    page it lives on. *)
Lemma toggle_setChecked_witness :
  let box := setAttribute "type" "checkbox" (blank "input") in
  let c : Component Toggle.ToggleFields :=
    {| _element := 10%nat; _config := no_config; _theme := lightTheme;
       _listeners := [NodeListener 0 0 0%nat "change" Toggle.sync_label];
       _destroyed := false;
       widget := {| Toggle.cfg_type := Toggle.checkbox;
                    Toggle.cfg_size := Utils.md;
                    Toggle.cfg_animated := true; Toggle.cfg_checked := false;
                    Toggle.cfg_onChange := true; Toggle._isChecked := false;
                    Toggle._wrapper := Some 10%nat;
                    Toggle._slider := Some 11%nat;
                    Toggle._originalInput := 0%nat |} |} in
  let w : World Toggle.ToggleFields :=
    {| heap := [c];
       page := set_listeners
                 [NodeListener 0 0 0%nat "change" Toggle.sync_label] 1%nat
                 (initial_page
                    (fun k => if (k <? 1)%nat then box else blank "div")) |} in
  let w' := Toggle.setChecked true 0%nat w in
  Toggle.isChecked 0%nat w = Some false
  /\ Toggle.isChecked 0%nat w' = Some true
  /\ checked (dom (page w') 0%nat) = true.
Proof.
  intros box c w w'. split; [reflexivity|].
  destruct (toggle_setChecked_reaches_state 0%nat true w c
              ltac:(reflexivity) ltac:(reflexivity))
    as [Hstate Hnative].
  split; [exact Hstate|]. apply Hnative. discriminate.
Defined.

Lemma toggle_twice_witness :
  let box := setAttribute "type" "checkbox" (blank "input") in
  let c : Component Toggle.ToggleFields :=
    {| _element := 10%nat; _config := no_config; _theme := lightTheme;
       _listeners := [NodeListener 0 0 0%nat "change" Toggle.sync_label];
       _destroyed := false;
       widget := {| Toggle.cfg_type := Toggle.checkbox;
                    Toggle.cfg_size := Utils.md;
                    Toggle.cfg_animated := true; Toggle.cfg_checked := false;
                    Toggle.cfg_onChange := true; Toggle._isChecked := false;
                    Toggle._wrapper := Some 10%nat;
                    Toggle._slider := Some 11%nat;
                    Toggle._originalInput := 0%nat |} |} in
  let w : World Toggle.ToggleFields :=
    {| heap := [c];
       page := set_listeners
                 [NodeListener 0 0 0%nat "change" Toggle.sync_label] 1%nat
                 (initial_page
                    (fun k => if (k <? 1)%nat then box else blank "div")) |} in
  let w1 := Toggle.toggle 0%nat w in
  let w2 := Toggle.toggle 0%nat w1 in
  Toggle.isChecked 0%nat w1 = Some true
  /\ Toggle.isChecked 0%nat w2 = Toggle.isChecked 0%nat w
  /\ checked (dom (page w2) 0%nat) = false.
Proof.
  intros box c w w1 w2. split; [vm_compute; reflexivity|].
  exact (toggle_twice_restores_state 0%nat w c
           ltac:(reflexivity) ltac:(reflexivity)).
Defined.

Lemma toggle_disabled_witness :
  let box := setAttribute "type" "checkbox" (blank "input") in
  let c : Component Toggle.ToggleFields :=
    {| _element := 10%nat;
       _config := {| theme := None; className := None;
                     disabled := Some true |};
       _theme := lightTheme;
       _listeners := [NodeListener 0 0 0%nat "change" Toggle.sync_label];
       _destroyed := false;
       widget := {| Toggle.cfg_type := Toggle.checkbox;
                    Toggle.cfg_size := Utils.md;
                    Toggle.cfg_animated := true; Toggle.cfg_checked := false;
                    Toggle.cfg_onChange := true; Toggle._isChecked := false;
                    Toggle._wrapper := Some 10%nat;
                    Toggle._slider := Some 11%nat;
                    Toggle._originalInput := 0%nat |} |} in
  let w : World Toggle.ToggleFields :=
    {| heap := [c];
       page := set_listeners
                 [NodeListener 0 0 0%nat "change" Toggle.sync_label] 1%nat
                 (initial_page
                    (fun k => if (k <? 1)%nat then box else blank "div")) |} in
  Toggle.toggle 0%nat w = w /\ Toggle.check 0%nat w = w
  /\ Toggle.uncheck 0%nat w = w /\ Toggle.setChecked true 0%nat w = w.
Proof.
  intros box c w.
  exact (toggle_disabled_ignores_calls 0%nat true w c
           ltac:(reflexivity) ltac:(reflexivity)).
Defined.


End ToggleExamples.

Section ButtonExamples.

Import Themes Dom Page Base.

#[local] Existing Instance Button.Button_widget.

Lemma button_update_ends_loading_witness :
  let c : Component Button.ButtonFields :=
    {| _element := 0%nat; _config := no_config; _theme := lightTheme;
       _listeners := []; _destroyed := false;
       widget := {| Button._buttonConfig :=
                      {| Button.cfg_variant := Button.primary;
                         Button.cfg_size := md; Button.cfg_loading := false;
                         Button.cfg_onClick := false |};
                    Button._loadingSpinner := None;
                    Button._originalContent := None |} |} in
  let p := initial_page (fun _ => set_innerHTML (lit "Save") (blank "button")) in
  let loading := Button.setLoading true c p in
  let w := {| heap := [loading.1]; page := loading.2 |} in
  Button.cfg_loading (Button._buttonConfig (widget loading.1)) = true
  /\ exists w' c',
       Button.setSize 0%nat lg w = Done w'
       /\ heap w' !! 0%nat = Some c'
       /\ Button.cfg_loading (Button._buttonConfig (widget c')) = false
       /\ ("np-loading" ∉ classList (dom (page w') 0%nat))
       /\ Button.is_disabled c' (page w') = truthy_flag (disabled (_config c'))
       /\ last (log (page w'))
          = Some (Dispatch (Node 0%nat) "np:loading-change" (LoadingDetail false)).
Proof.
  intros c p loading w. split; [reflexivity|].
  exact (button_update_without_loading_ends_loading 0%nat
           {| Button.button_base := no_config; Button.variant := None;
              Button.size := Some lg; Button.loading := None;
              Button.onClick := false |} w loading.1
           ltac:(reflexivity) ltac:(reflexivity) ltac:(reflexivity)
           ltac:(reflexivity) ltac:(reflexivity)).
Defined.

Lemma button_destroy_restores_witness :
  let c : Component Button.ButtonFields :=
    {| _element := 0%nat; _config := no_config; _theme := lightTheme;
       _listeners := []; _destroyed := false;
       widget := {| Button._buttonConfig :=
                      {| Button.cfg_variant := Button.primary;
                         Button.cfg_size := md; Button.cfg_loading := false;
                         Button.cfg_onClick := false |};
                    Button._loadingSpinner := None;
                    Button._originalContent := None |} |} in
  let p := initial_page (fun _ => set_innerHTML (lit "Save") (blank "button")) in
  let loading := Button.setLoading true c p in
  let w := {| heap := [loading.1]; page := loading.2 |} in
  Button.content loading.1 (page w) = Button.loading_content
  /\ exists w',
       destroy 0%nat w = Done w'
       /\ Button.content loading.1 (page w') = lit "Save"
       /\ Button.is_disabled loading.1 (page w')
          = Button.is_disabled loading.1 (page w).
Proof.
  intros c p loading w. split; [reflexivity|].
  exact (button_destroy_restores_content 0%nat w loading.1 (lit "Save")
           ltac:(reflexivity) ltac:(reflexivity) ltac:(reflexivity)
           ltac:(reflexivity) ltac:(reflexivity) ltac:(vm_compute; discriminate)).
Defined.

Lemma button_setVariant_witness :
  let c : Component Button.ButtonFields :=
    {| _element := 0%nat; _config := no_config; _theme := lightTheme;
       _listeners := [ThemeListener 0 0]; _destroyed := false;
       widget := {| Button._buttonConfig :=
                      {| Button.cfg_variant := Button.primary;
                         Button.cfg_size := md; Button.cfg_loading := false;
                         Button.cfg_onClick := false |};
                    Button._loadingSpinner := None;
                    Button._originalContent := None |} |} in
  let w : World Button.ButtonFields :=
    {| heap := [c];
       page := set_listeners [ThemeListener 0 0] 1%nat
                 (initial_page (fun _ => blank "button")) |} in
  exists w' c' news,
    Button.setVariant 0%nat Button.ghost w = Done w'
    /\ heap w' !! 0%nat = Some c'
    /\ _listeners c' = [ThemeListener 0 0] ++ news
    /\ listeners (page w') = [ThemeListener 0 0] ++ news
    /\ length news = 6%nat
    /\ Forall (fun l => listener_owner l = 0%nat) news
    /\ Button.cfg_variant (Button._buttonConfig (widget c')) = Button.ghost.
Proof.
  intros c w.
  exact (button_setVariant_registers_listeners_again 0%nat Button.ghost w c
           ltac:(reflexivity) ltac:(reflexivity) ltac:(reflexivity)
           ltac:(discriminate)).
Defined.

End ButtonExamples.
